(** * chezmoi: the target-state reconciliation core and the KeePassXC helper

    A shallow embedding of

    - [next/internal/chezmoi/targetstateentry.go]: the target-state entry
      variants with their [Apply] and [Equal] methods;
    - the unix helpers of package [chezmoi] ([umaskPermEqual],
      [TrimDirPrefix]);
    - the keepassxc command of package [cmd]: [readPassword],
      [runKeePassXCCLICommand] and [parseKeyPassXCOutput];
    - [next/cmd/unmanagedcmd.go]: [runUnmanagedCmd], and [runVerifyCmd] of
      the verify command.

    Conventions.  Go's [string] is a Rocq [string]; Go's [[]byte] is a
    [list ascii] ([bytes]); the conversions [string(b)] and [[]byte(s)] are
    [string_of_list_ascii] and [list_ascii_of_string].  An [os.FileMode] is
    an unsigned machine integer kept as a [Z].  A Go [error] result is an
    [option error] ([None] is [nil]); a Go [(value, error)] result whose value
    is meaningless when the error is set is a [result].  Stateful code is
    written in a state-and-error monad over the world it mutates. *)

From Stdlib Require Import ZArith List Ascii String Bool Lia.
From stdpp Require Import base option list gmap strings.

Import ListNotations.

(** ** Bytes, errors, results *)

Definition bytes : Type := list ascii.

Definition LF : ascii := "010"%char.
Definition CR : ascii := "013"%char.
Definition colon : ascii := ":"%char.
Definition space : ascii := " "%char.

(** The error values the embedded code creates or tests for. [ErrBackend]
    stands for whatever a system backend, a producer of lazy contents or
    another collaborator reports. *)
Inductive error : Type :=
| EOF                                      (* io.EOF *)
| ErrTooLong                               (* bufio.ErrTooLong *)
| ErrPasswordTooLong                       (* errors.New("password too long") *)
| ErrCannotParse (text : string)           (* fmt.Errorf("cannot parse %q", text) *)
| ErrNoDirPrefix (path dir : string)       (* TrimDirPrefix's error *)
| ErrExitCode (code : Z)                   (* cmd.ErrExitCode *)
| ErrUnsupported (path : string)           (* unsupported file type *)
| SkipDir                                  (* filepath.SkipDir (vfs.SkipDir) *)
| Panic (msg : string)                     (* a panic unwinding to the caller *)
| ErrBackend (msg : string).

Definition is_EOF (e : error) : bool :=
  match e with EOF => true | _ => false end.

Inductive result (A : Type) : Type :=
| Ok (a : A)
| Err (e : error).
Arguments Ok {A} a.
Arguments Err {A} e.

Definition errorOf {A} (r : result A) : option error :=
  match r with Ok _ => None | Err e => Some e end.

(** ** Permissions (package chezmoi, unix helpers) *)

Definition FileMode : Type := Z.

(** [perm1 &^ umask]: Go's bit-clear operator is [Z.ldiff]. *)
Definition umaskPermEqual (perm1 perm2 umask : FileMode) : bool :=
  (Z.ldiff perm1 umask =? Z.ldiff perm2 umask)%Z.

(** [strings.HasPrefix]. *)
Definition HasPrefix (s prefix : string) : bool :=
  String.prefix prefix s.

(** [path[len(prefix):]]: drop the first [n] bytes. *)
Fixpoint dropString (n : nat) (s : string) : string :=
  match n, s with
  | O, _ => s
  | S _, EmptyString => EmptyString
  | S n', String _ s' => dropString n' s'
  end.

(** [TrimDirPrefix] returns [path] with the directory prefix [dir] stripped. *)
Definition TrimDirPrefix (path dir : string) : result string :=
  let prefix := (dir ++ "/")%string in
  if negb (HasPrefix path prefix) then Err (ErrNoDirPrefix path dir)
  else Ok (dropString (String.length prefix) path).

(** ** encoding/hex and crypto/sha256 *)

Module Hex.

Definition hextable : string := "0123456789abcdef".

Definition digit (n : N) : ascii :=
  match String.get (N.to_nat n) hextable with
  | Some c => c
  | None => "0"%char
  end.

(** [hex.EncodeToString]: two lowercase digits per byte, high nibble first. *)
Fixpoint EncodeToString (src : bytes) : string :=
  match src with
  | [] => EmptyString
  | b :: rest =>
      let v := N_of_ascii b in
      String (digit (N.shiftr v 4)) (String (digit (N.land v 15)) (EncodeToString rest))
  end.

End Hex.

Module SHA256.

Local Open Scope Z_scope.

Definition add32 (x y : Z) : Z := (x + y) mod 4294967296.
Definition not32 (x : Z) : Z := Z.lxor x 4294967295.
Definition rotr (n x : Z) : Z :=
  Z.lor (Z.shiftr x n) (Z.shiftl x (32 - n) mod 4294967296).

Definition Ch (x y z : Z) : Z := Z.lxor (Z.land x y) (Z.land (not32 x) z).
Definition Maj (x y z : Z) : Z :=
  Z.lxor (Z.lxor (Z.land x y) (Z.land x z)) (Z.land y z).
Definition bigSigma0 (x : Z) : Z := Z.lxor (Z.lxor (rotr 2 x) (rotr 13 x)) (rotr 22 x).
Definition bigSigma1 (x : Z) : Z := Z.lxor (Z.lxor (rotr 6 x) (rotr 11 x)) (rotr 25 x).
Definition smallSigma0 (x : Z) : Z := Z.lxor (Z.lxor (rotr 7 x) (rotr 18 x)) (Z.shiftr x 3).
Definition smallSigma1 (x : Z) : Z := Z.lxor (Z.lxor (rotr 17 x) (rotr 19 x)) (Z.shiftr x 10).

(** The constants of FIPS 180-4: the first 32 bits of the fractional parts
    of the cube roots of the first 64 primes, and of the square roots of the
    first 8 primes. *)
Definition isPrime (n : nat) : bool :=
  forallb (fun d => negb (Nat.eqb (Nat.modulo n d) 0)) (seq 2 (n - 2)).

Definition primes : list Z := map Z.of_nat (List.filter isPrime (seq 2 310)).

(** The largest [r] below [2^bits] with [r^3 <= n]. *)
Fixpoint cubeRoot (bits : nat) (n r : Z) : Z :=
  match bits with
  | O => r
  | S bits' =>
      let r' := r + 2 ^ Z.of_nat bits' in
      cubeRoot bits' n (if r' * r' * r' <=? n then r' else r)
  end.

Definition K : list Z :=
  Eval vm_compute in map (fun p => cubeRoot 36 (p * 2 ^ 96) 0 mod 2 ^ 32) primes.

Definition H0 : list Z :=
  Eval vm_compute in map (fun p => Z.sqrt (p * 2 ^ 64) mod 2 ^ 32) (firstn 8 primes).

(** The message followed by 0x80, zero bytes up to 56 modulo 64, and the
    bit length as a 64-bit big-endian integer. *)
Definition beBytes (n : nat) (x : Z) : list Z :=
  map (fun i => Z.shiftr x (8 * Z.of_nat i) mod 256) (rev (seq 0 n)).

Definition pad (msg : list Z) : list Z :=
  let len := Z.of_nat (length msg) in
  msg ++ [128] ++ repeat 0 (Z.to_nat ((55 - len) mod 64)) ++ beBytes 8 (8 * len).

Fixpoint beWords (bs : list Z) : list Z :=
  match bs with
  | b0 :: b1 :: b2 :: b3 :: rest =>
      (Z.shiftl b0 24 + Z.shiftl b1 16 + Z.shiftl b2 8 + b3) :: beWords rest
  | _ => []
  end.

Fixpoint chunks (fuel : nat) (ws : list Z) : list (list Z) :=
  match fuel, ws with
  | O, _ | _, [] => []
  | S fuel', _ => firstn 16 ws :: chunks fuel' (skipn 16 ws)
  end.

(** The message schedule: [w] is the window W[t-16..t-1]. *)
Fixpoint schedule (n : nat) (w : list Z) : list Z :=
  match n with
  | O => []
  | S n' =>
      let x := add32 (add32 (smallSigma1 (nth 14 w 0)) (nth 9 w 0))
                     (add32 (smallSigma0 (nth 1 w 0)) (nth 0 w 0)) in
      x :: schedule n' (tl w ++ [x])
  end.

Definition round (st : list Z) (kw : Z * Z) : list Z :=
  match st with
  | [a; b; c; d; e; f; g; h] =>
      let t1 := add32 (add32 (add32 h (bigSigma1 e)) (add32 (Ch e f g) (fst kw))) (snd kw) in
      let t2 := add32 (bigSigma0 a) (Maj a b c) in
      [add32 t1 t2; a; b; c; add32 d t1; e; f; g]
  | _ => st
  end.

Definition compress (h : list Z) (block : list Z) : list Z :=
  let w := block ++ schedule 48 block in
  let st := fold_left round (combine K w) h in
  map (fun p => add32 (fst p) (snd p)) (combine h st).

(** [sha256.Sum256] as a byte slice of length 32. *)
Definition Sum256 (data : bytes) : bytes :=
  let msg := map (fun c => Z.of_N (N_of_ascii c)) data in
  let ws := beWords (pad msg) in
  let h := fold_left compress (chunks (length ws) ws) H0 in
  map (fun b => ascii_of_N (Z.to_N b)) (flat_map (beBytes 4) h).

End SHA256.

(** [sha256Sum] of package chezmoi. *)
Definition sha256Sum (data : bytes) : bytes := SHA256.Sum256 data.
Arguments sha256Sum : simpl never.

(** ** The system backend

    The [System] interface of package chezmoi is declared in another file of
    the package; the methods below are the ones [targetstateentry.go] calls,
    each a transition of the backend's own state [St].  Reads ([Lstat],
    [ReadFile], [Readlink], the persistent state's [Get]) observe the state
    without changing it. *)

Inductive FileKind : Type := KindRegular | KindDir | KindSymlink | KindOther.

Record FileInfo : Type := { fi_kind : FileKind; fi_perm : FileMode }.

Record System (St : Type) : Type := {
  sysChmod : string -> FileMode -> St -> option error * St;
  sysMkdir : string -> FileMode -> St -> option error * St;
  sysRemoveAll : string -> St -> option error * St;
  sysRename : string -> string -> St -> option error * St;
  sysRunScript : string -> string -> bytes -> St -> option error * St;
  sysWriteFile : string -> bytes -> FileMode -> St -> option error * St;
  sysWriteSymlink : string -> string -> St -> option error * St;
  sysGet : bytes -> bytes -> St -> result (option bytes);
  sysSet : bytes -> bytes -> bytes -> St -> option error * St;
  sysLstat : string -> St -> result (option FileInfo);
  sysReadFile : string -> St -> result bytes;
  sysReadlink : string -> St -> result string
}.
Arguments sysChmod {St} _ _ _ _.
Arguments sysMkdir {St} _ _ _ _.
Arguments sysRemoveAll {St} _ _ _.
Arguments sysRename {St} _ _ _ _.
Arguments sysRunScript {St} _ _ _ _ _.
Arguments sysWriteFile {St} _ _ _ _ _.
Arguments sysWriteSymlink {St} _ _ _ _.
Arguments sysGet {St} _ _ _ _.
Arguments sysSet {St} _ _ _ _ _.
Arguments sysLstat {St} _ _ _.
Arguments sysReadFile {St} _ _ _.
Arguments sysReadlink {St} _ _ _.

(** The calls a target-state entry makes on its [System], in the order made. *)
Inductive SysCall : Type :=
| CallChmod (name : string) (mode : FileMode)
| CallMkdir (name : string) (perm : FileMode)
| CallRemoveAll (name : string)
| CallRename (oldpath newpath : string)
| CallRunScript (scriptname dir : string) (data : bytes)
| CallWriteFile (filename : string) (data : bytes) (perm : FileMode)
| CallWriteSymlink (oldname newname : string)
| CallGet (bucket key : bytes)
| CallSet (bucket key value : bytes).

Definition isRunScript (c : SysCall) : bool :=
  match c with CallRunScript _ _ _ => true | _ => false end.

(** The world [Apply] runs in: the backend's state, the calls made on the
    backend so far, and the wall clock [time.Now] reads. *)
Record World (St : Type) : Type := {
  w_sys : St;
  w_trace : list SysCall;
  w_now : Z
}.
Arguments w_sys {St} _.
Arguments w_trace {St} _.
Arguments w_now {St} _.
Arguments Build_World {St} _ _ _.

(** ** A state-and-error monad *)

Definition M (W A : Type) : Type := W -> result A * W.

Definition ret {W A} (a : A) : M W A := fun w => (Ok a, w).

Definition bind {W A B} (m : M W A) (k : A -> M W B) : M W B :=
  fun w =>
    match m w with
    | (Ok a, w') => k a w'
    | (Err e, w') => (Err e, w')
    end.

(** A Go [(value, error)] pair already in hand. *)
Definition liftR {W A} (r : result A) : M W A := fun w => (r, w).

Declare Scope go_scope.
Delimit Scope go_scope with go.
Notation "x <- m ;; k" := (bind m (fun x => k))
  (at level 100, m at next level, right associativity) : go_scope.
Notation "m ;; k" := (bind m (fun _ => k))
  (at level 100, right associativity) : go_scope.
Local Open Scope go_scope.

Definition resultOfError (e : option error) : result unit :=
  match e with None => Ok tt | Some e => Err e end.

(** A mutating call on the backend: it is recorded, then made. *)
Definition call {St} (c : SysCall) (f : St -> option error * St) : M (World St) unit :=
  fun w =>
    let (e, s') := f (w_sys w) in
    (resultOfError e, Build_World s' (w_trace w ++ [c]) (w_now w)).

(** A reading call on the backend that is recorded ([PersistentState().Get]). *)
Definition query {St A} (c : SysCall) (f : St -> result A) : M (World St) A :=
  fun w => (f (w_sys w), Build_World (w_sys w) (w_trace w ++ [c]) (w_now w)).

(** [time.Now()]. *)
Definition time_Now {St} : M (World St) Z := fun w => (Ok (w_now w), w).

Section SystemCalls.
Context {St : Type} (s : System St).

Definition Chmod (name : string) (mode : FileMode) : M (World St) unit :=
  call (CallChmod name mode) (sysChmod s name mode).
Definition Mkdir (name : string) (perm : FileMode) : M (World St) unit :=
  call (CallMkdir name perm) (sysMkdir s name perm).
Definition RemoveAll (name : string) : M (World St) unit :=
  call (CallRemoveAll name) (sysRemoveAll s name).
Definition Rename (oldpath newpath : string) : M (World St) unit :=
  call (CallRename oldpath newpath) (sysRename s oldpath newpath).
Definition RunScript (scriptname dir : string) (data : bytes) : M (World St) unit :=
  call (CallRunScript scriptname dir data) (sysRunScript s scriptname dir data).
Definition WriteFile (filename : string) (data : bytes) (perm : FileMode) : M (World St) unit :=
  call (CallWriteFile filename data perm) (sysWriteFile s filename data perm).
Definition WriteSymlink (oldname newname : string) : M (World St) unit :=
  call (CallWriteSymlink oldname newname) (sysWriteSymlink s oldname newname).
Definition PersistentState_Get (bucket key : bytes) : M (World St) (option bytes) :=
  query (CallGet bucket key) (sysGet s bucket key).
Definition PersistentState_Set (bucket key value : bytes) : M (World St) unit :=
  call (CallSet bucket key value) (sysSet s bucket key value).

End SystemCalls.

(** ** Lazy contents and actual state entries *)

(** Modelled from the spec: lazy content (the [lazyContents] and
    [lazyLinkname] cells are declared in another file of the package).  A cell
    produces its contents on first access and memoises the contents or the
    error; what every access returns is therefore the producer's one
    outcome, and the SHA-256 is that of the contents. *)
Definition lazyContents : Type := result bytes.
Definition lazyLinkname : Type := result string.

Definition Contents (lc : lazyContents) : result bytes := lc.

Definition ContentsSHA256 (lc : lazyContents) : result bytes :=
  match lc with
  | Ok contents => Ok (sha256Sum contents)
  | Err e => Err e
  end.

Definition Linkname (ll : lazyLinkname) : result string := ll.

(** Modelled from the spec: the actual state entry variants (absent,
    directory, file, symlink), declared in another file of the package. *)
Inductive ActualStateEntry : Type :=
| ActualStateAbsent (path : string)
| ActualStateDir (path : string) (perm : FileMode)
| ActualStateFile (path : string) (perm : FileMode) (contents : lazyContents)
| ActualStateSymlink (path : string) (linkname : lazyLinkname).

Definition Path (a : ActualStateEntry) : string :=
  match a with
  | ActualStateAbsent path => path
  | ActualStateDir path _ => path
  | ActualStateFile path _ _ => path
  | ActualStateSymlink path _ => path
  end.

(** Modelled from the spec: [isEmpty], "all-whitespace counts as empty". *)
Definition isSpace (c : ascii) : bool :=
  let n := N_of_ascii c in
  ((9 <=? n) && (n <=? 13) || (n =? 32))%N.

Definition isEmpty (data : bytes) : bool := forallb isSpace data.

(** Modelled from the spec: the persistent state's one bucket. *)
Definition ScriptOnceStateBucket : bytes := list_ascii_of_string "scriptOnceState".

(** ** Target state entries (targetstateentry.go) *)

Record TargetStateDir : Type := { tsd_perm : FileMode }.

Record TargetStateFile : Type := { tsf_contents : lazyContents; tsf_perm : FileMode }.

Record TargetStatePresent : Type := { tsp_contents : lazyContents; tsp_perm : FileMode }.

Record TargetStateRenameDir : Type := { oldName : string; newName : string }.

Record TargetStateScript : Type := {
  tss_contents : lazyContents;
  name : string;
  once : bool
}.

Record TargetStateSymlink : Type := { tsl_linkname : lazyLinkname }.

Record scriptOnceState : Type := { Name : string; RunAt : Z }.

(** The implementations of the [TargetStateEntry] interface. *)
Inductive TargetStateEntry : Type :=
| Absent
| Dir (t : TargetStateDir)
| File (t : TargetStateFile)
| Present (t : TargetStatePresent)
| RenameDir (t : TargetStateRenameDir)
| Script (t : TargetStateScript)
| Symlink (t : TargetStateSymlink).

Definition isScript (t : TargetStateEntry) : bool :=
  match t with Script _ => true | _ => false end.

Definition isRenameDir (t : TargetStateEntry) : bool :=
  match t with RenameDir _ => true | _ => false end.

(** The key a run-once script is recorded under. *)
Definition scriptOnceKey (contents : bytes) : bytes :=
  list_ascii_of_string (Hex.EncodeToString (sha256Sum contents)).

Section TargetState.

Context {St : Type} (s : System St).

(** [path.Dir] and [path.Join] of Go's library, and [json.Marshal] at type
    [scriptOnceState]. *)
Variable path_Dir : string -> string.
Variable path_Join : string -> string -> string.
Variable json_Marshal : scriptOnceState -> result bytes.

Local Abbreviation Go := (M (World St)).

(** Modelled from the spec: [ActualStateEntry.Remove], "remove actual";
    nothing is there to remove when the entry is absent. *)
Definition Remove (a : ActualStateEntry) : Go unit :=
  match a with
  | ActualStateAbsent _ => ret tt
  | _ => RemoveAll s (Path a)
  end.

(** *** TargetStateAbsent *)

Definition TargetStateAbsent_Apply (actualStateEntry : ActualStateEntry)
    (umask : FileMode) : Go unit :=
  match actualStateEntry with
  | ActualStateAbsent _ => ret tt
  | _ => RemoveAll s (Path actualStateEntry)
  end.

Definition TargetStateAbsent_Equal (actualStateEntry : ActualStateEntry)
    (umask : FileMode) : bool * option error :=
  match actualStateEntry with
  | ActualStateAbsent _ => (true, None)
  | _ => (false, None)
  end.

(** *** TargetStateDir *)

Definition TargetStateDir_Apply (t : TargetStateDir) (actualStateEntry : ActualStateEntry)
    (umask : FileMode) : Go unit :=
  match actualStateEntry with
  | ActualStateDir path perm =>
      if umaskPermEqual perm (tsd_perm t) umask then ret tt
      else Chmod s path (tsd_perm t)
  | _ =>
      Remove actualStateEntry ;;
      Mkdir s (Path actualStateEntry) (tsd_perm t)
  end.

Definition TargetStateDir_Equal (t : TargetStateDir) (actualStateEntry : ActualStateEntry)
    (umask : FileMode) : bool * option error :=
  match actualStateEntry with
  | ActualStateDir _ perm =>
      if negb (umaskPermEqual perm (tsd_perm t) umask) then (false, None)
      else (true, None)
  | _ => (false, None)
  end.

(** *** TargetStateFile *)

Definition TargetStateFile_write (t : TargetStateFile) (actualStateEntry : ActualStateEntry)
    : Go unit :=
  contents <- liftR (Contents (tsf_contents t)) ;;
  WriteFile s (Path actualStateEntry) contents (tsf_perm t).

Definition TargetStateFile_Apply (t : TargetStateFile) (actualStateEntry : ActualStateEntry)
    (umask : FileMode) : Go unit :=
  match actualStateEntry with
  | ActualStateFile path perm actualContents =>
      actualContentsSHA256 <- liftR (ContentsSHA256 actualContents) ;;
      contentsSHA256 <- liftR (ContentsSHA256 (tsf_contents t)) ;;
      if bool_decide (actualContentsSHA256 = contentsSHA256) then
        if umaskPermEqual perm (tsf_perm t) umask then ret tt
        else Chmod s path (tsf_perm t)
      else TargetStateFile_write t actualStateEntry
  | _ =>
      Remove actualStateEntry ;;
      TargetStateFile_write t actualStateEntry
  end.

Definition TargetStateFile_Equal (t : TargetStateFile) (actualStateEntry : ActualStateEntry)
    (umask : FileMode) : bool * option error :=
  match actualStateEntry with
  | ActualStateFile _ perm actualContents =>
      if negb (umaskPermEqual perm (tsf_perm t) umask) then (false, None)
      else
        match ContentsSHA256 actualContents with
        | Err err => (false, Some err)
        | Ok actualContentsSHA256 =>
            match ContentsSHA256 (tsf_contents t) with
            | Err err => (false, Some err)
            | Ok contentsSHA256 =>
                if negb (bool_decide (actualContentsSHA256 = contentsSHA256))
                then (false, None)
                else (true, None)
            end
        end
  | _ => (false, None)
  end.

(** *** TargetStatePresent *)

Definition TargetStatePresent_Apply (t : TargetStatePresent)
    (actualStateEntry : ActualStateEntry) (umask : FileMode) : Go unit :=
  match actualStateEntry with
  | ActualStateFile path perm _ =>
      if umaskPermEqual perm (tsp_perm t) umask then ret tt
      else Chmod s path (tsp_perm t)
  | _ =>
      Remove actualStateEntry ;;
      contents <- liftR (Contents (tsp_contents t)) ;;
      WriteFile s (Path actualStateEntry) contents (tsp_perm t)
  end.

Definition TargetStatePresent_Equal (t : TargetStatePresent)
    (actualStateEntry : ActualStateEntry) (umask : FileMode) : bool * option error :=
  match actualStateEntry with
  | ActualStateFile _ perm _ =>
      if negb (umaskPermEqual perm (tsp_perm t) umask) then (false, None)
      else (true, None)
  | _ => (false, None)
  end.

(** *** TargetStateRenameDir *)

Definition TargetStateRenameDir_Apply (t : TargetStateRenameDir)
    (actualStateEntry : ActualStateEntry) (umask : FileMode) : Go unit :=
  let dir := path_Dir (Path actualStateEntry) in
  Rename s (path_Join dir (oldName t)) (path_Join dir (newName t)).

Definition TargetStateRenameDir_Equal (t : TargetStateRenameDir)
    (actualStateEntry : ActualStateEntry) (umask : FileMode) : bool * option error :=
  (false, None).

(** *** TargetStateScript *)

(** The part of [Apply] after the run-once lookup: [key] and [executedAt]
    are set only when [t.once]. *)
Definition TargetStateScript_run (t : TargetStateScript)
    (actualStateEntry : ActualStateEntry) (key : bytes) (executedAt : Z) : Go unit :=
  contents <- liftR (Contents (tss_contents t)) ;;
  if isEmpty contents then ret tt
  else
    RunScript s (name t) (path_Dir (Path actualStateEntry)) contents ;;
    if once t then
      value <- liftR (json_Marshal {| Name := name t; RunAt := executedAt |}) ;;
      PersistentState_Set s ScriptOnceStateBucket key value
    else ret tt.

Definition TargetStateScript_Apply (t : TargetStateScript)
    (actualStateEntry : ActualStateEntry) (umask : FileMode) : Go unit :=
  if once t then
    contentsSHA256 <- liftR (ContentsSHA256 (tss_contents t)) ;;
    let key := list_ascii_of_string (Hex.EncodeToString contentsSHA256) in
    scriptOnceState <- PersistentState_Get s ScriptOnceStateBucket key ;;
    match scriptOnceState with
    | Some _ => ret tt
    | None =>
        executedAt <- time_Now ;;
        TargetStateScript_run t actualStateEntry key executedAt
    end
  else TargetStateScript_run t actualStateEntry [] 0%Z.

Definition TargetStateScript_Equal (t : TargetStateScript)
    (actualStateEntry : ActualStateEntry) (umask : FileMode) : bool * option error :=
  (true, None).

(** *** TargetStateSymlink *)

Definition TargetStateSymlink_replace (t : TargetStateSymlink)
    (actualStateEntry : ActualStateEntry) : Go unit :=
  linkname <- liftR (Linkname (tsl_linkname t)) ;;
  Remove actualStateEntry ;;
  WriteSymlink s linkname (Path actualStateEntry).

Definition TargetStateSymlink_Apply (t : TargetStateSymlink)
    (actualStateEntry : ActualStateEntry) (umask : FileMode) : Go unit :=
  match actualStateEntry with
  | ActualStateSymlink _ actualLink =>
      actualLinkname <- liftR (Linkname actualLink) ;;
      linkname <- liftR (Linkname (tsl_linkname t)) ;;
      if bool_decide (actualLinkname = linkname) then ret tt
      else TargetStateSymlink_replace t actualStateEntry
  | _ => TargetStateSymlink_replace t actualStateEntry
  end.

Definition TargetStateSymlink_Equal (t : TargetStateSymlink)
    (actualStateEntry : ActualStateEntry) (umask : FileMode) : bool * option error :=
  match actualStateEntry with
  | ActualStateSymlink _ actualLink =>
      match Linkname actualLink with
      | Err err => (false, Some err)
      | Ok actualLinkname =>
          match Linkname (tsl_linkname t) with
          | Err _ => (false, None)
          | Ok linkname =>
              if negb (bool_decide (actualLinkname = linkname)) then (false, None)
              else (true, None)
          end
      end
  | _ => (false, None)
  end.

(** *** Dispatch through the interface *)

Definition Apply (t : TargetStateEntry) (actualStateEntry : ActualStateEntry)
    (umask : FileMode) : Go unit :=
  match t with
  | Absent => TargetStateAbsent_Apply actualStateEntry umask
  | Dir t => TargetStateDir_Apply t actualStateEntry umask
  | File t => TargetStateFile_Apply t actualStateEntry umask
  | Present t => TargetStatePresent_Apply t actualStateEntry umask
  | RenameDir t => TargetStateRenameDir_Apply t actualStateEntry umask
  | Script t => TargetStateScript_Apply t actualStateEntry umask
  | Symlink t => TargetStateSymlink_Apply t actualStateEntry umask
  end.

Definition Equal (t : TargetStateEntry) (actualStateEntry : ActualStateEntry)
    (umask : FileMode) : bool * option error :=
  match t with
  | Absent => TargetStateAbsent_Equal actualStateEntry umask
  | Dir t => TargetStateDir_Equal t actualStateEntry umask
  | File t => TargetStateFile_Equal t actualStateEntry umask
  | Present t => TargetStatePresent_Equal t actualStateEntry umask
  | RenameDir t => TargetStateRenameDir_Equal t actualStateEntry umask
  | Script t => TargetStateScript_Equal t actualStateEntry umask
  | Symlink t => TargetStateSymlink_Equal t actualStateEntry umask
  end.

(** Modelled from the spec: actual state probing, [GetActualStateEntry]:
    a non-following lstat; absent when nothing is there; a regular file, a
    directory or a symlink otherwise, with the contents or the link target
    read through the backend; any other kind is unsupported. *)
Definition GetActualStateEntry (path : string) (st : St) : result ActualStateEntry :=
  match sysLstat s path st with
  | Err e => Err e
  | Ok None => Ok (ActualStateAbsent path)
  | Ok (Some info) =>
      match fi_kind info with
      | KindRegular => Ok (ActualStateFile path (fi_perm info) (sysReadFile s path st))
      | KindDir => Ok (ActualStateDir path (fi_perm info))
      | KindSymlink => Ok (ActualStateSymlink path (sysReadlink s path st))
      | KindOther => Err (ErrUnsupported path)
      end
  end.

(** Successive passes over run-once scripts: each [Apply] in turn, the next
    one whatever the previous one returned.  Every pass is reported with its
    error and the calls it made on the backend. *)
Fixpoint applyScripts (ts : list (TargetStateScript * ActualStateEntry))
    (umask : FileMode) (w : World St)
    : list (option error * list SysCall) * World St :=
  match ts with
  | [] => ([], w)
  | (t, a) :: rest =>
      let (r, w') := TargetStateScript_Apply t a umask w in
      let (rs, w'') := applyScripts rest umask w' in
      ((errorOf r, drop (length (w_trace w)) (w_trace w')) :: rs, w'')
  end.

End TargetState.

(** ** What a backend owes its callers

    The table of backend operations in the spec, as far as [Apply] and
    [Equal] rely on it.  [umask] is the mask the backend creates entries
    under. *)

Definition hasKindPerm (r : result (option FileInfo)) (k : FileKind) (perm umask : FileMode)
    : Prop :=
  exists p, r = Ok (Some {| fi_kind := k; fi_perm := p |}) /\ umaskPermEqual p perm umask = true.

Record MutationContract {St : Type} (s : System St) (umask : FileMode) : Prop := {
  mc_RemoveAll : forall name st st',
    sysRemoveAll s name st = (None, st') -> sysLstat s name st' = Ok None;
  mc_Chmod : forall name mode st st' info,
    sysChmod s name mode st = (None, st') ->
    sysLstat s name st = Ok (Some info) ->
    hasKindPerm (sysLstat s name st') (fi_kind info) mode umask /\
    sysReadFile s name st' = sysReadFile s name st;
  mc_Mkdir : forall name perm st st',
    sysMkdir s name perm st = (None, st') ->
    hasKindPerm (sysLstat s name st') KindDir perm umask;
  mc_WriteFile : forall name data perm st st',
    sysWriteFile s name data perm st = (None, st') ->
    hasKindPerm (sysLstat s name st') KindRegular perm umask /\
    sysReadFile s name st' = Ok data;
  mc_WriteSymlink : forall oldname newname st st',
    sysWriteSymlink s oldname newname st = (None, st') ->
    (exists p, sysLstat s newname st' = Ok (Some {| fi_kind := KindSymlink; fi_perm := p |})) /\
    sysReadlink s newname st' = Ok oldname
}.

(** A key of a bucket holds a value. *)
Definition recorded {St : Type} (s : System St) (bucket key : bytes) (st : St) : Prop :=
  exists v, sysGet s bucket key st = Ok (Some v).

(** One lifetime of the persistent state: what [Set] stores [Get] finds, and
    neither [Set] nor a script run drops a key. *)
Record PersistentContract {St : Type} (s : System St) : Prop := {
  pc_Set_Get : forall bucket key value st st',
    sysSet s bucket key value st = (None, st') -> recorded s bucket key st';
  pc_Set_keeps : forall bucket key value st e st' bucket0 key0,
    sysSet s bucket key value st = (e, st') ->
    recorded s bucket0 key0 st -> recorded s bucket0 key0 st';
  pc_RunScript_keeps : forall scriptname dir data st e st' bucket0 key0,
    sysRunScript s scriptname dir data st = (e, st') ->
    recorded s bucket0 key0 st -> recorded s bucket0 key0 st'
}.

(** ** An in-memory backend *)

(** Modelled from the spec: the real backend, "performs operations
    directly", over a tree kept in memory: a map from slash paths to nodes
    and a map from (bucket, key) to values.  [ms_scriptErrors] lists what the
    coming script runs return, the first run first; a run past the end of the
    list succeeds. *)
Module Mem.

Inductive Node : Type :=
| NFile (perm : FileMode) (data : bytes)
| NDir (perm : FileMode)
| NSymlink (target : string)
| NDevice.

Record State : Type := {
  ms_files : gmap string Node;
  ms_state : gmap (bytes * bytes) bytes;
  ms_scriptErrors : list (option error)
}.

Definition withFiles (st : State) (files : gmap string Node) : State :=
  {| ms_files := files; ms_state := ms_state st; ms_scriptErrors := ms_scriptErrors st |}.

Definition ENOENT (name : string) : error := ErrBackend ("no such file or directory: " ++ name).
Definition EEXIST (name : string) : error := ErrBackend ("file exists: " ++ name).
Definition EISDIR (name : string) : error := ErrBackend ("is a directory: " ++ name).
Definition EINVAL (name : string) : error := ErrBackend ("invalid argument: " ++ name).

(** [name] itself or a path below it. *)
Definition within (name path : string) : bool :=
  bool_decide (path = name) || String.prefix (name ++ "/") path.

Definition chmod (name : string) (mode : FileMode) (st : State) : option error * State :=
  match ms_files st !! name with
  | Some (NFile _ data) => (None, withFiles st (<[name := NFile mode data]> (ms_files st)))
  | Some (NDir _) => (None, withFiles st (<[name := NDir mode]> (ms_files st)))
  | Some _ => (Some (EINVAL name), st)
  | None => (Some (ENOENT name), st)
  end.

Definition mkdir (umask : FileMode) (name : string) (perm : FileMode) (st : State)
    : option error * State :=
  match ms_files st !! name with
  | Some _ => (Some (EEXIST name), st)
  | None => (None, withFiles st (<[name := NDir (Z.ldiff perm umask)]> (ms_files st)))
  end.

Definition removeAll (name : string) (st : State) : option error * State :=
  (None, withFiles st (filter (fun kv => within name (fst kv) = false) (ms_files st))).

Definition rename (oldpath newpath : string) (st : State) : option error * State :=
  match ms_files st !! oldpath with
  | None => (Some (ENOENT oldpath), st)
  | Some node => (None, withFiles st (<[newpath := node]> (delete oldpath (ms_files st))))
  end.

Definition runScript (scriptname dir : string) (data : bytes) (st : State)
    : option error * State :=
  match ms_scriptErrors st with
  | [] => (None, st)
  | e :: rest =>
      (e, {| ms_files := ms_files st; ms_state := ms_state st; ms_scriptErrors := rest |})
  end.

Definition writeFile (umask : FileMode) (name : string) (data : bytes) (perm : FileMode)
    (st : State) : option error * State :=
  match ms_files st !! name with
  | Some (NDir _) => (Some (EISDIR name), st)
  | _ => (None, withFiles st (<[name := NFile (Z.ldiff perm umask) data]> (ms_files st)))
  end.

Definition writeSymlink (oldname newname : string) (st : State) : option error * State :=
  (None, withFiles st (<[newname := NSymlink oldname]> (ms_files st))).

Definition get (bucket key : bytes) (st : State) : result (option bytes) :=
  Ok (ms_state st !! (bucket, key)).

Definition set (bucket key value : bytes) (st : State) : option error * State :=
  (None, {| ms_files := ms_files st;
            ms_state := <[(bucket, key) := value]> (ms_state st);
            ms_scriptErrors := ms_scriptErrors st |}).

Definition lstat (name : string) (st : State) : result (option FileInfo) :=
  match ms_files st !! name with
  | None => Ok None
  | Some (NFile perm _) => Ok (Some {| fi_kind := KindRegular; fi_perm := perm |})
  | Some (NDir perm) => Ok (Some {| fi_kind := KindDir; fi_perm := perm |})
  | Some (NSymlink _) => Ok (Some {| fi_kind := KindSymlink; fi_perm := 511%Z |})
  | Some NDevice => Ok (Some {| fi_kind := KindOther; fi_perm := 0%Z |})
  end.

Definition readFile (name : string) (st : State) : result bytes :=
  match ms_files st !! name with
  | Some (NFile _ data) => Ok data
  | Some (NDir _) => Err (EISDIR name)
  | Some _ => Err (EINVAL name)
  | None => Err (ENOENT name)
  end.

Definition readlink (name : string) (st : State) : result string :=
  match ms_files st !! name with
  | Some (NSymlink target) => Ok target
  | Some _ => Err (EINVAL name)
  | None => Err (ENOENT name)
  end.

Definition system (umask : FileMode) : System State := {|
  sysChmod := chmod;
  sysMkdir := mkdir umask;
  sysRemoveAll := removeAll;
  sysRename := rename;
  sysRunScript := runScript;
  sysWriteFile := writeFile umask;
  sysWriteSymlink := writeSymlink;
  sysGet := get;
  sysSet := set;
  sysLstat := lstat;
  sysReadFile := readFile;
  sysReadlink := readlink
|}.

Definition world (files : list (string * Node)) (scriptErrors : list (option error))
    : World State :=
  Build_World
    {| ms_files := list_to_map files; ms_state := ∅; ms_scriptErrors := scriptErrors |}
    [] 0%Z.

(** [path.Dir] and [path.Join] on clean slash paths, where they only cut and
    paste at a slash. *)
Fixpoint lastSlash (p : string) : option nat :=
  match p with
  | EmptyString => None
  | String c rest =>
      match lastSlash rest with
      | Some i => Some (S i)
      | None => if Ascii.eqb c "/" then Some 0 else None
      end
  end.

Definition dir (p : string) : string :=
  match lastSlash p with
  | None => "."
  | Some 0 => "/"
  | Some i => String.substring 0 i p
  end.

Definition join (d n : string) : string :=
  if String.eqb d "/" then ("/" ++ n)%string else (d ++ "/" ++ n)%string.

(** [json.Marshal] of a run-once record, with the time as a number. *)
Definition digitsOf (fuel : nat) (n : N) : string :=
  (fix go (fuel : nat) (n : N) (acc : string) : string :=
     match fuel with
     | O => acc
     | S fuel' =>
         let acc' := String (ascii_of_N (48 + N.modulo n 10)) acc in
         if (n <? 10)%N then acc' else go fuel' (N.div n 10) acc'
     end) fuel n EmptyString.

Definition marshal (r : scriptOnceState) : result bytes :=
  Ok (list_ascii_of_string
        ("{name:" ++ Name r ++ ",runAt:" ++ digitsOf 20 (Z.to_N (RunAt r)) ++ "}")).

End Mem.

(** Modelled from the spec: the dry-run backend, "forwards reads; intercepts
    mutations, records a modified flag, no filesystem change"; its
    persistent state is kept in memory. *)
Module DryRun.

Record State (St : Type) : Type := { underlying : St; modified : bool }.
Arguments underlying {St} _.
Arguments modified {St} _.
Arguments Build_State {St} _ _.

Definition intercept {St : Type} (st : State St) : option error * State St :=
  (None, Build_State (underlying st) true).

Definition system {St : Type} (s : System St) : System (State St) := {|
  sysChmod := fun _ _ => intercept;
  sysMkdir := fun _ _ => intercept;
  sysRemoveAll := fun _ => intercept;
  sysRename := fun _ _ => intercept;
  sysRunScript := fun _ _ _ => intercept;
  sysWriteFile := fun _ _ _ => intercept;
  sysWriteSymlink := fun _ _ => intercept;
  sysGet := fun bucket key st => sysGet s bucket key (underlying st);
  sysSet := fun bucket key value st =>
    let (e, st') := sysSet s bucket key value (underlying st) in
    (e, Build_State st' (modified st));
  sysLstat := fun name st => sysLstat s name (underlying st);
  sysReadFile := fun name st => sysReadFile s name (underlying st);
  sysReadlink := fun name st => sysReadlink s name (underlying st)
|}.

End DryRun.

(** ** The keepassxc command (package cmd) *)

Module bufio.

Definition MaxScanTokenSize : Z := 65536.

(** [dropCR] drops a terminal carriage return from the data. *)
Definition dropCR (data : bytes) : bytes :=
  match last data with
  | Some c => if Ascii.eqb c CR then removelast data else data
  | None => data
  end.

(** [bufio.NewScanner(bytes.NewReader(data))] with the default split
    function [ScanLines]: the tokens successive calls of [Scan] return, and
    what [Err] reports once [Scan] has returned false.  [line] is the
    unfinished line read so far.  A line is a token once its line feed is in
    the buffer, or at the end of the input when it is not empty; the buffer
    holds at most [MaxScanTokenSize] bytes, so a line of that many bytes
    before its line feed stops the scan with [ErrTooLong]. *)
Fixpoint scan (line : bytes) (data : bytes) : list string * option error :=
  match data with
  | [] =>
      match line with
      | [] => ([], None)
      | _ =>
          if (MaxScanTokenSize <=? Z.of_nat (length line))%Z then ([], Some ErrTooLong)
          else ([string_of_list_ascii (dropCR line)], None)
      end
  | c :: rest =>
      if (MaxScanTokenSize <=? Z.of_nat (length line))%Z then ([], Some ErrTooLong)
      else if Ascii.eqb c LF then
        let (tokens, err) := scan [] rest in
        (string_of_list_ascii (dropCR line) :: tokens, err)
      else scan (line ++ [c]) rest
  end.

Definition ScanLines (data : bytes) : list string * option error := scan [] data.

End bufio.

Module KeePassXC.

(** *** The pair regexp *)

(** [s] cut at its first colon. *)
Fixpoint cutColon (s : string) : option (string * string) :=
  match s with
  | EmptyString => None
  | String c rest =>
      if Ascii.eqb c colon then Some (EmptyString, rest)
      else
        match cutColon rest with
        | Some (k, v) => Some (String c k, v)
        | None => None
        end
  end.

Fixpoint hasLF (s : string) : bool :=
  match s with
  | EmptyString => false
  | String c rest => Ascii.eqb c LF || hasLF rest
  end.

Definition keePassXCPairRegexp : string := "^([^:]+): (.*)$".

(** [keePassXCPairRegexp.FindStringSubmatch]: the two groups of the match,
    if any.  The first group is one or more bytes other than a colon, so it
    ends at the first colon of the text; a colon and a space follow; the
    second group is the rest of the text, and the dot matches no line
    feed. *)
Definition FindStringSubmatch (text : string) : option (string * string) :=
  match cutColon text with
  | Some (String c k, String sp v) =>
      if Ascii.eqb sp space && negb (hasLF v) then Some (String c k, v) else None
  | _ => None
  end.

(** *** parseKeyPassXCOutput *)

(** The loop over the scanner's tokens, [i] counting them. *)
Fixpoint parseLoop (i : nat) (tokens : list string) (scanErr : option error)
    (data : gmap string string) : option (gmap string string) * option error :=
  match tokens with
  | [] => (Some data, scanErr)
  | text :: rest =>
      if Nat.eqb i 0 then parseLoop (S i) rest scanErr data
      else
        match FindStringSubmatch text with
        | None => (None, Some (ErrCannotParse text))
        | Some (k, v) => parseLoop (S i) rest scanErr (<[k := v]> data)
        end
  end.

Definition parseKeyPassXCOutput (output : bytes)
    : option (gmap string string) * option error :=
  let (tokens, scanErr) := bufio.ScanLines output in
  parseLoop 0 tokens scanErr ∅.

(** *** readPassword *)

(** One [os.Stdin.Read] into a one-byte buffer: the count, the byte stored
    when the count is not zero, and the error. *)
Record ReadResult : Type := { rr_n : nat; rr_byte : ascii; rr_err : option error }.

(** Standard input: whether it is a terminal, and what the coming reads
    return; once they are used up every read returns [(0, io.EOF)]. *)
Record Stdin : Type := { isTerminal : bool; reads : list ReadResult }.

(** A byte stream on a standard input that is no terminal. *)
Definition pipe (stream : bytes) : Stdin :=
  {| isTerminal := false;
     reads := map (fun b => {| rr_n := 1; rr_byte := b; rr_err := None |}) stream |}.

(** The process: the package variable [keePassXCPassword], standard input
    and what was printed on standard output. *)
Record Process : Type := {
  keePassXCPassword : string;
  stdin : Stdin;
  stdout : string
}.

(** The body of the read loop after one read: [inl] returns from
    [readPassword], [inr] goes round again with the password so far. *)
Definition readStep (pw : bytes) (r : ReadResult) : (bytes * option error) + bytes :=
  let n := rr_n r in
  let b0 := rr_byte r in
  let err := rr_err r in
  let after (pw : bytes) (err : option error) : (bytes * option error) + bytes :=
    match err with
    | Some e =>
        if is_EOF e && (0 <? length pw) then inl (pw, None) else inl (pw, Some e)
    | None => inr pw
    end in
  if (0 <? n) && negb (Ascii.eqb b0 CR) then
    if Ascii.eqb b0 LF then inl (pw, None)
    else
      let pw := pw ++ [b0] in
      let err := if 1024 <? length pw then Some ErrPasswordTooLong else err in
      after pw err
  else after pw err.

Definition atEOF : ReadResult := {| rr_n := 0; rr_byte := "000"%char; rr_err := Some EOF |}.

(** The read loop, with the reads left over. *)
Fixpoint readLoop (pw : bytes) (rs : list ReadResult)
    : (bytes * option error) * list ReadResult :=
  match rs with
  | [] =>
      match readStep pw atEOF with
      | inl r => (r, [])
      | inr pw' => ((pw', Some EOF), [])
      end
  | r :: rest =>
      match readStep pw r with
      | inl res => (res, rest)
      | inr pw' => readLoop pw' rest
      end
  end.

Definition newline : string := String LF EmptyString.

Section Commands.

(** [term.ReadPassword] on a terminal, and the mutator's
    [IdempotentCmdOutput]. *)
Variable term_ReadPassword : Stdin -> (bytes * option error) * Stdin.

Record Cmd : Type := { cmd_name : string; cmd_args : list string; cmd_Stdin : string }.

Variable IdempotentCmdOutput : Cmd -> result bytes.

Definition readPassword (prompt : string) (p : Process) : (bytes * option error) * Process :=
  if isTerminal (stdin p) then
    let out := (stdout p ++ prompt)%string in
    let (res, stdin') := term_ReadPassword (stdin p) in
    (res, {| keePassXCPassword := keePassXCPassword p;
             stdin := stdin';
             stdout := (out ++ newline)%string |})
  else
    let (res, rest) := readLoop [] (reads (stdin p)) in
    (res, {| keePassXCPassword := keePassXCPassword p;
             stdin := {| isTerminal := false; reads := rest |};
             stdout := stdout p |}).

Record Config : Type := { KeePassXC_Database : string }.

Definition exec (name : string) (args : list string) (p : Process) : result bytes * Process :=
  (IdempotentCmdOutput
     {| cmd_name := name; cmd_args := args;
        cmd_Stdin := (keePassXCPassword p ++ newline)%string |}, p).

Definition runKeePassXCCLICommand (c : Config) (name : string) (args : list string)
    (p : Process) : result bytes * Process :=
  if String.eqb (keePassXCPassword p) "" then
    let (res, p1) :=
      readPassword ("Insert password to unlock " ++ KeePassXC_Database c ++ ": ") p in
    let p2 := {| keePassXCPassword := keePassXCPassword p1;
                 stdin := stdin p1;
                 stdout := (stdout p1 ++ newline)%string |} in
    match snd res with
    | Some err => (Err err, p2)
    | None =>
        exec name args
          {| keePassXCPassword := string_of_list_ascii (fst res);
             stdin := stdin p2;
             stdout := stdout p2 |}
    end
  else exec name args p.

(** Invocations one after the other in one process, each with its output. *)
Fixpoint invocations (c : Config) (calls : list (string * list string)) (p : Process)
    : list (result bytes) * Process :=
  match calls with
  | [] => ([], p)
  | (name, args) :: rest =>
      let (out, p') := runKeePassXCCLICommand c name args p in
      let (outs, p'') := invocations c rest p' in
      (out :: outs, p'')
  end.

End Commands.

End KeePassXC.

(** ** path/filepath: Clean and Join on slash paths *)

Module filepath.

(** The elements of a path: what stands between its slashes. *)
Fixpoint elements (path : string) : list string :=
  match path with
  | EmptyString => [EmptyString]
  | String c rest =>
      if Ascii.eqb c "/" then EmptyString :: elements rest
      else
        match elements rest with
        | e :: es => String c e :: es
        | [] => [String c EmptyString]
        end
  end.

Definition rooted (path : string) : bool := String.prefix "/" path.

(** One element met by [Clean], with the elements kept so far, the last one
    first: an empty element and a dot are dropped; a dot-dot removes the
    element before it, unless there is none or it is a dot-dot itself, where
    it is dropped in a rooted path and kept in another. *)
Definition cleanStep (isRooted : bool) (out : list string) (e : string) : list string :=
  if String.eqb e "" || String.eqb e "." then out
  else if String.eqb e ".." then
    match out with
    | [] => if isRooted then [] else [e]
    | top :: below => if String.eqb top ".." then e :: out else below
    end
  else e :: out.

Definition joinElements (es : list string) : string :=
  match es with
  | [] => EmptyString
  | e :: rest => fold_left (fun acc x => (acc ++ "/" ++ x)%string) rest e
  end.

(** [filepath.Clean], with the slash as the separator: the shortest path
    that names the same place; the empty path becomes a dot. *)
Definition Clean (path : string) : string :=
  if String.eqb path "" then "."
  else
    let out := rev (fold_left (cleanStep (rooted path)) (elements path) []) in
    if rooted path then ("/" ++ joinElements out)%string
    else
      match out with
      | [] => "."
      | _ => joinElements out
      end.

(** [filepath.Join] of two elements: empty elements are left out and the
    rest, joined by a slash, is cleaned. *)
Definition Join (dir name : string) : string :=
  if String.eqb dir "" then
    if String.eqb name "" then "" else Clean name
  else Clean (dir ++ "/" ++ name).

End filepath.

(** ** next/cmd/unmanagedcmd.go: the unmanaged and verify commands *)

Module vfs.

(** What the walker finds at a path: a directory with its entries in the
    order the walker visits them (by name), another kind of entry, or a
    failure to examine the path. *)
#[local] Set Warnings "-register-all".
Inductive Tree : Type :=
| TFile
| TSymlink
| TDir (entries : list (string * Tree))
| TFailure (err : error).
#[local] Set Warnings "register-all".

Definition infoOf (t : Tree) : option FileInfo :=
  match t with
  | TFile => Some {| fi_kind := KindRegular; fi_perm := 420%Z |}
  | TSymlink => Some {| fi_kind := KindSymlink; fi_perm := 511%Z |}
  | TDir _ => Some {| fi_kind := KindDir; fi_perm := 493%Z |}
  | TFailure _ => None
  end.

Definition IsDir (info : option FileInfo) : bool :=
  match info with
  | Some {| fi_kind := KindDir |} => true
  | _ => false
  end.

Section Walk.

Context {A : Type}.

(** The walk function with the state it closes over. *)
Variable walkFn : string -> option FileInfo -> option error -> A -> option error * A.

(** The entries of a directory, one after the other, each at the path
    [filepath.Join] makes of the path of the directory and the name of the
    entry; the first error ends the walk. *)
Definition walkEntries
    (walkChild : string -> list string -> Tree -> A -> option error * A * list (list string))
    (path : string) (at_ : list string)
    : list (string * Tree) -> A -> option error * A * list (list string) :=
  fix go (entries : list (string * Tree)) (acc : A) :=
    match entries with
    | [] => (None, acc, [])
    | (name, child) :: rest =>
        match walkChild (filepath.Join path name) (at_ ++ [name]) child acc with
        | (Some err, acc1, seen) => (Some err, acc1, seen)
        | (None, acc1, seen) =>
            let '(r2, acc2, seen2) := go rest acc1 in
            (r2, acc2, seen ++ seen2)
        end
    end.

(** Modelled from the spec: the backend's directory walker ([vfs.WalkSlash]
    belongs to a library): the walk function is called on a path before the
    entries below it; [SkipDir] returned for a directory prunes the descent
    into it; any other error ends the walk.  [at_] is the position of [path]
    below the root, as the names on the way; the positions the walk function
    was called on are returned beside the walk's result. *)
Fixpoint walk (path : string) (at_ : list string) (t : Tree) (acc : A)
    : option error * A * list (list string) :=
  match t with
  | TFailure err =>
      let (r, acc') := walkFn path None (Some err) acc in (r, acc', [at_])
  | TDir entries =>
      let (r, acc') := walkFn path (infoOf t) None acc in
      match r with
      | Some SkipDir => (None, acc', [at_])
      | Some err => (Some err, acc', [at_])
      | None =>
          let '(r1, acc1, seen) := walkEntries walk path at_ entries acc' in
          (r1, acc1, at_ :: seen)
      end
  | _ =>
      let (r, acc') := walkFn path (infoOf t) None acc in (r, acc', [at_])
  end.

Definition WalkSlash (root : string) (t : Tree) (acc : A)
    : option error * A * list (list string) :=
  walk root [] t acc.

End Walk.

End vfs.

Module Cmd.

(** The source state as the commands consume it: [Entry(name)] finds an
    entry or not, [Ignored(name)] tells whether the name is ignored. *)
Record SourceState : Type := {
  Entry : string -> option TargetStateEntry;
  Ignored : string -> bool
}.

(** [MustTrimDirPrefix] panics where [TrimDirPrefix] fails. *)
Definition MustTrimDirPrefix (path dir : string) : result string :=
  match TrimDirPrefix path dir with
  | Ok name => Ok name
  | Err _ => Err (Panic "MustTrimDirPrefix")
  end.

(** The function [runUnmanagedCmd] passes to the walker; it closes over the
    string builder [sb]. *)
Definition unmanagedWalkFn (absSlashDestDir : string) (sourceState : SourceState)
    (path : string) (info : option FileInfo) (err : option error) (sb : string)
    : option error * string :=
  match err with
  | Some e => (Some e, sb)
  | None =>
      if String.eqb path absSlashDestDir then (None, sb)
      else
        match MustTrimDirPrefix path absSlashDestDir with
        | Err e => (Some e, sb)
        | Ok targetName =>
            let managed := bool_decide (is_Some (Entry sourceState targetName)) in
            let ignored := Ignored sourceState targetName in
            let sb :=
              if negb managed && negb ignored
              then (sb ++ targetName ++ KeePassXC.newline)%string else sb in
            if vfs.IsDir info && (negb managed || ignored) then (Some SkipDir, sb)
            else (None, sb)
        end
  end.

Section Commands.

(** [Config.writeOutputString], on whatever the output goes to. *)
Context {Out : Type}.
Variable writeOutputString : string -> Out -> option error * Out.

(** [runUnmanagedCmd] over the destination tree found at [absSlashDestDir]. *)
Definition runUnmanagedCmd (absSlashDestDir : string) (dest : vfs.Tree)
    (sourceState : SourceState) (out : Out) : option error * Out :=
  match vfs.WalkSlash (unmanagedWalkFn absSlashDestDir sourceState)
          absSlashDestDir dest EmptyString with
  | (Some err, _, _) => (Some err, out)
  | (None, sb, _) => writeOutputString sb out
  end.

(** The positions [runUnmanagedCmd]'s walk visits. *)
Definition unmanagedVisited (absSlashDestDir : string) (dest : vfs.Tree)
    (sourceState : SourceState) : list (list string) :=
  snd (vfs.WalkSlash (unmanagedWalkFn absSlashDestDir sourceState)
         absSlashDestDir dest EmptyString).

End Commands.

(** *** The verify command *)

Section Verify.

(** The dry-run system wrapped around the destination system, and
    [Config.applyArgs] run against it. *)
Context {DestSystem DryRunSystem : Type}.
Variable NewDryRunSystem : DestSystem -> DryRunSystem.
Variable Modified : DryRunSystem -> bool.
Variable applyArgs : DryRunSystem -> list string -> option error * DryRunSystem.

Definition runVerifyCmd (destSystem : DestSystem) (args : list string) : option error :=
  let dryRunSystem := NewDryRunSystem destSystem in
  match applyArgs dryRunSystem args with
  | (Some err, _) => Some err
  | (None, dryRunSystem') =>
      if Modified dryRunSystem' then Some (ErrExitCode 1) else None
  end.

(** Modelled from the spec: the exit code of the process for what a command
    returned: zero for no error, the code of an [ErrExitCode], and a failure
    for any other error. *)
Definition exitCode (err : option error) : Z :=
  match err with
  | None => 0
  | Some (ErrExitCode code) => code
  | Some _ => 1
  end.

End Verify.

End Cmd.

(** ** Modes and the umask (package chezmoi, unix helpers) *)

(** [os.ModeDir], [os.ModeSymlink] and [os.ModePerm]. *)
Definition ModeDir : FileMode := (2 ^ 31)%Z.
Definition ModeSymlink : FileMode := (2 ^ 27)%Z.
Definition ModePerm : FileMode := 511%Z.

(** [FileMode.Perm]. *)
Definition Perm (m : FileMode) : FileMode := Z.land m ModePerm.

(** [isExecutable] and [isPrivate], on [info.Mode()]; 0o111 is 73 and 0o77
    is 63. *)
Definition isExecutable (mode : FileMode) : bool :=
  negb (Z.land (Perm mode) 73 =? 0)%Z.

Definition isPrivate (mode : FileMode) : bool :=
  (Z.land (Perm mode) 63 =? 0)%Z.

Module Umask.

(** The package variable [umask] and the umask the kernel keeps for the
    process. *)
Record State : Type := { var_umask : FileMode; process_umask : Z }.

(** [syscall.Umask]: sets the file mode creation mask to the permission bits
    of [mask] and returns the mask it replaces. *)
Definition syscall_Umask (mask : Z) (st : State) : Z * State :=
  (process_umask st, {| var_umask := var_umask st; process_umask := Z.land mask 511 |}).

(** [init]: the umask is read by setting it to zero, and set back. *)
Definition init (st : State) : State :=
  let (old, st1) := syscall_Umask 0 st in
  let st2 := {| var_umask := old; process_umask := process_umask st1 |} in
  snd (syscall_Umask (var_umask st2) st2).

Definition GetUmask (st : State) : FileMode := var_umask st.

Definition SetUmask (newUmask : FileMode) (st : State) : State :=
  let st1 := {| var_umask := newUmask; process_umask := process_umask st |} in
  snd (syscall_Umask (var_umask st1) st1).

End Umask.

(** ** Entry states and evaluation (targetstateentry.go) *)

(** An [EntryState]; a [ContentsSHA256] that is nil is the empty slice, as
    [bytes.Equal] takes it. *)
Record EntryState : Type := { es_Mode : FileMode; es_ContentsSHA256 : bytes }.

Definition EntryState_Equal (es other : EntryState) : bool :=
  (es_Mode es =? es_Mode other)%Z &&
  bool_decide (es_ContentsSHA256 es = es_ContentsSHA256 other).

(** Modelled from the spec: [lazyLinkname.LinknameSHA256], the SHA-256 of the
    link target string. *)
Definition LinknameSHA256 (ll : lazyLinkname) : result bytes :=
  match ll with
  | Ok linkname => Ok (sha256Sum (list_ascii_of_string linkname))
  | Err e => Err e
  end.

(** [EntryState] of every variant: a nil entry state is [None]. *)
Definition TargetStateAbsent_EntryState : result (option EntryState) := Ok None.

Definition TargetStateDir_EntryState (t : TargetStateDir) : result (option EntryState) :=
  Ok (Some {| es_Mode := Z.lor ModeDir (tsd_perm t); es_ContentsSHA256 := [] |}).

Definition TargetStateFile_EntryState (t : TargetStateFile) : result (option EntryState) :=
  match ContentsSHA256 (tsf_contents t) with
  | Err err => Err err
  | Ok contentsSHA256 =>
      Ok (Some {| es_Mode := tsf_perm t; es_ContentsSHA256 := contentsSHA256 |})
  end.

Definition TargetStatePresent_EntryState (t : TargetStatePresent) : result (option EntryState) :=
  Ok None.

Definition TargetStateRenameDir_EntryState (t : TargetStateRenameDir)
    : result (option EntryState) := Ok None.

Definition TargetStateScript_EntryState (t : TargetStateScript) : result (option EntryState) :=
  Ok None.

Definition TargetStateSymlink_EntryState (t : TargetStateSymlink) : result (option EntryState) :=
  match LinknameSHA256 (tsl_linkname t) with
  | Err err => Err err
  | Ok linknameSHA256 =>
      Ok (Some {| es_Mode := ModeSymlink; es_ContentsSHA256 := linknameSHA256 |})
  end.

Definition TargetEntryState (t : TargetStateEntry) : result (option EntryState) :=
  match t with
  | Absent => TargetStateAbsent_EntryState
  | Dir t => TargetStateDir_EntryState t
  | File t => TargetStateFile_EntryState t
  | Present t => TargetStatePresent_EntryState t
  | RenameDir t => TargetStateRenameDir_EntryState t
  | Script t => TargetStateScript_EntryState t
  | Symlink t => TargetStateSymlink_EntryState t
  end.

(** [Evaluate] of every variant. *)
Definition TargetStateAbsent_Evaluate : option error := None.
Definition TargetStateDir_Evaluate (t : TargetStateDir) : option error := None.
Definition TargetStateFile_Evaluate (t : TargetStateFile) : option error :=
  errorOf (ContentsSHA256 (tsf_contents t)).
Definition TargetStatePresent_Evaluate (t : TargetStatePresent) : option error :=
  errorOf (ContentsSHA256 (tsp_contents t)).
Definition TargetStateRenameDir_Evaluate (t : TargetStateRenameDir) : option error := None.
Definition TargetStateScript_Evaluate (t : TargetStateScript) : option error :=
  errorOf (ContentsSHA256 (tss_contents t)).
Definition TargetStateSymlink_Evaluate (t : TargetStateSymlink) : option error :=
  errorOf (Linkname (tsl_linkname t)).

Definition Evaluate (t : TargetStateEntry) : option error :=
  match t with
  | Absent => TargetStateAbsent_Evaluate
  | Dir t => TargetStateDir_Evaluate t
  | File t => TargetStateFile_Evaluate t
  | Present t => TargetStatePresent_Evaluate t
  | RenameDir t => TargetStateRenameDir_Evaluate t
  | Script t => TargetStateScript_Evaluate t
  | Symlink t => TargetStateSymlink_Evaluate t
  end.

(** ** The keepassxc template functions (package cmd) *)

Module Template.

(** A [semver.Version]. *)
Record Version : Type := {
  Major : Z;
  Minor : Z;
  Patch : Z;
  PreRelease : string;
  Metadata : string
}.

Definition keePassXCNeedShowProtectedArgVersion : Version :=
  {| Major := 2; Minor := 5; Patch := 1; PreRelease := ""; Metadata := "" |}.

Record keePassXCCmdConfig : Type := {
  Command : string;
  Database : string;
  Args : list string
}.

(** The package variables, with the process that holds
    [keePassXCPassword]. *)
Record Globals : Type := {
  keePassXCVersion : option Version;
  keePassXCCache : gmap string (gmap string string);
  keePassXCAttributeCache : gmap (string * string) string;
  process : KeePassXC.Process
}.

Definition withProcess (g : Globals) (p : KeePassXC.Process) : Globals :=
  {| keePassXCVersion := keePassXCVersion g;
     keePassXCCache := keePassXCCache g;
     keePassXCAttributeCache := keePassXCAttributeCache g;
     process := p |}.

Definition databaseNotSet : error := Panic "keepassxc.database not set".

(** A panic with an error of the tool or of parsing; the message, which
    names the command and its arguments, is not kept. *)
Definition commandFailed (err : error) : error := Panic "keepassxc command failed".

Section Functions.

Variable term_ReadPassword : KeePassXC.Stdin -> (bytes * option error) * KeePassXC.Stdin.
Variable IdempotentCmdOutput : KeePassXC.Cmd -> result bytes.

(** [semver.NewVersion], [Version.Compare], [bytes.TrimSpace] and
    [strings.TrimSpace] of the libraries. *)
Variable semver_NewVersion : string -> result Version.
Variable Compare : Version -> Version -> Z.
Variable bytes_TrimSpace : bytes -> bytes.
Variable strings_TrimSpace : string -> string.

(** [exec.Command(name, "--version")] has no standard input. *)
Definition getKeePassXCVersion (c : keePassXCCmdConfig) (g : Globals)
    : result Version * Globals :=
  match keePassXCVersion g with
  | Some v => (Ok v, g)
  | None =>
      let name := Command c in
      let args := ["--version"%string] in
      match IdempotentCmdOutput
              {| KeePassXC.cmd_name := name; KeePassXC.cmd_args := args;
                 KeePassXC.cmd_Stdin := "" |} with
      | Err err => (Err (commandFailed err), g)
      | Ok output =>
          match semver_NewVersion (string_of_list_ascii (bytes_TrimSpace output)) with
          | Err err => (Err (commandFailed err), g)
          | Ok v =>
              (Ok v, {| keePassXCVersion := Some v;
                        keePassXCCache := keePassXCCache g;
                        keePassXCAttributeCache := keePassXCAttributeCache g;
                        process := process g |})
          end
      end
  end.

(** The arguments after the subcommand and its own flags. *)
Definition showArgs (c : keePassXCCmdConfig) (args : list string) (v : Version)
    (entry : string) : list string :=
  let args :=
    if (0 <=? Compare v keePassXCNeedShowProtectedArgVersion)%Z
    then args ++ ["--show-protected"%string] else args in
  let args := args ++ Args c in
  args ++ [Database c; entry].

Definition runCLI (c : keePassXCCmdConfig) (name : string) (args : list string) (g : Globals)
    : result bytes * Globals :=
  let (output, p) :=
    KeePassXC.runKeePassXCCLICommand term_ReadPassword IdempotentCmdOutput
      {| KeePassXC.KeePassXC_Database := Database c |} name args (process g) in
  (output, withProcess g p).

Definition keePassXCFunc (c : keePassXCCmdConfig) (entry : string) (g : Globals)
    : result (gmap string string) * Globals :=
  match keePassXCCache g !! entry with
  | Some data => (Ok data, g)
  | None =>
      if String.eqb (Database c) "" then (Err databaseNotSet, g)
      else
        let name := Command c in
        match getKeePassXCVersion c g with
        | (Err e, g1) => (Err e, g1)
        | (Ok v, g1) =>
            let args := showArgs c ["show"%string] v entry in
            match runCLI c name args g1 with
            | (Err err, g2) => (Err (commandFailed err), g2)
            | (Ok output, g2) =>
                match KeePassXC.parseKeyPassXCOutput output with
                | (_, Some err) => (Err (commandFailed err), g2)
                | (data, None) =>
                    let data := default ∅ data in
                    (Ok data,
                     {| keePassXCVersion := keePassXCVersion g2;
                        keePassXCCache := <[entry := data]> (keePassXCCache g2);
                        keePassXCAttributeCache := keePassXCAttributeCache g2;
                        process := process g2 |})
                end
            end
        end
  end.

Definition keePassXCAttributeFunc (c : keePassXCCmdConfig) (entry attribute : string)
    (g : Globals) : result string * Globals :=
  let key := (entry, attribute) in
  match keePassXCAttributeCache g !! key with
  | Some data => (Ok data, g)
  | None =>
      if String.eqb (Database c) "" then (Err databaseNotSet, g)
      else
        let name := Command c in
        match getKeePassXCVersion c g with
        | (Err e, g1) => (Err e, g1)
        | (Ok v, g1) =>
            let args :=
              showArgs c ["show"; "--attributes"; attribute; "--quiet"]%string v entry in
            match runCLI c name args g1 with
            | (Err err, g2) => (Err (commandFailed err), g2)
            | (Ok output, g2) =>
                let outputStr := strings_TrimSpace (string_of_list_ascii output) in
                (Ok outputStr,
                 {| keePassXCVersion := keePassXCVersion g2;
                    keePassXCCache := keePassXCCache g2;
                    keePassXCAttributeCache := <[key := outputStr]> (keePassXCAttributeCache g2);
                    process := process g2 |})
            end
        end
  end.

End Functions.

End Template.

(** * Specification-level definitions

    The notions the properties below are stated with. *)

(** ** readPassword: the bytes before the first line feed, a stream with its
    carriage returns removed, and what the specification says [readPassword]
    returns for a byte stream. *)
Fixpoint beforeLF (stream : bytes) : bytes :=
  match stream with
  | [] => []
  | b :: rest => if Ascii.eqb b LF then [] else b :: beforeLF rest
  end.

Definition withoutCR (stream : bytes) : bytes :=
  List.filter (fun b => negb (Ascii.eqb b CR)) stream.

Definition hasLineFeed (stream : bytes) : bool := existsb (Ascii.eqb LF) stream.

Definition passwordOf (stream : bytes) : bytes * option error :=
  let pw := withoutCR (beforeLF stream) in
  if 1024 <? length pw then (take 1025 pw, Some ErrPasswordTooLong)
  else if hasLineFeed stream then (pw, None)
  else if 0 <? length pw then (pw, None)
  else (pw, Some EOF).

(** ** runKeePassXCCLICommand: a command that returns what it is piped, a
    terminal reader that is never called, and a process reading from a
    pipe. *)
Definition echoStdin (cmd : KeePassXC.Cmd) : result bytes :=
  Ok (list_ascii_of_string (KeePassXC.cmd_Stdin cmd)).

Definition noTerminal (i : KeePassXC.Stdin) : (bytes * option error) * KeePassXC.Stdin :=
  (([], Some EOF), i).

Definition onPipe (stream : bytes) : KeePassXC.Process :=
  {| KeePassXC.keePassXCPassword := "";
     KeePassXC.stdin := KeePassXC.pipe stream;
     KeePassXC.stdout := "" |}.

(** ** parseKeyPassXCOutput *)

(** A line without its line feed that fits the scanner's buffer. *)
Definition shortLine (l : bytes) : Prop :=
  ~ In LF l /\ (Z.of_nat (length l) < bufio.MaxScanTokenSize)%Z.

Definition hasColon (s : string) : bool :=
  existsb (Ascii.eqb colon) (list_ascii_of_string s).

Definition isBlank (s : string) : bool := forallb isSpace (list_ascii_of_string s).

Definition insertPair (data : gmap string string) (kv : string * string) : gmap string string :=
  <[fst kv := snd kv]> data.

(** ** Calls on the backend *)

Definition ranScript (calls : list SysCall) : bool := existsb isRunScript calls.

(** The bucket and key of a call on the persistent state. *)
Definition persistentKey (c : SysCall) : option (bytes * bytes) :=
  match c with
  | CallGet bucket key => Some (bucket, key)
  | CallSet bucket key _ => Some (bucket, key)
  | _ => None
  end.


(** ** The unmanaged listing *)

(** A directory, a slash and a name. *)
Definition below (dir name : string) : string := (dir ++ "/" ++ name)%string.

(** Positions below the root, and their paths. *)
Definition pathOf (root : string) (at_ : list string) : string := fold_left below at_ root.

Definition relPath (at_ : list string) : string :=
  match at_ with
  | [] => EmptyString
  | name :: rest => fold_left below rest name
  end.

(** The name of a directory entry: not empty, without a slash, and neither
    a dot nor a dot-dot. *)
Definition hasSlash (name : string) : bool :=
  existsb (Ascii.eqb "/") (list_ascii_of_string name).

Definition plainName (name : string) : bool :=
  negb (String.eqb name "") && negb (hasSlash name) &&
  negb (String.eqb name ".") && negb (String.eqb name "..").

(** A tree all of whose entries have such names, as every tree read from a
    file system has. *)
Fixpoint plainNames (t : vfs.Tree) : bool :=
  match t with
  | vfs.TDir entries => forallb (fun nc => plainName (fst nc) && plainNames (snd nc)) entries
  | _ => true
  end.

(** A clean absolute path other than the root directory. *)
Definition cleanAbs (dir : string) : Prop :=
  filepath.rooted dir = true /\ filepath.Clean dir = dir /\ dir <> "/"%string.

(** [At t at_ t']: [t'] is what the tree [t] holds at the position [at_]. *)
Inductive At : vfs.Tree -> list string -> vfs.Tree -> Prop :=
| At_here t : At t [] t
| At_below entries name child at_ t' :
    In (name, child) entries -> At child at_ t' -> At (vfs.TDir entries) (name :: at_) t'.

Section UnmanagedSpec.

Variable sourceState : Cmd.SourceState.

Definition managed (targetName : string) : bool :=
  bool_decide (is_Some (Cmd.Entry sourceState targetName)).

(** A path is listed when it is neither managed nor ignored; the walk goes
    below a directory that is managed and not ignored. *)
Definition listed (targetName : string) : bool :=
  negb (managed targetName) && negb (Cmd.Ignored sourceState targetName).

Definition descends (targetName : string) : bool :=
  managed targetName && negb (Cmd.Ignored sourceState targetName).

Definition listedAt (at_ : list string) : bool :=
  match at_ with
  | [] => false
  | _ => listed (relPath at_)
  end.

Definition descendsAt (at_ : list string) : bool :=
  match at_ with
  | [] => true
  | _ => descends (relPath at_)
  end.


Definition line (at_ : list string) : string := (relPath at_ ++ KeePassXC.newline)%string.

Definition lines (visited : list (list string)) : string :=
  fold_right String.append EmptyString (map line (List.filter listedAt visited)).

End UnmanagedSpec.

Section Walked.

Variable sourceState : Cmd.SourceState.

(** The positions the unmanaged listing walks, in the words of the spec:
    every position is walked together with the entries of each directory
    that is the root or is managed and not ignored. *)
Fixpoint walked (at_ : list string) (t : vfs.Tree) : list (list string) :=
  at_ ::
  match t with
  | vfs.TDir entries =>
      if descendsAt sourceState at_
      then flat_map (fun nc => walked (at_ ++ [fst nc]) (snd nc)) entries
      else []
  | _ => []
  end.

End Walked.

(** Scenario "unmanaged listing": the destination holds "managed" and the
    directory "extra"; the source state knows only "managed". *)
Definition onlyManaged : Cmd.SourceState :=
  {| Cmd.Entry := fun name => if String.eqb name "managed" then Some Absent else None;
     Cmd.Ignored := fun _ => false |}.

Definition printTo (text : string) (out : string) : option error * string :=
  (None, (out ++ text)%string).

(** ** verify *)

(** An apply pass for the verify command: every argument is the name of a
    regular file with contents "c" wanted below "/home/user". *)
Fixpoint applyFiles (dryRunSystem : DryRun.State Mem.State) (args : list string)
    : option error * DryRun.State Mem.State :=
  match args with
  | [] => (None, dryRunSystem)
  | arg :: rest =>
      let s := DryRun.system (Mem.system 18%Z) in
      let path := Mem.join "/home/user" arg in
      match GetActualStateEntry s path dryRunSystem with
      | Err e => (Some e, dryRunSystem)
      | Ok actual =>
          let t := File {| tsf_contents := Ok (list_ascii_of_string "c"); tsf_perm := 420%Z |} in
          match Apply s Mem.dir Mem.join Mem.marshal t actual 18%Z
                  (Build_World dryRunSystem [] 0%Z) with
          | (Err e, w) => (Some e, w_sys w)
          | (Ok _, w) => applyFiles (w_sys w) rest
          end
      end
  end.

Definition newDryRun (dest : Mem.State) : DryRun.State Mem.State :=
  DryRun.Build_State dest false.

(** ** Run-once scripts *)

(** Scenario "script once": the first pass runs the script and records it
    under the hexadecimal SHA-256 of its contents, the second pass does not
    run it, and changed contents run once more. *)
Definition setupScript (contents : string) : TargetStateScript * ActualStateEntry :=
  ({| tss_contents := Ok (list_ascii_of_string contents ++ [LF]); name := "setup"; once := true |},
   ActualStateAbsent "/home/user/setup").

(** ** Calls between two worlds, and kinds of entries *)

(** The calls made on the backend from one world to a later one. *)
Definition callsBetween {St : Type} (w w' : World St) : list SysCall :=
  drop (length (w_trace w)) (w_trace w').

(** The path a call on the file system changes; a rename, a script run and
    the calls on the persistent state have none. *)
Definition callTarget (c : SysCall) : option string :=
  match c with
  | CallChmod name _ => Some name
  | CallMkdir name _ => Some name
  | CallRemoveAll name => Some name
  | CallWriteFile filename _ _ => Some filename
  | CallWriteSymlink _ newname => Some newname
  | _ => None
  end.

(** The kind of entry found, and the kind a target asks for. *)
Definition kindOf (a : ActualStateEntry) : option FileKind :=
  match a with
  | ActualStateAbsent _ => None
  | ActualStateDir _ _ => Some KindDir
  | ActualStateFile _ _ _ => Some KindRegular
  | ActualStateSymlink _ _ => Some KindSymlink
  end.

Definition wantedKind (t : TargetStateEntry) : option FileKind :=
  match t with
  | Dir _ => Some KindDir
  | File _ | Present _ => Some KindRegular
  | Symlink _ => Some KindSymlink
  | _ => None
  end.

(** What a password read so far holds: neither a carriage return nor a line
    feed. *)
Definition noLineEnd (pw : bytes) : Prop := Forall (fun b => b <> CR /\ b <> LF) pw.

(** ** The template functions against a tool that answers from a table *)

(** White space trimmed at both ends, for ASCII white space. *)
Fixpoint trimLeft (data : bytes) : bytes :=
  match data with
  | b :: rest => if isSpace b then trimLeft rest else data
  | [] => []
  end.

Definition asciiTrimSpace (data : bytes) : bytes :=
  rev (trimLeft (rev (trimLeft data))).

(** Versions compared by major, minor and patch number. *)
Definition compareVersions (a b : Template.Version) : Z :=
  match (Template.Major a ?= Template.Major b)%Z with
  | Lt => (-1)%Z
  | Gt => 1%Z
  | Eq =>
      match (Template.Minor a ?= Template.Minor b)%Z with
      | Lt => (-1)%Z
      | Gt => 1%Z
      | Eq =>
          match (Template.Patch a ?= Template.Patch b)%Z with
          | Lt => (-1)%Z
          | Gt => 1%Z
          | Eq => 0%Z
          end
      end
  end.

(** A tool of version 2.6.0 that shows one entry for every request. *)
Definition parseVersion (text : string) : result Template.Version :=
  if String.eqb text "2.6.0"
  then Ok {| Template.Major := 2; Template.Minor := 6; Template.Patch := 0;
             Template.PreRelease := ""; Template.Metadata := "" |}
  else Err (ErrBackend "invalid version").

Definition sampleTool (cmd : KeePassXC.Cmd) : result bytes :=
  match KeePassXC.cmd_args cmd with
  | ["--version"%string] => Ok (list_ascii_of_string "2.6.0" ++ [LF])
  | "show"%string :: "--attributes"%string :: _ => Ok (list_ascii_of_string "joe" ++ [LF])
  | _ =>
      Ok (list_ascii_of_string "Title: mail" ++ [LF] ++
          list_ascii_of_string "UserName: joe" ++ [LF])
  end.

Definition sampleConfig : Template.keePassXCCmdConfig :=
  {| Template.Command := "keepassxc-cli"; Template.Database := "db.kdbx"; Template.Args := [] |}.

Definition freshGlobals (stream : bytes) : Template.Globals :=
  {| Template.keePassXCVersion := None;
     Template.keePassXCCache := ∅;
     Template.keePassXCAttributeCache := ∅;
     Template.process := onPipe stream |}.

Definition sampleFunc : Template.keePassXCCmdConfig -> string -> Template.Globals ->
    result (gmap string string) * Template.Globals :=
  Template.keePassXCFunc noTerminal sampleTool parseVersion compareVersions asciiTrimSpace.

Definition sampleAttributeFunc : Template.keePassXCCmdConfig -> string -> string ->
    Template.Globals -> result string * Template.Globals :=
  Template.keePassXCAttributeFunc noTerminal sampleTool parseVersion compareVersions
    asciiTrimSpace (fun s => string_of_list_ascii (asciiTrimSpace (list_ascii_of_string s))).

(** Two states of the package variables that differ at most in the version. *)
Definition sameButVersion (g g' : Template.Globals) : Prop :=
  Template.keePassXCCache g' = Template.keePassXCCache g /\
  Template.keePassXCAttributeCache g' = Template.keePassXCAttributeCache g /\
  Template.process g' = Template.process g.

(** The line of a field: its name, a colon, a space and its value. *)
Definition pairLine (k v : string) : string := (k ++ ": " ++ v)%string.

(** ** Failures met by the unmanaged listing *)

Section Failures.

Variable sourceState : Cmd.SourceState.

(** The first failure among the positions the unmanaged listing walks, in
    the order walked. *)
Fixpoint failureOf (at_ : list string) (t : vfs.Tree) : option error :=
  match t with
  | vfs.TFailure err => Some err
  | vfs.TDir entries =>
      if descendsAt sourceState at_
      then fold_right
             (fun nc later =>
                match failureOf (at_ ++ [fst nc]) (snd nc) with
                | Some err => Some err
                | None => later
                end) None entries
      else None
  | _ => None
  end.

End Failures.

(** * Properties *)

(** ** SHA-256 and hexadecimal encoding on known digests *)

Example sha256_of_empty :
  Hex.EncodeToString (sha256Sum []) =
  "e3b0c44298fc1c149afbf4c8996fb92427ae41e4649b934ca495991b7852b855"%string.
Proof. vm_compute. reflexivity. Qed.

Example sha256_of_abc :
  Hex.EncodeToString (sha256Sum (list_ascii_of_string "abc")) =
  "ba7816bf8f01cfea414140de5dae2223b00361a396177a9cb410ff61f20015ad"%string.
Proof. vm_compute. reflexivity. Qed.

(** Two blocks, and four. *)
Example sha256_of_56_bytes :
  Hex.EncodeToString
    (sha256Sum (list_ascii_of_string
       "abcdbcdecdefdefgefghfghighijhijkijkljklmklmnlmnomnopnopq")) =
  "248d6a61d20638b8e5c026930c3e6039a33ce45964ff2167f6ecedd419db06c1"%string.
Proof. vm_compute. reflexivity. Qed.

Example sha256_of_200_bytes :
  Hex.EncodeToString (sha256Sum (repeat "a"%char 200)) =
  "c2a908d98f5df987ade41b5fce213067efbcc21ef2240212a41e54b5e7c28ae5"%string.
Proof. vm_compute. reflexivity. Qed.

Example K_has_64_words : length SHA256.K = 64 /\ nth 0 SHA256.K 0%Z = 0x428a2f98%Z
  /\ nth 63 SHA256.K 0%Z = 0xc67178f2%Z /\ nth 0 SHA256.H0 0%Z = 0x6a09e667%Z.
Proof. repeat split; reflexivity. Qed.

(** ** Permissions *)

Lemma ldiff_ldiff (p u : Z) : Z.ldiff (Z.ldiff p u) u = Z.ldiff p u.
Proof.
  apply Z.bits_inj'. intros n Hn.
  rewrite !Z.ldiff_spec. destruct (Z.testbit p n), (Z.testbit u n); reflexivity.
Qed.

Lemma umaskPermEqual_masked (perm umask : FileMode) :
  umaskPermEqual (Z.ldiff perm umask) perm umask = true.
Proof. unfold umaskPermEqual. rewrite ldiff_ldiff. apply Z.eqb_refl. Qed.

Lemma umaskPermEqual_refl (perm umask : FileMode) : umaskPermEqual perm perm umask = true.
Proof. unfold umaskPermEqual. apply Z.eqb_refl. Qed.

(** C8. Permission equality under a umask is reflexive for every permission
    and every umask, and under the zero umask it is equality of the
    permissions. *)
Theorem umaskPermEqual_reflexive_and_exact (p u p1 p2 : FileMode) :
  umaskPermEqual p p u = true /\
  (umaskPermEqual p1 p2 0%Z = true <-> p1 = p2).
Proof.
  split; [apply umaskPermEqual_refl|].
  unfold umaskPermEqual. rewrite !Z.ldiff_0_r. apply Z.eqb_eq.
Qed.

(** Octal 0600 and 0644 differ under the umask 022; 0644 and 0666 do not. *)
Example umaskPermEqual_0600_0644_umask_022 :
  umaskPermEqual 384%Z 420%Z 18%Z = false /\ umaskPermEqual 420%Z 438%Z 18%Z = true.
Proof. split; reflexivity. Qed.

(** ** verify *)

(** C7. When the apply pass against the dry-run system succeeds, verify
    returns no error (exit code zero) if the dry-run system reports no
    modification, and [ErrExitCode 1] (exit code one) if it reports one. *)
Theorem runVerifyCmd_exit_code {DestSystem DryRunSystem : Type}
    (NewDryRunSystem : DestSystem -> DryRunSystem) (Modified : DryRunSystem -> bool)
    (applyArgs : DryRunSystem -> list string -> option error * DryRunSystem)
    (destSystem : DestSystem) (args : list string) (after : DryRunSystem) :
  applyArgs (NewDryRunSystem destSystem) args = (None, after) ->
  let err := Cmd.runVerifyCmd NewDryRunSystem Modified applyArgs destSystem args in
  (Modified after = false -> err = None /\ Cmd.exitCode err = 0%Z) /\
  (Modified after = true -> err = Some (ErrExitCode 1) /\ Cmd.exitCode err = 1%Z).
Proof.
  intros Happly err. subst err. unfold Cmd.runVerifyCmd. rewrite Happly.
  split; intros ->; split; reflexivity.
Qed.

(** Scenario "dry-run verify": the destination has "b" and misses "c";
    verifying "c" exits with code 1, verifying "b" with code 0. *)
Lemma runVerifyCmd_exit_code_witness :
  let dest := w_sys (Mem.world [("/home/user/b"%string, Mem.NFile 420%Z (list_ascii_of_string "c"))] []) in
  Cmd.exitCode (Cmd.runVerifyCmd newDryRun DryRun.modified applyFiles dest ["c"%string]) = 1%Z /\
  Cmd.exitCode (Cmd.runVerifyCmd newDryRun DryRun.modified applyFiles dest ["b"%string]) = 0%Z.
Proof.
  intros dest. split.
  - apply (runVerifyCmd_exit_code newDryRun DryRun.modified applyFiles dest ["c"%string]
             (snd (applyFiles (newDryRun dest) ["c"%string]))).
    + vm_compute. reflexivity.
    + vm_compute. reflexivity.
  - apply (runVerifyCmd_exit_code newDryRun DryRun.modified applyFiles dest ["b"%string]
             (snd (applyFiles (newDryRun dest) ["b"%string]))).
    + vm_compute. reflexivity.
    + vm_compute. reflexivity.
Defined.

(** ** Symlink equality *)

(** C10. [TargetStateSymlink.Equal] returns the error of reading the actual
    link target, but answers [(false, nil)] when the target's own link name
    fails to evaluate, which is also its answer for a link name that differs
    from the actual one. *)
Theorem TargetStateSymlink_Equal_swallows_target_error
    (t : TargetStateSymlink) (path : string) (umask : FileMode)
    (e : error) (actualLinkname linkname : string) :
  TargetStateSymlink_Equal t (ActualStateSymlink path (Err e)) umask = (false, Some e) /\
  TargetStateSymlink_Equal {| tsl_linkname := Err e |}
    (ActualStateSymlink path (Ok actualLinkname)) umask = (false, None) /\
  (actualLinkname <> linkname ->
   TargetStateSymlink_Equal {| tsl_linkname := Ok linkname |}
     (ActualStateSymlink path (Ok actualLinkname)) umask = (false, None)).
Proof.
  repeat split.
  intros Hne. unfold TargetStateSymlink_Equal, Linkname. simpl.
  rewrite bool_decide_eq_false_2 by exact Hne. reflexivity.
Qed.

(** ** readPassword *)

Lemma readStep_atEOF (pw : bytes) :
  KeePassXC.readStep pw KeePassXC.atEOF =
  inl (pw, if 0 <? length pw then None else Some EOF).
Proof.
  unfold KeePassXC.readStep, KeePassXC.atEOF.
  cbn [KeePassXC.rr_n KeePassXC.rr_byte KeePassXC.rr_err].
  change (0 <? 0) with false. cbn [andb is_EOF].
  destruct (0 <? length pw); reflexivity.
Qed.

Lemma readStep_byte (pw : bytes) (b : ascii) :
  KeePassXC.readStep pw {| KeePassXC.rr_n := 1; KeePassXC.rr_byte := b; KeePassXC.rr_err := None |} =
  if Ascii.eqb b CR then inr pw
  else if Ascii.eqb b LF then inl (pw, None)
  else if 1024 <? length (pw ++ [b]) then inl (pw ++ [b], Some ErrPasswordTooLong)
  else inr (pw ++ [b]).
Proof.
  unfold KeePassXC.readStep.
  cbn [KeePassXC.rr_n KeePassXC.rr_byte KeePassXC.rr_err].
  change (0 <? 1) with true. cbn [andb].
  destruct (Ascii.eqb b CR); cbn [negb]; [reflexivity|].
  destruct (Ascii.eqb b LF); [reflexivity|].
  destruct (1024 <? length (pw ++ [b])); reflexivity.
Qed.

Lemma readLoop_pipe (stream acc : bytes) :
  length acc <= 1024 ->
  fst (KeePassXC.readLoop acc (KeePassXC.reads (KeePassXC.pipe stream))) =
  let pw := acc ++ withoutCR (beforeLF stream) in
  if 1024 <? length pw then (take 1025 pw, Some ErrPasswordTooLong)
  else if hasLineFeed stream then (pw, None)
  else if 0 <? length pw then (pw, None)
  else (pw, Some EOF).
Proof.
  revert acc. induction stream as [|b rest IH]; intros acc Hacc;
    cbn [KeePassXC.pipe KeePassXC.reads map KeePassXC.readLoop].
  - rewrite readStep_atEOF. cbn [fst beforeLF withoutCR List.filter hasLineFeed existsb].
    cbn zeta. rewrite app_nil_r.
    destruct (1024 <? length acc) eqn:E; [apply Nat.ltb_lt in E; lia|].
    destruct (0 <? length acc); reflexivity.
  - rewrite readStep_byte. cbn [beforeLF hasLineFeed existsb]. cbn zeta.
    destruct (Ascii.eqb b CR) eqn:Ecr.
    + apply Ascii.eqb_eq in Ecr. subst b.
      change (Ascii.eqb CR LF) with false. change (Ascii.eqb LF CR) with false.
      cbn [orb withoutCR List.filter]. change (Ascii.eqb CR CR) with true. cbn [negb].
      exact (IH acc Hacc).
    + destruct (Ascii.eqb b LF) eqn:Elf.
      * apply Ascii.eqb_eq in Elf. subst b. rewrite Ascii.eqb_refl.
        cbn [orb withoutCR List.filter fst]. rewrite app_nil_r.
        destruct (1024 <? length acc) eqn:E; [apply Nat.ltb_lt in E; lia|]. reflexivity.
      * rewrite Ascii.eqb_sym in Elf. rewrite Elf. cbn [orb withoutCR List.filter].
        rewrite Ecr. cbn [negb].
        fold (withoutCR (beforeLF rest)).
        replace (acc ++ b :: withoutCR (beforeLF rest))
          with ((acc ++ [b]) ++ withoutCR (beforeLF rest))
          by (rewrite <- app_assoc; reflexivity).
        destruct (1024 <? length (acc ++ [b])) eqn:E.
        -- cbn [fst].
           apply Nat.ltb_lt in E. rewrite length_app in E. cbn [length] in E.
           replace (1024 <? length ((acc ++ [b]) ++ withoutCR (beforeLF rest))) with true
             by (symmetry; apply Nat.ltb_lt; rewrite !length_app; cbn [length]; lia).
           rewrite take_app_length' by (rewrite length_app; cbn [length]; lia). reflexivity.
        -- apply Nat.ltb_ge in E.
           exact (IH (acc ++ [b]) E).
Qed.

(** C5. On a standard input that is no terminal, [readPassword] returns the
    bytes before the first line feed with every carriage return removed; at
    the end of the input without a line feed it returns them only if there
    is at least one, and [io.EOF] otherwise (so for the empty stream); and
    when more than 1024 bytes would be kept it fails with "password too
    long". *)
Theorem readPassword_on_pipe
    (term_ReadPassword : KeePassXC.Stdin -> (bytes * option error) * KeePassXC.Stdin)
    (prompt cached out : string) (stream : bytes) :
  fst (KeePassXC.readPassword term_ReadPassword prompt
         {| KeePassXC.keePassXCPassword := cached;
            KeePassXC.stdin := KeePassXC.pipe stream;
            KeePassXC.stdout := out |})
  = passwordOf stream /\
  passwordOf [] = ([], Some EOF).
Proof.
  split; [|reflexivity].
  unfold KeePassXC.readPassword. cbn [KeePassXC.stdin KeePassXC.isTerminal KeePassXC.pipe].
  pose proof (readLoop_pipe stream [] ltac:(cbn [length]; lia)) as H.
  cbn [KeePassXC.pipe KeePassXC.reads app] in H. cbn zeta in H.
  destruct (KeePassXC.readLoop [] _) as [res rest] eqn:E. cbn [fst] in *.
  rewrite H. reflexivity.
Qed.

(** ** The cached password *)

Section Cached.
Variable term_ReadPassword : KeePassXC.Stdin -> (bytes * option error) * KeePassXC.Stdin.
Variable IdempotentCmdOutput : KeePassXC.Cmd -> result bytes.

Local Abbreviation run := (KeePassXC.runKeePassXCCLICommand term_ReadPassword IdempotentCmdOutput).

Definition pipedTo (password : string) (call : string * list string) : result bytes :=
  IdempotentCmdOutput
    {| KeePassXC.cmd_name := fst call; KeePassXC.cmd_args := snd call;
       KeePassXC.cmd_Stdin := (password ++ KeePassXC.newline)%string |}.

Lemma runKeePassXCCLICommand_cached (c : KeePassXC.Config) (name : string)
    (args : list string) (p : KeePassXC.Process) :
  KeePassXC.keePassXCPassword p <> ""%string ->
  run c name args p = (pipedTo (KeePassXC.keePassXCPassword p) (name, args), p).
Proof.
  intros Hne. unfold KeePassXC.runKeePassXCCLICommand.
  destruct (String.eqb_spec (KeePassXC.keePassXCPassword p) "") as [E|_]; [contradiction|].
  reflexivity.
Qed.

Lemma invocations_cached (c : KeePassXC.Config) (calls : list (string * list string))
    (p : KeePassXC.Process) :
  KeePassXC.keePassXCPassword p <> ""%string ->
  KeePassXC.invocations term_ReadPassword IdempotentCmdOutput c calls p =
  (map (pipedTo (KeePassXC.keePassXCPassword p)) calls, p).
Proof.
  intros Hne. induction calls as [|[name args] rest IH]; [reflexivity|].
  cbn [KeePassXC.invocations map].
  rewrite runKeePassXCCLICommand_cached by exact Hne. rewrite IH. reflexivity.
Qed.

Lemma string_of_list_ascii_nonempty (pw : bytes) :
  pw <> [] -> string_of_list_ascii pw <> ""%string.
Proof. destruct pw; [congruence|discriminate]. Qed.

(** C9. After the first invocation of the credential tool that reads a
    password with success, the password read not being empty, the password
    is cached: that invocation and every later one pipe it to the tool, and
    the later ones leave the process as it is, standard input included, so
    none of them reads a password. *)
Theorem keePassXCPassword_cached_when_not_empty
    (c : KeePassXC.Config) (name : string) (args : list string)
    (p read : KeePassXC.Process) (password : bytes) :
  KeePassXC.keePassXCPassword p = ""%string ->
  KeePassXC.readPassword term_ReadPassword
    ("Insert password to unlock " ++ KeePassXC.KeePassXC_Database c ++ ": ") p
    = ((password, None), read) ->
  password <> [] ->
  let cached := string_of_list_ascii password in
  let p' := snd (run c name args p) in
  fst (run c name args p) = pipedTo cached (name, args) /\
  KeePassXC.keePassXCPassword p' = cached /\
  forall later : list (string * list string),
    KeePassXC.invocations term_ReadPassword IdempotentCmdOutput c later p' =
    (map (pipedTo cached) later, p').
Proof.
  intros Hempty Hread Hne cached p'. subst p'.
  unfold KeePassXC.runKeePassXCCLICommand. rewrite Hempty. cbn [String.eqb].
  rewrite Hread. cbn [snd fst KeePassXC.exec].
  split; [reflexivity|]. split; [reflexivity|].
  intros later. rewrite invocations_cached; [reflexivity|].
  apply string_of_list_ascii_nonempty, Hne.
Qed.

End Cached.

(** A process whose standard input is a pipe holding two lines. *)
Lemma keePassXCPassword_cached_witness :
  let c := {| KeePassXC.KeePassXC_Database := "db.kdbx" |} in
  let p := onPipe (list_ascii_of_string "secret" ++ [LF] ++ list_ascii_of_string "other" ++ [LF]) in
  let p' := snd (KeePassXC.runKeePassXCCLICommand noTerminal echoStdin c "keepassxc-cli" ["show"%string] p) in
  KeePassXC.keePassXCPassword p' = "secret"%string /\
  KeePassXC.invocations noTerminal echoStdin c [("keepassxc-cli", ["show"]); ("keepassxc-cli", ["show"])]%string p'
  = ([Ok (list_ascii_of_string "secret" ++ [LF]); Ok (list_ascii_of_string "secret" ++ [LF])], p').
Proof.
  intros c p p'.
  pose proof (keePassXCPassword_cached_when_not_empty noTerminal echoStdin c
                "keepassxc-cli" ["show"%string] p
                (snd (KeePassXC.readPassword noTerminal
                        ("Insert password to unlock " ++ KeePassXC.KeePassXC_Database c ++ ": ") p))
                (list_ascii_of_string "secret") eq_refl eq_refl ltac:(discriminate)) as H.
  cbv zeta in H. destruct H as (_ & Hc & Hl). split; [exact Hc|]. exact (Hl _).
Defined.

(** An empty password read with success is not cached: the next invocation
    reads standard input again and pipes what it read. *)
Lemma empty_password_read_again :
  let c := {| KeePassXC.KeePassXC_Database := "db.kdbx" |} in
  let p := onPipe ([LF] ++ list_ascii_of_string "secret" ++ [LF]) in
  let first := KeePassXC.runKeePassXCCLICommand noTerminal echoStdin c "keepassxc-cli" ["show"%string] p in
  let second := KeePassXC.runKeePassXCCLICommand noTerminal echoStdin c "keepassxc-cli" ["show"%string] (snd first) in
  fst (KeePassXC.readPassword noTerminal "" p) = ([], None) /\
  fst first = Ok [LF] /\
  length (KeePassXC.reads (KeePassXC.stdin (snd first))) = 7 /\
  fst second = Ok (list_ascii_of_string "secret" ++ [LF]) /\
  length (KeePassXC.reads (KeePassXC.stdin (snd second))) = 0.
Proof. vm_compute. repeat split; reflexivity. Qed.

(** ** parseKeyPassXCOutput *)

Lemma scan_line (l acc rest : bytes) :
  ~ In LF l ->
  (Z.of_nat (length (acc ++ l)) < bufio.MaxScanTokenSize)%Z ->
  bufio.scan acc (l ++ LF :: rest) =
  (string_of_list_ascii (bufio.dropCR (acc ++ l)) :: fst (bufio.scan [] rest),
   snd (bufio.scan [] rest)).
Proof.
  revert acc. induction l as [|c l IH]; intros acc Hlf Hlen.
  - rewrite app_nil_r in *. cbn [app bufio.scan].
    destruct (Z.leb_spec bufio.MaxScanTokenSize (Z.of_nat (length acc))) as [H|_]; [lia|].
    rewrite Ascii.eqb_refl. destruct (bufio.scan [] rest). reflexivity.
  - cbn [app bufio.scan].
    destruct (Z.leb_spec bufio.MaxScanTokenSize (Z.of_nat (length acc))) as [H|_].
    { rewrite length_app in Hlen. lia. }
    destruct (Ascii.eqb_spec c LF) as [->|_]; [exfalso; apply Hlf; left; reflexivity|].
    rewrite IH.
    + rewrite <- app_assoc. reflexivity.
    + intros H. apply Hlf. right. exact H.
    + rewrite <- app_assoc. exact Hlen.
Qed.

(** The scanner on lines that each end in a line feed and are shorter than
    the buffer: every line is a token, without its line feed and without a
    carriage return before it. *)
Lemma ScanLines_lines (ls : list bytes) :
  Forall shortLine ls ->
  bufio.ScanLines (concat (map (fun l => l ++ [LF]) ls)) =
  (map (fun l => string_of_list_ascii (bufio.dropCR l)) ls, None).
Proof.
  unfold bufio.ScanLines. induction 1 as [|l ls [Hlf Hlen] _ IH]; [reflexivity|].
  cbn [map concat]. rewrite <- app_assoc. cbn [app].
  rewrite scan_line by assumption. rewrite IH. reflexivity.
Qed.

Example ScanLines_show_output :
  let CRLF := [CR; LF] in
  let output :=
    list_ascii_of_string "Title: example" ++ CRLF ++
    list_ascii_of_string "UserName: joe" ++ CRLF ++
    list_ascii_of_string "Password: p:w d" ++ [LF] ++
    list_ascii_of_string "URL: " in
  bufio.ScanLines output =
    (["Title: example"; "UserName: joe"; "Password: p:w d"; "URL: "]%string, None) /\
  KeePassXC.parseKeyPassXCOutput output =
    (Some (<["URL" := ""]> (<["Password" := "p:w d"]> (<["UserName" := "joe"]> ∅)))%string, None).
Proof. cbv zeta. split; vm_compute; reflexivity. Qed.

Lemma cutColon_app (k v : string) :
  hasColon k = false -> KeePassXC.cutColon (k ++ String colon v) = Some (k, v).
Proof.
  unfold hasColon. induction k as [|c k IH]; intros Hk.
  - reflexivity.
  - cbn [list_ascii_of_string existsb] in Hk. apply orb_false_iff in Hk as [Hc Hk].
    change (KeePassXC.cutColon (String c k ++ String colon v)) with
      (if Ascii.eqb c colon then Some (EmptyString, (k ++ String colon v)%string)
       else match KeePassXC.cutColon (k ++ String colon v) with
            | Some (k0, v0) => Some (String c k0, v0)
            | None => None
            end).
    rewrite Ascii.eqb_sym, Hc, (IH Hk). reflexivity.
Qed.

Lemma cutColon_inv (s k v : string) :
  KeePassXC.cutColon s = Some (k, v) ->
  s = (k ++ String colon v)%string /\ hasColon k = false.
Proof.
  unfold hasColon. revert k. induction s as [|c rest IH]; intros k; cbn [KeePassXC.cutColon];
    [discriminate|].
  destruct (Ascii.eqb c colon) eqn:E.
  - apply Ascii.eqb_eq in E. subst c. intros [= <- <-]. split; reflexivity.
  - destruct (KeePassXC.cutColon rest) as [[k0 v0]|]; [|discriminate].
    intros [= <- <-]. destruct (IH k0 eq_refl) as [-> Hk].
    split; [reflexivity|]. cbn [list_ascii_of_string existsb].
    rewrite Ascii.eqb_sym, E. exact Hk.
Qed.

(** The pair regexp in words: a text matches exactly when it is a field
    name, a colon, a space and a value, where the field name is not empty
    and holds no colon and the value holds no line feed. *)
Lemma FindStringSubmatch_spec (text k v : string) :
  KeePassXC.FindStringSubmatch text = Some (k, v) <->
  text = (k ++ String colon (String space v))%string /\
  k <> ""%string /\ hasColon k = false /\ KeePassXC.hasLF v = false.
Proof.
  unfold KeePassXC.FindStringSubmatch. split.
  - destruct (KeePassXC.cutColon text) as [[k0 v0]|] eqn:E; [|discriminate].
    destruct k0 as [|c k0]; [discriminate|]. destruct v0 as [|sp v0]; [discriminate|].
    destruct (Ascii.eqb sp space) eqn:Esp; [|discriminate].
    destruct (KeePassXC.hasLF v0) eqn:Elf; [discriminate|]. cbn [andb negb].
    intros [= <- <-]. apply Ascii.eqb_eq in Esp. subst sp.
    apply cutColon_inv in E as [-> Hk]. repeat split; try assumption. discriminate.
  - intros (-> & Hne & Hk & Hv).
    rewrite (cutColon_app k (String space v) Hk). destruct k as [|c k]; [congruence|].
    rewrite Ascii.eqb_refl, Hv. reflexivity.
Qed.

Lemma parseLoop_later (i : nat) (tokens : list string) (scanErr : option error)
    (data : gmap string string) :
  KeePassXC.parseLoop (S i) tokens scanErr data =
  match mapM KeePassXC.FindStringSubmatch tokens with
  | Some pairs => (Some (fold_left insertPair pairs data), scanErr)
  | None =>
      (None, ErrCannotParse <$>
               List.find (fun text => bool_decide (KeePassXC.FindStringSubmatch text = None)) tokens)
  end.
Proof.
  revert i data. induction tokens as [|text rest IH]; intros i data; [reflexivity|].
  cbn [KeePassXC.parseLoop Nat.eqb mapM List.find].
  destruct (KeePassXC.FindStringSubmatch text) as [[k v]|] eqn:E.
  - rewrite IH. cbn [mbind option_bind]. rewrite bool_decide_eq_false_2 by discriminate.
    destruct (mapM KeePassXC.FindStringSubmatch rest); reflexivity.
  - rewrite bool_decide_eq_true_2 by reflexivity. reflexivity.
Qed.

Lemma mapM_None_find (tokens : list string) :
  mapM KeePassXC.FindStringSubmatch tokens = None <->
  exists text, text ∈ tokens /\ KeePassXC.FindStringSubmatch text = None.
Proof.
  rewrite mapM_None. split.
  - intros H. apply Exists_exists in H as (x & Hx & Hn). eauto.
  - intros (x & Hx & Hn). apply Exists_exists. eauto.
Qed.

(** C4. Parsing the output of the credential tool's show subcommand ignores
    the first line and fails exactly when some later line, blank or not,
    does not match the pair regexp, or the line scanner fails; when every
    later line matches, each one is entered in the map under its field name,
    a later line replacing an earlier one of the same field name, and the
    error is the scanner's. *)
Theorem parseKeyPassXCOutput_fails_iff (output : bytes) :
  let later := drop 1 (fst (bufio.ScanLines output)) in
  let scanErr := snd (bufio.ScanLines output) in
  let data := fst (KeePassXC.parseKeyPassXCOutput output) in
  let err := snd (KeePassXC.parseKeyPassXCOutput output) in
  (err <> None <->
   (exists text, text ∈ later /\ KeePassXC.FindStringSubmatch text = None) \/ scanErr <> None) /\
  (forall pairs, mapM KeePassXC.FindStringSubmatch later = Some pairs ->
     data = Some (fold_left insertPair pairs ∅) /\ err = scanErr).
Proof.
  unfold KeePassXC.parseKeyPassXCOutput.
  destruct (bufio.ScanLines output) as [tokens scanErr]. cbn [fst snd].
  destruct tokens as [|title later].
  - cbn. split.
    + split; [auto|]. intros [(text & Hin & _)|H]; [inversion Hin|exact H].
    + intros pairs [= <-]. split; reflexivity.
  - change (drop 1 (title :: later)) with later.
    cbn [KeePassXC.parseLoop Nat.eqb]. rewrite parseLoop_later.
    destruct (mapM KeePassXC.FindStringSubmatch later) as [pairs|] eqn:E; cbn [fst snd].
    + split.
      * split; [auto|]. intros [H|H]; [|exact H].
        apply mapM_None_find in H. congruence.
      * intros ? [= <-]. split; reflexivity.
    + split; [|discriminate]. split.
      * intros _. left. apply mapM_None_find, E.
      * intros _. apply mapM_None_find in E as (text & Hin & Hn).
        destruct (List.find _ later) eqn:Ef; [discriminate|].
        pose proof (find_none _ _ Ef text (proj1 (list_elem_of_In _ _) Hin)) as Hf.
        cbv beta in Hf. rewrite bool_decide_eq_true_2 in Hf by exact Hn. discriminate.
Qed.

(** A title and one empty line: parsing fails, although no line that is not
    blank fails to match. *)
Lemma blank_line_fails :
  let output := list_ascii_of_string "Title" ++ [LF; LF] in
  let later := drop 1 (fst (bufio.ScanLines output)) in
  later = [""%string] /\
  KeePassXC.parseKeyPassXCOutput output = (None, Some (ErrCannotParse "")) /\
  ~ (snd (KeePassXC.parseKeyPassXCOutput output) <> None <->
     exists text, text ∈ later /\ isBlank text = false /\
                  KeePassXC.FindStringSubmatch text = None).
Proof.
  cbv zeta. split; [reflexivity|]. split; [reflexivity|].
  intros [H _]. destruct H as (text & Hin & Hb & _); [discriminate|].
  change (text ∈ [""%string]) in Hin. apply list_elem_of_singleton in Hin. subst text.
  discriminate.
Qed.

(** ** Running the monad *)

Section Monad.
Context {W : Type}.

Lemma bind_Ok {A B} (m : M W A) (k : A -> M W B) (w w' : W) (b : B) :
  bind m k w = (Ok b, w') ->
  exists a w1, m w = (Ok a, w1) /\ k a w1 = (Ok b, w').
Proof.
  unfold bind. destruct (m w) as [[a|e] w1]; [eauto|discriminate].
Qed.

Lemma liftR_Ok {A} (r : result A) (w w' : W) (a : A) :
  liftR r w = (Ok a, w') -> r = Ok a /\ w' = w.
Proof. unfold liftR. intros [= -> ->]. split; reflexivity. Qed.

Lemma ret_Ok {A} (a a' : A) (w w' : W) :
  ret a w = (Ok a', w') -> a' = a /\ w' = w.
Proof. unfold ret. intros [= -> ->]. split; reflexivity. Qed.

End Monad.

Lemma call_Ok {St} (c : SysCall) (f : St -> option error * St) (w w' : World St) (u : unit) :
  call c f w = (Ok u, w') ->
  f (w_sys w) = (None, w_sys w') /\ w_trace w' = w_trace w ++ [c].
Proof.
  unfold call. destruct (f (w_sys w)) as [[e|] st'] eqn:E; cbn [resultOfError];
    [discriminate|].
  intros [= _ <-]. split; reflexivity.
Qed.

(** Take a successful run apart, binding by binding. *)
Ltac go_inv :=
  repeat match goal with
  | H : bind _ _ _ = (Ok _, _) |- _ =>
      let a := fresh "a" in let w1 := fresh "w" in
      let H1 := fresh "Hrun" in let H2 := fresh "Hrun" in
      apply bind_Ok in H as (a & w1 & H1 & H2)
  | H : liftR _ _ = (Ok _, _) |- _ =>
      let E := fresh "E" in apply liftR_Ok in H as [E ->]
  | H : ret _ _ = (Ok _, _) |- _ => apply ret_Ok in H as [_ ->]
  | H : call _ _ _ = (Ok _, _) |- _ =>
      let E := fresh "Hcall" in apply call_Ok in H as [E _]
  end.

Lemma call_trace {St} (c : SysCall) (f : St -> option error * St) (w : World St) :
  w_trace (snd (call c f w)) = w_trace w ++ [c].
Proof. unfold call. destruct (f (w_sys w)) as [e st']. reflexivity. Qed.

(** ** TargetStateFile.Apply on a file *)

(** C3. [TargetStateFile.Apply] on an actual file: when the SHA-256 of the
    actual contents equals the target's, the only call on the backend is a
    [Chmod], made only when the permissions differ under the umask; when it
    differs, the only call is a [WriteFile] of the target's contents and
    permissions on the path: the file is written in place, and nothing is
    removed first. *)
Theorem TargetStateFile_Apply_on_file {St : Type} (s : System St) (path : string)
    (perm targetPerm umask : FileMode) (actual target : bytes) (w : World St) :
  let t := {| tsf_contents := Ok target; tsf_perm := targetPerm |} in
  let w' := snd (TargetStateFile_Apply s t (ActualStateFile path perm (Ok actual)) umask w) in
  (sha256Sum actual = sha256Sum target ->
   w_trace w' = w_trace w ++
     (if umaskPermEqual perm targetPerm umask then [] else [CallChmod path targetPerm])) /\
  (sha256Sum actual <> sha256Sum target ->
   w_trace w' = w_trace w ++ [CallWriteFile path target targetPerm]).
Proof.
  intros t w'. subst t w'.
  unfold TargetStateFile_Apply, TargetStateFile_write, bind, liftR, ContentsSHA256, Contents.
  cbn [tsf_contents tsf_perm Path].
  split; intros Hsha.
  - rewrite bool_decide_eq_true_2 by exact Hsha.
    destruct (umaskPermEqual perm targetPerm umask).
    + cbn [ret snd]. rewrite app_nil_r. reflexivity.
    + apply call_trace.
  - rewrite bool_decide_eq_false_2 by exact Hsha. apply call_trace.
Qed.

(** A file whose contents differ from the target's is rewritten with one
    [WriteFile]; no [RemoveAll] is made. *)
Lemma file_rewritten_in_place :
  let s := Mem.system 18%Z in
  let old := list_ascii_of_string "x" in
  let new := list_ascii_of_string "y" in
  let w := Mem.world [("/home/user/b"%string, Mem.NFile 420%Z old)] [] in
  let t := {| tsf_contents := Ok new; tsf_perm := 420%Z |} in
  let actual := ActualStateFile "/home/user/b" 420%Z (Ok old) in
  GetActualStateEntry s "/home/user/b" (w_sys w) = Ok actual /\
  sha256Sum old <> sha256Sum new /\
  fst (TargetStateFile_Apply s t actual 18%Z w) = Ok tt /\
  w_trace (snd (TargetStateFile_Apply s t actual 18%Z w))
    = [CallWriteFile "/home/user/b" new 420%Z] /\
  ~ In (CallRemoveAll "/home/user/b") (w_trace (snd (TargetStateFile_Apply s t actual 18%Z w))).
Proof.
  cbv zeta. split; [vm_compute; reflexivity|]. split; [vm_compute; discriminate|].
  split; [vm_compute; reflexivity|].
  assert (E : w_trace (snd (TargetStateFile_Apply (Mem.system 18%Z)
                 {| tsf_contents := Ok (list_ascii_of_string "y"); tsf_perm := 420%Z |}
                 (ActualStateFile "/home/user/b" 420%Z (Ok (list_ascii_of_string "x"))) 18%Z
                 (Mem.world [("/home/user/b"%string, Mem.NFile 420%Z (list_ascii_of_string "x"))] [])))
             = [CallWriteFile "/home/user/b" (list_ascii_of_string "y") 420%Z])
    by (vm_compute; reflexivity).
  split; [exact E|]. rewrite E. intros [H|[]]. discriminate.
Qed.

(** ** The in-memory backend meets the contracts *)

Lemma Mem_within_refl (name : string) : Mem.within name name = true.
Proof. unfold Mem.within. rewrite bool_decide_eq_true_2 by reflexivity. reflexivity. Qed.

Lemma Mem_system_mutation (umask : FileMode) : MutationContract (Mem.system umask) umask.
Proof.
  split; cbn [Mem.system sysRemoveAll sysChmod sysMkdir sysWriteFile sysWriteSymlink
              sysLstat sysReadFile sysReadlink].
  - intros name st st'. unfold Mem.removeAll. intros [= <-].
    unfold Mem.lstat, Mem.withFiles. cbn [Mem.ms_files].
    rewrite map_lookup_filter_None_2; [reflexivity|].
    right. intros x _. cbn [fst]. rewrite Mem_within_refl. discriminate.
  - intros name mode st st' info. unfold Mem.chmod, Mem.lstat, Mem.readFile.
    destruct (Mem.ms_files st !! name) as [[perm data|perm|target|]|] eqn:E;
      intros [= <-]; intros [= <-]; cbn [Mem.withFiles Mem.ms_files fi_kind];
      rewrite lookup_insert_eq; (split; [|reflexivity]);
      eexists; (split; [reflexivity|apply umaskPermEqual_refl]).
  - intros name perm st st'. unfold Mem.mkdir, Mem.lstat.
    destruct (Mem.ms_files st !! name) eqn:E; intros [= <-].
    cbn [Mem.withFiles Mem.ms_files]. rewrite lookup_insert_eq.
    eexists; split; [reflexivity|apply umaskPermEqual_masked].
  - intros name data perm st st'. unfold Mem.writeFile, Mem.lstat, Mem.readFile.
    destruct (Mem.ms_files st !! name) as [[| | |]|] eqn:E; intros [= <-];
      cbn [Mem.withFiles Mem.ms_files]; rewrite lookup_insert_eq;
      (split; [|reflexivity]); eexists; (split; [reflexivity|apply umaskPermEqual_masked]).
  - intros oldname newname st st'. unfold Mem.writeSymlink, Mem.lstat, Mem.readlink.
    intros [= <-]. cbn [Mem.withFiles Mem.ms_files]. rewrite lookup_insert_eq.
    split; [eexists; reflexivity|reflexivity].
Qed.

Lemma Mem_system_persistent (umask : FileMode) : PersistentContract (Mem.system umask).
Proof.
  split; unfold recorded; cbn [Mem.system sysGet sysSet sysRunScript]; unfold Mem.get.
  - intros bucket key value st st'. unfold Mem.set. intros [= <-]. cbn [Mem.ms_state].
    rewrite lookup_insert_eq. eauto.
  - intros bucket key value st e st' bucket0 key0. unfold Mem.set. intros [= _ <-].
    cbn [Mem.ms_state]. intros [v [= Hv]].
    destruct (decide ((bucket, key) = (bucket0, key0))) as [->|Hne].
    + rewrite lookup_insert_eq. eauto.
    + rewrite lookup_insert_ne by exact Hne. rewrite Hv. eauto.
  - intros scriptname dir data st e st' bucket0 key0. unfold Mem.runScript.
    destruct (Mem.ms_scriptErrors st); intros [= _ <-]; cbn [Mem.ms_state]; auto.
Qed.

(** ** Apply, then Equal *)

Section ApplyEqual.

Context {St : Type} (s : System St).
Variable path_Dir : string -> string.
Variable path_Join : string -> string -> string.
Variable json_Marshal : scriptOnceState -> result bytes.
Variable umask : FileMode.
Hypothesis contract : MutationContract s umask.

Local Abbreviation probe := (GetActualStateEntry s).

Lemma probe_kind (path : string) (st : St) (k : FileKind) (perm : FileMode) :
  hasKindPerm (sysLstat s path st) k perm umask ->
  k <> KindOther ->
  exists p, umaskPermEqual p perm umask = true /\
    probe path st =
    match k with
    | KindRegular => Ok (ActualStateFile path p (sysReadFile s path st))
    | KindDir => Ok (ActualStateDir path p)
    | KindSymlink => Ok (ActualStateSymlink path (sysReadlink s path st))
    | KindOther => Err (ErrUnsupported path)
    end.
Proof.
  intros (p & Hl & Hp) Hk. exists p. split; [exact Hp|].
  unfold GetActualStateEntry. rewrite Hl. reflexivity.
Qed.

(** After a successful [Remove] the fresh probe finds nothing. *)
Lemma Remove_Ok (a : ActualStateEntry) (w w' : World St) (u : unit) :
  probe (Path a) (w_sys w) = Ok a ->
  Remove s a w = (Ok u, w') ->
  probe (Path a) (w_sys w') = Ok (ActualStateAbsent (Path a)).
Proof.
  intros Hp Hr. unfold GetActualStateEntry.
  destruct a; cbn [Remove] in Hr.
  1: { apply ret_Ok in Hr as [_ ->]. exact Hp. }
  all: unfold RemoveAll in Hr; apply call_Ok in Hr as [Hc _];
    rewrite (mc_RemoveAll s umask contract _ _ _ Hc); reflexivity.
Qed.

Lemma Mkdir_Ok (path : string) (perm : FileMode) (w w' : World St) (u : unit) :
  Mkdir s path perm w = (Ok u, w') ->
  exists p, umaskPermEqual p perm umask = true /\
            probe path (w_sys w') = Ok (ActualStateDir path p).
Proof.
  intros H. apply call_Ok in H as [Hc _].
  apply (probe_kind path (w_sys w') KindDir perm); [|discriminate].
  exact (mc_Mkdir s umask contract _ _ _ _ Hc).
Qed.

Lemma WriteFile_Ok (path : string) (data : bytes) (perm : FileMode) (w w' : World St) (u : unit) :
  WriteFile s path data perm w = (Ok u, w') ->
  exists p, umaskPermEqual p perm umask = true /\
            probe path (w_sys w') = Ok (ActualStateFile path p (Ok data)).
Proof.
  intros H. apply call_Ok in H as [Hc _].
  destruct (mc_WriteFile s umask contract _ _ _ _ _ Hc) as [Hk Hr].
  destruct (probe_kind path (w_sys w') KindRegular perm Hk ltac:(discriminate)) as (p & Hp & E).
  exists p. split; [exact Hp|]. rewrite E, Hr. reflexivity.
Qed.

Lemma WriteSymlink_Ok (linkname path : string) (w w' : World St) (u : unit) :
  WriteSymlink s linkname path w = (Ok u, w') ->
  probe path (w_sys w') = Ok (ActualStateSymlink path (Ok linkname)).
Proof.
  intros H. apply call_Ok in H as [Hc _].
  destruct (mc_WriteSymlink s umask contract _ _ _ _ Hc) as [(p & Hl) Hr].
  unfold GetActualStateEntry. rewrite Hl, Hr. reflexivity.
Qed.

Lemma Chmod_Ok_dir (path : string) (perm0 perm : FileMode) (w w' : World St) (u : unit) :
  probe path (w_sys w) = Ok (ActualStateDir path perm0) ->
  Chmod s path perm w = (Ok u, w') ->
  exists p, umaskPermEqual p perm umask = true /\
            probe path (w_sys w') = Ok (ActualStateDir path p).
Proof.
  intros Hp H. apply call_Ok in H as [Hc _].
  unfold GetActualStateEntry in Hp.
  destruct (sysLstat s path (w_sys w)) as [[info|]|] eqn:El; [|discriminate..].
  destruct (mc_Chmod s umask contract _ _ _ _ info Hc El) as [Hk _].
  destruct (fi_kind info) eqn:Ek; try discriminate.
  apply (probe_kind path (w_sys w') KindDir perm Hk). discriminate.
Qed.

Lemma Chmod_Ok_file (path : string) (perm0 perm : FileMode) (lc : lazyContents)
    (w w' : World St) (u : unit) :
  probe path (w_sys w) = Ok (ActualStateFile path perm0 lc) ->
  Chmod s path perm w = (Ok u, w') ->
  exists p, umaskPermEqual p perm umask = true /\
            probe path (w_sys w') = Ok (ActualStateFile path p lc).
Proof.
  intros Hp H. apply call_Ok in H as [Hc _].
  unfold GetActualStateEntry in Hp.
  destruct (sysLstat s path (w_sys w)) as [[info|]|] eqn:El; [|discriminate..].
  destruct (mc_Chmod s umask contract _ _ _ _ info Hc El) as [Hk Hr].
  destruct (fi_kind info) eqn:Ek; try discriminate.
  injection Hp as _ Hlc.
  destruct (probe_kind path (w_sys w') KindRegular perm Hk ltac:(discriminate)) as (p & Hq & E).
  exists p. split; [exact Hq|]. rewrite E, Hr, Hlc. reflexivity.
Qed.

(** C1. For every target-state entry other than a rename-directory, on a
    backend that carries out its mutations under the umask, when the actual
    state entry is the probe of its path and [Apply] succeeds: [Equal] is
    true on every fresh probe of the path, and unless the target is a script
    the fresh probe succeeds. *)
Theorem Apply_then_Equal (t : TargetStateEntry) (actual : ActualStateEntry)
    (w w' : World St) :
  isRenameDir t = false ->
  probe (Path actual) (w_sys w) = Ok actual ->
  Apply s path_Dir path_Join json_Marshal t actual umask w = (Ok tt, w') ->
  (forall actual', probe (Path actual) (w_sys w') = Ok actual' ->
                   Equal t actual' umask = (true, None)) /\
  (isScript t = false -> exists actual', probe (Path actual) (w_sys w') = Ok actual').
Proof.
  intros Hkind Hprobe Happly.
  assert (Hsuffices : isScript t = true \/
            exists actual', probe (Path actual) (w_sys w') = Ok actual' /\
                            Equal t actual' umask = (true, None)).
  2: { destruct Hsuffices as [Hs|(a' & Hp & He)].
       - split; [|congruence]. destruct t; try discriminate. reflexivity.
       - split; [|eauto]. intros a2 Hp2. congruence. }
  destruct t as [|t|t|t|t|t|t]; cbn [Apply Equal isScript] in *;
    [| | | |discriminate|left; reflexivity|]; right.
  - (* absent *)
    unfold TargetStateAbsent_Apply in Happly.
    exists (ActualStateAbsent (Path actual)). split; [|reflexivity].
    destruct actual.
    1: { apply ret_Ok in Happly as [_ ->]. exact Hprobe. }
    all: apply (Remove_Ok _ w w' tt Hprobe); exact Happly.
  - (* directory *)
    unfold TargetStateDir_Apply in Happly.
    assert (Hmk : forall w1, Mkdir s (Path actual) (tsd_perm t) w1 = (Ok tt, w') ->
              exists a', probe (Path actual) (w_sys w') = Ok a' /\
                         TargetStateDir_Equal t a' umask = (true, None)).
    { intros w1 H. apply Mkdir_Ok in H as (p & Hp & E).
      eexists; split; [exact E|]. cbn. rewrite Hp. reflexivity. }
    destruct actual as [path|path perm|path perm lc|path ll]; cbn [Path] in *.
    2: { destruct (umaskPermEqual perm (tsd_perm t) umask) eqn:Eperm.
         - apply ret_Ok in Happly as [_ ->].
           eexists; split; [exact Hprobe|]. cbn. rewrite Eperm. reflexivity.
         - destruct (Chmod_Ok_dir _ _ _ _ _ _ Hprobe Happly) as (p & Hp & E).
           eexists; split; [exact E|]. cbn. rewrite Hp. reflexivity. }
    all: go_inv; destruct a; eauto.
  - (* file *)
    unfold TargetStateFile_Apply, TargetStateFile_write in Happly.
    assert (Hwr : forall w1 contents,
              Contents (tsf_contents t) = Ok contents ->
              WriteFile s (Path actual) contents (tsf_perm t) w1 = (Ok tt, w') ->
              exists a', probe (Path actual) (w_sys w') = Ok a' /\
                         TargetStateFile_Equal t a' umask = (true, None)).
    { intros w1 contents Ec H. apply WriteFile_Ok in H as (p & Hp & E).
      eexists; split; [exact E|]. unfold Contents in Ec. cbn. rewrite Hp, Ec. cbn.
      rewrite bool_decide_eq_true_2 by reflexivity. reflexivity. }
    destruct actual as [path|path perm|path perm lc|path ll]; cbn [Path] in *.
    3: { go_inv.
         destruct (bool_decide (a = a0)) eqn:Esha.
         - apply bool_decide_eq_true_1 in Esha. subst a0.
           destruct (umaskPermEqual perm (tsf_perm t) umask) eqn:Eperm.
           + apply ret_Ok in Hrun2 as [_ ->].
             eexists; split; [exact Hprobe|]. cbn. rewrite Eperm, E, E0. cbn.
             rewrite bool_decide_eq_true_2 by reflexivity. reflexivity.
           + destruct (Chmod_Ok_file _ _ _ _ _ _ _ Hprobe Hrun2) as (p & Hp & Ep).
             eexists; split; [exact Ep|]. cbn. rewrite Hp, E, E0. cbn.
             rewrite bool_decide_eq_true_2 by reflexivity. reflexivity.
         - apply bind_Ok in Hrun2 as (c & w1 & Hc & Hw).
           apply liftR_Ok in Hc as [Ec ->]. eauto. }
    all: apply bind_Ok in Happly as (u & w1 & _ & Hrest);
      apply bind_Ok in Hrest as (c & w2 & Hc & Hw);
      apply liftR_Ok in Hc as [Ec ->]; destruct u; eauto.
  - (* present *)
    unfold TargetStatePresent_Apply in Happly.
    destruct actual as [path|path perm|path perm lc|path ll]; cbn [Path] in *.
    3: { destruct (umaskPermEqual perm (tsp_perm t) umask) eqn:Eperm.
         - apply ret_Ok in Happly as [_ ->].
           eexists; split; [exact Hprobe|]. cbn. rewrite Eperm. reflexivity.
         - destruct (Chmod_Ok_file _ _ _ _ _ _ _ Hprobe Happly) as (p & Hp & Ep).
           eexists; split; [exact Ep|]. cbn. rewrite Hp. reflexivity. }
    all: apply bind_Ok in Happly as (u & w1 & _ & Hrest);
      apply bind_Ok in Hrest as (c & w2 & Hc & Hw);
      apply liftR_Ok in Hc as [Ec ->]; destruct u;
      apply WriteFile_Ok in Hw as (p & Hp & E);
      (eexists; split; [exact E|]); cbn; rewrite Hp; reflexivity.
  - (* symlink *)
    unfold TargetStateSymlink_Apply, TargetStateSymlink_replace in Happly.
    assert (Hrep : forall w0,
              (linkname <- liftR (Linkname (tsl_linkname t)) ;;
               Remove s actual ;;
               WriteSymlink s linkname (Path actual)) w0 = (Ok tt, w') ->
              exists a', probe (Path actual) (w_sys w') = Ok a' /\
                         TargetStateSymlink_Equal t a' umask = (true, None)).
    { intros w0 H. apply bind_Ok in H as (l & w1 & Hl & H).
      apply liftR_Ok in Hl as [El ->].
      apply bind_Ok in H as (u & w2 & _ & H). destruct u.
      apply WriteSymlink_Ok in H.
      eexists; split; [exact H|]. unfold Linkname in El. cbn. rewrite El. cbn.
      rewrite bool_decide_eq_true_2 by reflexivity. reflexivity. }
    destruct actual as [path|path perm|path perm lc|path ll]; cbn [Path] in *; eauto.
    apply bind_Ok in Happly as (l1 & w1 & Hl1 & H). apply liftR_Ok in Hl1 as [El1 ->].
    apply bind_Ok in H as (l2 & w2 & Hl2 & H). apply liftR_Ok in Hl2 as [El2 ->].
    destruct (bool_decide (l1 = l2)) eqn:Eeq.
    + apply bool_decide_eq_true_1 in Eeq. subst l2.
      apply ret_Ok in H as [_ ->].
      eexists; split; [exact Hprobe|]. unfold Linkname in *. cbn. rewrite El1, El2. cbn.
      rewrite bool_decide_eq_true_2 by reflexivity. reflexivity.
    + eapply Hrep. exact H.
Qed.

End ApplyEqual.

(** Scenario "file install, new": an empty destination, the target a file
    "a.txt" with contents "hello" and a line feed, permissions 0644, umask 022. *)
Lemma Apply_then_Equal_witness :
  let s := Mem.system 18%Z in
  let w := Mem.world [] [] in
  let t := File {| tsf_contents := Ok (list_ascii_of_string "hello" ++ [LF]);
                   tsf_perm := 420%Z |} in
  let actual := ActualStateAbsent "/home/user/a.txt" in
  let w' := snd (Apply s Mem.dir Mem.join Mem.marshal t actual 18%Z w) in
  GetActualStateEntry s "/home/user/a.txt" (w_sys w) = Ok actual /\
  Apply s Mem.dir Mem.join Mem.marshal t actual 18%Z w = (Ok tt, w') /\
  exists actual', GetActualStateEntry s "/home/user/a.txt" (w_sys w') = Ok actual' /\
                  Equal t actual' 18%Z = (true, None).
Proof.
  intros s w t actual w'.
  assert (Hprobe : GetActualStateEntry s (Path actual) (w_sys w) = Ok actual)
    by (vm_compute; reflexivity).
  assert (Happly : Apply s Mem.dir Mem.join Mem.marshal t actual 18%Z w = (Ok tt, w'))
    by (vm_compute; reflexivity).
  split; [exact Hprobe|]. split; [exact Happly|].
  destruct (Apply_then_Equal s Mem.dir Mem.join Mem.marshal 18%Z (Mem_system_mutation 18%Z)
              t actual w w' eq_refl Hprobe Happly) as [Hall Hex].
  destruct (Hex eq_refl) as [actual' Hp]. exists actual'. split; [exact Hp|exact (Hall _ Hp)].
Defined.

(** A directory is renamed with success, and [Equal] on the fresh probe of
    the new name is false. *)
Lemma RenameDir_Apply_then_Equal_false :
  let s := Mem.system 18%Z in
  let w := Mem.world [("/home/user/old"%string, Mem.NDir 493%Z)] [] in
  let t := RenameDir {| oldName := "old"; newName := "new" |} in
  let actual := ActualStateAbsent "/home/user/new" in
  let w' := snd (Apply s Mem.dir Mem.join Mem.marshal t actual 18%Z w) in
  GetActualStateEntry s "/home/user/new" (w_sys w) = Ok actual /\
  Apply s Mem.dir Mem.join Mem.marshal t actual 18%Z w = (Ok tt, w') /\
  w_trace w' = [CallRename "/home/user/old" "/home/user/new"] /\
  GetActualStateEntry s "/home/user/new" (w_sys w') = Ok (ActualStateDir "/home/user/new" 493%Z) /\
  Equal t (ActualStateDir "/home/user/new" 493%Z) 18%Z = (false, None).
Proof. cbv zeta. repeat split; vm_compute; reflexivity. Qed.

(** Scenario "dry-run verify": the destination misses "c", the target is a
    regular file "c".  [Apply] against the dry-run backend succeeds with one
    write intercepted and the modified flag set; nothing has changed, so
    [Equal] on the fresh probe is false. *)
Example dry_run_Apply_then_Equal_false :
  let s := DryRun.system (Mem.system 18%Z) in
  let w := Build_World (DryRun.Build_State (w_sys (Mem.world [] [])) false) [] 0%Z in
  let t := File {| tsf_contents := Ok (list_ascii_of_string "c"); tsf_perm := 420%Z |} in
  let actual := ActualStateAbsent "/home/user/c" in
  let w' := snd (Apply s Mem.dir Mem.join Mem.marshal t actual 18%Z w) in
  GetActualStateEntry s "/home/user/c" (w_sys w) = Ok actual /\
  fst (Apply s Mem.dir Mem.join Mem.marshal t actual 18%Z w) = Ok tt /\
  w_trace w' = [CallWriteFile "/home/user/c" (list_ascii_of_string "c") 420%Z] /\
  DryRun.modified (w_sys w') = true /\
  GetActualStateEntry s "/home/user/c" (w_sys w') = Ok actual /\
  Equal t actual 18%Z = (false, None).
Proof. cbv zeta. repeat split; vm_compute; reflexivity. Qed.

(** Scenario "file permission-only reconcile": the destination has "b" with
    contents "x" and permissions 0600; the target has the same contents and
    permissions 0644 under the umask 022.  [Apply] issues a [Chmod] only. *)
Example permission_only_reconcile :
  let s := Mem.system 18%Z in
  let x := list_ascii_of_string "x" in
  let w := Mem.world [("/home/user/b"%string, Mem.NFile 384%Z x)] [] in
  let t := File {| tsf_contents := Ok x; tsf_perm := 420%Z |} in
  let actual := ActualStateFile "/home/user/b" 384%Z (Ok x) in
  GetActualStateEntry s "/home/user/b" (w_sys w) = Ok actual /\
  fst (Apply s Mem.dir Mem.join Mem.marshal t actual 18%Z w) = Ok tt /\
  w_trace (snd (Apply s Mem.dir Mem.join Mem.marshal t actual 18%Z w))
    = [CallChmod "/home/user/b" 420%Z].
Proof. cbv zeta. repeat split; vm_compute; reflexivity. Qed.

(** Scenario "symlink replace": the destination has "link" to "old", the
    target is a symlink to "new".  [Apply] removes and recreates the link,
    and [Equal] is true afterwards. *)
Example symlink_replace :
  let s := Mem.system 18%Z in
  let w := Mem.world [("/home/user/link"%string, Mem.NSymlink "old")] [] in
  let t := Symlink {| tsl_linkname := Ok "new"%string |} in
  let actual := ActualStateSymlink "/home/user/link" (Ok "old"%string) in
  let w' := snd (Apply s Mem.dir Mem.join Mem.marshal t actual 18%Z w) in
  GetActualStateEntry s "/home/user/link" (w_sys w) = Ok actual /\
  fst (Apply s Mem.dir Mem.join Mem.marshal t actual 18%Z w) = Ok tt /\
  w_trace w' = [CallRemoveAll "/home/user/link"; CallWriteSymlink "new" "/home/user/link"] /\
  (exists actual', GetActualStateEntry s "/home/user/link" (w_sys w') = Ok actual' /\
                   Equal t actual' 18%Z = (true, None)).
Proof.
  cbv zeta. split; [vm_compute; reflexivity|]. split; [vm_compute; reflexivity|].
  split; [vm_compute; reflexivity|].
  exists (ActualStateSymlink "/home/user/link" (Ok "new"%string)).
  split; vm_compute; reflexivity.
Qed.

(** ** Run-once scripts *)

Section ScriptOnce.

Context {St : Type} (s : System St).
Variable path_Dir : string -> string.
Variable json_Marshal : scriptOnceState -> result bytes.
Variable umask : FileMode.
Hypothesis contract : PersistentContract s.

Local Abbreviation apply := (TargetStateScript_Apply s path_Dir json_Marshal).

(** What one [Apply] of a run-once script does, by the outcome of each step. *)
Inductive OnceRun (t : TargetStateScript) (a : ActualStateEntry) (w : World St)
    : result unit -> World St -> list SysCall -> Prop :=
| once_no_contents e :
    tss_contents t = Err e ->
    OnceRun t a w (Err e) w []
| once_lookup_failed contents e w' :
    tss_contents t = Ok contents ->
    sysGet s ScriptOnceStateBucket (scriptOnceKey contents) (w_sys w) = Err e ->
    w_sys w' = w_sys w ->
    OnceRun t a w (Err e) w' [CallGet ScriptOnceStateBucket (scriptOnceKey contents)]
| once_already_run contents v w' :
    tss_contents t = Ok contents ->
    sysGet s ScriptOnceStateBucket (scriptOnceKey contents) (w_sys w) = Ok (Some v) ->
    w_sys w' = w_sys w ->
    OnceRun t a w (Ok tt) w' [CallGet ScriptOnceStateBucket (scriptOnceKey contents)]
| once_empty contents w' :
    tss_contents t = Ok contents ->
    sysGet s ScriptOnceStateBucket (scriptOnceKey contents) (w_sys w) = Ok None ->
    isEmpty contents = true ->
    w_sys w' = w_sys w ->
    OnceRun t a w (Ok tt) w' [CallGet ScriptOnceStateBucket (scriptOnceKey contents)]
| once_run_unrecorded contents e w' tail :
    tss_contents t = Ok contents ->
    sysGet s ScriptOnceStateBucket (scriptOnceKey contents) (w_sys w) = Ok None ->
    (forall bucket key, recorded s bucket key (w_sys w) -> recorded s bucket key (w_sys w')) ->
    Forall (fun c => exists value,
              c = CallSet ScriptOnceStateBucket (scriptOnceKey contents) value) tail ->
    OnceRun t a w (Err e) w'
      (CallGet ScriptOnceStateBucket (scriptOnceKey contents)
       :: CallRunScript (name t) (path_Dir (Path a)) contents :: tail)
| once_run_recorded contents value w' :
    tss_contents t = Ok contents ->
    sysGet s ScriptOnceStateBucket (scriptOnceKey contents) (w_sys w) = Ok None ->
    (forall bucket key, recorded s bucket key (w_sys w) -> recorded s bucket key (w_sys w')) ->
    recorded s ScriptOnceStateBucket (scriptOnceKey contents) (w_sys w') ->
    OnceRun t a w (Ok tt) w'
      [CallGet ScriptOnceStateBucket (scriptOnceKey contents);
       CallRunScript (name t) (path_Dir (Path a)) contents;
       CallSet ScriptOnceStateBucket (scriptOnceKey contents) value].

Lemma Apply_once_run (t : TargetStateScript) (a : ActualStateEntry) (w : World St) :
  once t = true ->
  exists calls,
    w_trace (snd (apply t a umask w)) = w_trace w ++ calls /\
    OnceRun t a w (fst (apply t a umask w)) (snd (apply t a umask w)) calls.
Proof.
  intros Honce.
  unfold TargetStateScript_Apply, TargetStateScript_run. rewrite Honce.
  unfold bind, liftR, ContentsSHA256, Contents, PersistentState_Get, query, time_Now.
  destruct (tss_contents t) as [contents|e] eqn:Ec.
  2: { exists []. cbn [fst snd]. rewrite app_nil_r. split; [reflexivity|].
       apply once_no_contents, Ec. }
  fold (scriptOnceKey contents). cbn [w_sys w_trace w_now].
  destruct (sysGet s ScriptOnceStateBucket (scriptOnceKey contents) (w_sys w))
    as [[v|]|e] eqn:Eg.
  - eexists. cbn [fst snd ret w_trace]. split; [reflexivity|].
    eapply once_already_run; eauto.
  - destruct (isEmpty contents) eqn:Ee.
    + eexists. cbn [fst snd ret w_trace]. split; [reflexivity|].
      eapply once_empty; eauto.
    + unfold RunScript, PersistentState_Set, call. cbn [w_sys w_trace w_now].
      destruct (sysRunScript s (name t) (path_Dir (Path a)) contents (w_sys w))
        as [[e1|] st1] eqn:Er; cbn [resultOfError].
      * exists [CallGet ScriptOnceStateBucket (scriptOnceKey contents);
                CallRunScript (name t) (path_Dir (Path a)) contents].
        cbn [fst snd w_trace]. split; [rewrite <- app_assoc; reflexivity|].
        eapply once_run_unrecorded; eauto. intros b k Hr. cbn [w_sys].
        exact (pc_RunScript_keeps s contract _ _ _ _ _ _ b k Er Hr).
      * destruct (json_Marshal {| Name := name t; RunAt := w_now w |}) as [value|e2] eqn:Ej.
        -- cbn [w_sys w_trace w_now].
           destruct (sysSet s ScriptOnceStateBucket (scriptOnceKey contents) value st1)
             as [[e3|] st2] eqn:Es; cbn [resultOfError].
           ++ exists [CallGet ScriptOnceStateBucket (scriptOnceKey contents);
                      CallRunScript (name t) (path_Dir (Path a)) contents;
                      CallSet ScriptOnceStateBucket (scriptOnceKey contents) value].
              cbn [fst snd w_trace]. split; [rewrite <- !app_assoc; reflexivity|].
              eapply once_run_unrecorded; eauto.
              intros b k Hr. cbn [w_sys].
              eapply (pc_Set_keeps s contract); [exact Es|].
              exact (pc_RunScript_keeps s contract _ _ _ _ _ _ b k Er Hr).
           ++ eexists. cbn [fst snd w_trace]. split.
              ** rewrite <- !app_assoc. reflexivity.
              ** eapply once_run_recorded; eauto.
                 --- intros b k Hr. cbn [w_sys].
                     eapply (pc_Set_keeps s contract); [exact Es|].
                     exact (pc_RunScript_keeps s contract _ _ _ _ _ _ b k Er Hr).
                 --- exact (pc_Set_Get s contract _ _ _ _ _ Es).
        -- exists [CallGet ScriptOnceStateBucket (scriptOnceKey contents);
                   CallRunScript (name t) (path_Dir (Path a)) contents].
           cbn [fst snd w_trace]. split; [rewrite <- app_assoc; reflexivity|].
           eapply once_run_unrecorded; eauto. intros b k Hr. cbn [w_sys].
           exact (pc_RunScript_keeps s contract _ _ _ _ _ _ b k Er Hr).
  - eexists. cbn [fst snd w_trace]. split; [reflexivity|].
    eapply once_lookup_failed; eauto.
Qed.

Lemma OnceRun_keeps t a w r w' calls bucket key :
  OnceRun t a w r w' calls ->
  recorded s bucket key (w_sys w) -> recorded s bucket key (w_sys w').
Proof.
  intros H Hr. destruct H; try match goal with E : w_sys _ = w_sys _ |- _ => rewrite E end; auto.
Qed.

Lemma OnceRun_keys t a w r w' calls c bucket key :
  OnceRun t a w r w' calls ->
  In c calls -> persistentKey c = Some (bucket, key) ->
  bucket = ScriptOnceStateBucket /\
  exists contents, tss_contents t = Ok contents /\
    key = list_ascii_of_string (Hex.EncodeToString (sha256Sum contents)).
Proof.
  intros H Hin Hk.
  assert (Hgoal : forall contents, tss_contents t = Ok contents ->
            (bucket, key) = (ScriptOnceStateBucket, scriptOnceKey contents) ->
            bucket = ScriptOnceStateBucket /\
            exists contents, tss_contents t = Ok contents /\
              key = list_ascii_of_string (Hex.EncodeToString (sha256Sum contents))).
  { intros contents Ec [= -> ->]. split; [reflexivity|]. exists contents. split; [exact Ec|reflexivity]. }
  destruct H as [| | | |contents e w' tail Ec Eg Hkeep Htail|]; cbn [In] in Hin;
    repeat match goal with
    | H : _ \/ _ |- _ => destruct H
    | H : False |- _ => destruct H
    end; subst; cbn [persistentKey] in Hk; try discriminate;
    try (injection Hk as <- <-; eauto; fail).
  destruct (proj1 (List.Forall_forall _ _) Htail _ H) as [value ->].
  cbn [persistentKey] in Hk. injection Hk as <- <-. eauto.
Qed.

Lemma OnceRun_runs_once t a w r w' calls :
  OnceRun t a w r w' calls -> length (List.filter isRunScript calls) <= 1.
Proof.
  intros H. destruct H as [| | | |contents e w' tail Ec Eg Hkeep Htail|]; cbn; try lia.
  assert (E : List.filter isRunScript tail = []).
  { induction Htail as [|c tail [value ->] _ IH]; [reflexivity|exact IH]. }
  rewrite E. cbn. lia.
Qed.

Lemma OnceRun_recorded_before t a w r w' calls contents :
  OnceRun t a w r w' calls ->
  tss_contents t = Ok contents ->
  recorded s ScriptOnceStateBucket (scriptOnceKey contents) (w_sys w) ->
  ranScript calls = false.
Proof.
  intros H Ec [v Hv]. destruct H; try reflexivity; congruence.
Qed.

Lemma OnceRun_recorded_after t a w w' calls :
  OnceRun t a w (Ok tt) w' calls ->
  ranScript calls = true ->
  exists contents, tss_contents t = Ok contents /\
    recorded s ScriptOnceStateBucket (scriptOnceKey contents) (w_sys w').
Proof.
  intros H Hran. inversion H; subst; try discriminate. eauto.
Qed.

Lemma applyScripts_cons t a rest w :
  applyScripts s path_Dir json_Marshal ((t, a) :: rest) umask w =
  let w1 := snd (apply t a umask w) in
  let r := applyScripts s path_Dir json_Marshal rest umask w1 in
  ((errorOf (fst (apply t a umask w)), drop (length (w_trace w)) (w_trace w1)) :: fst r, snd r).
Proof.
  cbn [applyScripts]. destruct (apply t a umask w) as [r w1].
  cbn [fst snd]. destruct (applyScripts _ _ _ rest umask w1). reflexivity.
Qed.

Lemma applyScripts_head t a w :
  once t = true ->
  exists calls,
    drop (length (w_trace w)) (w_trace (snd (apply t a umask w))) = calls /\
    OnceRun t a w (fst (apply t a umask w)) (snd (apply t a umask w)) calls.
Proof.
  intros Honce. destruct (Apply_once_run t a w Honce) as (calls & Ht & Hrun).
  exists calls. split; [|exact Hrun]. rewrite Ht. apply drop_app_length.
Qed.

Lemma recorded_not_rerun (ts : list (TargetStateScript * ActualStateEntry)) (w : World St)
    (contents : bytes) :
  Forall (fun ta => once (fst ta) = true) ts ->
  recorded s ScriptOnceStateBucket (scriptOnceKey contents) (w_sys w) ->
  forall j tj aj ej cj,
    ts !! j = Some (tj, aj) ->
    ContentsSHA256 (tss_contents tj) = Ok (sha256Sum contents) ->
    fst (applyScripts s path_Dir json_Marshal ts umask w) !! j = Some (ej, cj) ->
    ranScript cj = false.
Proof.
  intros Hall. revert w. induction Hall as [|[t a] rest Honce Hall IH]; intros w Hrec j tj aj ej cj Hj Hsha Hr.
  - rewrite lookup_nil in Hj. discriminate.
  - rewrite applyScripts_cons in Hr. cbn zeta in Hr. cbn [fst] in Hr, Honce.
    destruct (applyScripts_head t a w Honce) as (calls & Hcalls & Hrun).
    destruct j as [|j]; cbn [lookup list_lookup] in Hj, Hr.
    + injection Hj as -> ->. injection Hr as _ <-. rewrite Hcalls.
      destruct (tss_contents tj) as [c|e] eqn:Ec; cbn [ContentsSHA256] in Hsha; [|discriminate].
      injection Hsha as Hsha.
      eapply OnceRun_recorded_before; [exact Hrun|exact Ec|].
      unfold scriptOnceKey in *. rewrite Hsha. exact Hrec.
    + eapply IH; [|exact Hj|exact Hsha|exact Hr].
      eapply OnceRun_keeps; [exact Hrun|exact Hrec].
Qed.

(** What one pass does is decided by the state it starts in: it runs the
    script exactly when the contents are not empty and the lookup finds the
    key unrecorded, and a pass whose [RunScript] fails makes no [Set]. *)
Lemma Apply_once_ran (t : TargetStateScript) (a : ActualStateEntry) (w : World St)
    (contents : bytes) :
  once t = true -> tss_contents t = Ok contents ->
  let calls := drop (length (w_trace w)) (w_trace (snd (apply t a umask w))) in
  (ranScript calls = true <->
   sysGet s ScriptOnceStateBucket (scriptOnceKey contents) (w_sys w) = Ok None /\
   isEmpty contents = false) /\
  (fst (sysRunScript s (name t) (path_Dir (Path a)) contents (w_sys w)) <> None ->
   forall bucket key value, ~ In (CallSet bucket key value) calls).
Proof.
  intros Honce Hc. cbv zeta.
  unfold TargetStateScript_Apply, TargetStateScript_run. rewrite Honce, Hc.
  unfold bind, liftR, ContentsSHA256, Contents, PersistentState_Get, query, time_Now.
  fold (scriptOnceKey contents). cbn [w_sys w_trace w_now].
  destruct (sysGet s ScriptOnceStateBucket (scriptOnceKey contents) (w_sys w))
    as [[v|]|e] eqn:Eg.
  1,3: cbn [snd ret w_trace]; rewrite drop_app_length; split;
    [split; [discriminate|intros [H _]; discriminate H]
    |intros _ b k v' [H|[]]; discriminate H].
  destruct (isEmpty contents) eqn:Ee.
  { cbn [snd ret w_trace]. rewrite drop_app_length. split;
      [split; [discriminate|intros [_ H]; discriminate H]
      |intros _ b k v' [H|[]]; discriminate H]. }
  unfold RunScript, PersistentState_Set, call, ret. cbn [w_sys w_trace w_now].
  destruct (sysRunScript s (name t) (path_Dir (Path a)) contents (w_sys w))
    as [[e1|] st1] eqn:Er; cbn [resultOfError fst].
  - cbn [snd w_trace]. rewrite <- app_assoc, drop_app_length. split.
    + split; [intros _; split; reflexivity|reflexivity].
    + intros _ b k v' [H|[H|[]]]; discriminate H.
  - split.
    + split; [intros _; split; reflexivity|intros _].
      destruct (json_Marshal {| Name := name t; RunAt := w_now w |}) as [value|e2];
        [cbn [w_sys w_trace w_now];
         destruct (sysSet s ScriptOnceStateBucket (scriptOnceKey contents) value st1)
           as [e3 st2]|];
        cbn [snd w_trace]; rewrite <- ?app_assoc, drop_app_length; reflexivity.
    + intros H. congruence.
Qed.

(** Pass [i] is the [Apply] of the script at [i] in the world the passes
    before it leave. *)
Lemma applyScripts_pass (ts : list (TargetStateScript * ActualStateEntry)) :
  forall (w : World St) (i : nat) t a e calls,
    ts !! i = Some (t, a) ->
    fst (applyScripts s path_Dir json_Marshal ts umask w) !! i = Some (e, calls) ->
    let w1 := snd (applyScripts s path_Dir json_Marshal (take i ts) umask w) in
    calls = drop (length (w_trace w1)) (w_trace (snd (apply t a umask w1))).
Proof.
  induction ts as [|[t0 a0] rest IH]; intros w i t a e calls Hi Hp.
  - rewrite lookup_nil in Hi. discriminate.
  - rewrite applyScripts_cons in Hp. cbn zeta in Hp. cbn [fst] in Hp.
    destruct i as [|i]; cbn [lookup list_lookup] in Hi, Hp.
    + injection Hi as -> ->. injection Hp as _ <-. reflexivity.
    + cbn [take]. rewrite applyScripts_cons. cbn zeta. cbn [snd].
      exact (IH _ i t a e calls Hi Hp).
Qed.

(** C2. Over any number of passes of run-once scripts in one lifetime of the
    persistent state: a pass calls [RunScript] at most once, and every call
    it makes on the persistent state is in the bucket "scriptOnceState"
    under the key that is the lowercase hexadecimal SHA-256 of the script's
    contents; once a pass has run a script and returned no error, no later
    pass of a script with the same contents digest runs it; and a pass runs
    its script exactly when the contents are not empty and its lookup finds
    the key unrecorded in the state the earlier passes leave, a pass whose
    [RunScript] fails making no [Set]: where a failed pass leaves the key
    unrecorded, the next pass runs the script again. *)
Theorem run_once_script_not_rerun
    (ts : list (TargetStateScript * ActualStateEntry)) (w : World St) :
  Forall (fun ta => once (fst ta) = true) ts ->
  let passes := fst (applyScripts s path_Dir json_Marshal ts umask w) in
  (forall i t a e calls,
     ts !! i = Some (t, a) -> passes !! i = Some (e, calls) ->
     length (List.filter isRunScript calls) <= 1 /\
     forall c bucket key,
       In c calls -> persistentKey c = Some (bucket, key) ->
       bucket = ScriptOnceStateBucket /\
       exists contents, tss_contents t = Ok contents /\
         key = list_ascii_of_string (Hex.EncodeToString (sha256Sum contents))) /\
  (forall i j ti ai tj aj ci ej cj,
     i < j -> ts !! i = Some (ti, ai) -> ts !! j = Some (tj, aj) ->
     ContentsSHA256 (tss_contents ti) = ContentsSHA256 (tss_contents tj) ->
     passes !! i = Some (None, ci) -> ranScript ci = true ->
     passes !! j = Some (ej, cj) ->
     ranScript cj = false) /\
  (forall i t a e calls contents,
     ts !! i = Some (t, a) -> passes !! i = Some (e, calls) ->
     tss_contents t = Ok contents ->
     let st := w_sys (snd (applyScripts s path_Dir json_Marshal (take i ts) umask w)) in
     (ranScript calls = true <->
      sysGet s ScriptOnceStateBucket (scriptOnceKey contents) st = Ok None /\
      isEmpty contents = false) /\
     (fst (sysRunScript s (name t) (path_Dir (Path a)) contents st) <> None ->
      forall bucket key value, ~ In (CallSet bucket key value) calls)).
Proof.
  intros Hall passes. subst passes. split; [|split].
  3: { intros i t a e calls contents Hi Hp Hc. cbv zeta.
       rewrite (applyScripts_pass ts w i t a e calls Hi Hp).
       apply Apply_once_ran; [|exact Hc].
       exact (proj1 (List.Forall_forall _ ts) Hall (t, a)
                (proj1 (list_elem_of_In _ _) (list_elem_of_lookup_2 _ _ _ Hi))). }
  - revert w. induction Hall as [|[t0 a0] rest Honce Hall IH]; intros w i t a e calls Hi Hp.
    + rewrite lookup_nil in Hi. discriminate.
    + rewrite applyScripts_cons in Hp. cbn zeta in Hp. cbn [fst] in Hp, Honce.
      destruct (applyScripts_head t0 a0 w Honce) as (calls0 & Hcalls & Hrun).
      destruct i as [|i]; cbn [lookup list_lookup] in Hi, Hp.
      * injection Hi as -> ->. injection Hp as _ <-. rewrite Hcalls. split.
        -- eapply OnceRun_runs_once; exact Hrun.
        -- intros c bucket key Hin Hk. eapply OnceRun_keys; eauto.
      * eapply IH; eauto.
  - revert w. induction Hall as [|[t0 a0] rest Honce Hall IH];
      intros w i j ti ai tj aj ci ej cj Hlt Hi Hj Hsha Hpi Hran Hpj.
    + rewrite lookup_nil in Hi. discriminate.
    + rewrite applyScripts_cons in Hpi, Hpj. cbn zeta in Hpi, Hpj. cbn [fst] in Hpi, Hpj, Honce.
      destruct (applyScripts_head t0 a0 w Honce) as (calls0 & Hcalls & Hrun).
      destruct j as [|j]; [lia|]. cbn [lookup list_lookup] in Hj, Hpj.
      destruct i as [|i]; cbn [lookup list_lookup] in Hi, Hpi.
      * injection Hi as -> ->. injection Hpi as He <-. rewrite Hcalls in Hran.
        destruct (fst (apply ti ai umask w)) as [[]|e0] eqn:Er; [|discriminate].
        destruct (OnceRun_recorded_after _ _ _ _ _ Hrun Hran) as (contents & Ec & Hrec).
        eapply (recorded_not_rerun rest _ contents Hall Hrec j tj aj ej cj Hj); [|exact Hpj].
        rewrite <- Hsha, Ec. reflexivity.
      * eapply (IH _ i j); eauto. lia.
Qed.

End ScriptOnce.

(** Scenario "script once" on the in-memory backend: the first pass runs the
    script, the second does not, changed contents run once more. *)
Lemma run_once_script_witness :
  let s := Mem.system 18%Z in
  let ts := [setupScript "echo hi"; setupScript "echo hi"; setupScript "echo hi!"] in
  let passes := fst (applyScripts s Mem.dir Mem.marshal ts 18%Z (Mem.world [] [])) in
  map (fun p => (fst p, ranScript (snd p))) passes = [(None, true); (None, false); (None, true)] /\
  (forall e calls, passes !! 1 = Some (e, calls) -> ranScript calls = false) /\
  scriptOnceKey (list_ascii_of_string "echo hi" ++ [LF]) =
  list_ascii_of_string "ab08508fdf5ca4da5c4995987bc41c56c048aaa5eeb046417ae4049b7d40286e".
Proof.
  intros s ts passes.
  assert (Hpasses : map (fun p => (fst p, ranScript (snd p))) passes
                    = [(None, true); (None, false); (None, true)])
    by (vm_compute; reflexivity).
  split; [exact Hpasses|]. split; [|vm_compute; reflexivity].
  intros e calls Hj.
  destruct (run_once_script_not_rerun s Mem.dir Mem.marshal 18%Z (Mem_system_persistent 18%Z)
              ts (Mem.world [] [])
              ltac:(repeat constructor)) as (_ & Honce & _).
  destruct (passes !! 0) as [[e0 c0]|] eqn:E0; [|vm_compute in E0; discriminate].
  assert (He0 : e0 = None /\ ranScript c0 = true).
  { vm_compute in E0. injection E0 as <- <-. split; reflexivity. }
  destruct He0 as [-> Hran].
  exact (Honce 0 1 _ _ _ _ c0 e calls ltac:(lia) eq_refl eq_refl eq_refl E0 Hran Hj).
Defined.

(** A script that fails on its first run is run again by the next pass. *)
Lemma failed_script_run_again :
  let s := Mem.system 18%Z in
  let ts := [setupScript "echo hi"; setupScript "echo hi"] in
  let w := Mem.world [] [Some (ErrBackend "exit status 1")] in
  let w' := snd (applyScripts s Mem.dir Mem.marshal ts 18%Z w) in
  let script := list_ascii_of_string "echo hi" ++ [LF] in
  map fst (fst (applyScripts s Mem.dir Mem.marshal ts 18%Z w))
    = [Some (ErrBackend "exit status 1"); None] /\
  List.filter isRunScript (w_trace w')
    = [CallRunScript "setup" "/home/user" script; CallRunScript "setup" "/home/user" script].
Proof. cbv zeta. split; vm_compute; reflexivity. Qed.

(** ** The unmanaged listing *)

(** Strings. *)
Lemma string_app_cons (x : ascii) (a b : string) :
  (String x a ++ b)%string = String x (a ++ b).
Proof. reflexivity. Qed.

Lemma string_app_assoc (a b c : string) : ((a ++ b) ++ c = a ++ (b ++ c))%string.
Proof.
  induction a as [|x a IH]; [reflexivity|]. rewrite !string_app_cons, IH. reflexivity.
Qed.

Lemma string_app_nil_r (a : string) : (a ++ "")%string = a.
Proof.
  induction a as [|x a IH]; [reflexivity|]. rewrite string_app_cons, IH. reflexivity.
Qed.

Lemma prefix_app (p s : string) : String.prefix p (p ++ s) = true.
Proof.
  induction p as [|x p IH]; [destruct s; reflexivity|].
  rewrite string_app_cons. cbn [String.prefix].
  destruct (ascii_dec x x); [exact IH|congruence].
Qed.

Lemma dropString_app (p s : string) : dropString (String.length p) (p ++ s) = s.
Proof. induction p as [|x p IH]; [destruct s; reflexivity|exact IH]. Qed.

Lemma string_app_cons_ne (p s : string) (c : ascii) : (p ++ String c s)%string <> p.
Proof.
  intros H. assert (E : (p ++ String c s)%string = (p ++ "")%string)
    by (rewrite string_app_nil_r; exact H).
  apply String.app_inj in E. discriminate.
Qed.

Lemma TrimDirPrefix_below (dir rel : string) :
  TrimDirPrefix (dir ++ "/" ++ rel) dir = Ok rel.
Proof.
  unfold TrimDirPrefix, HasPrefix.
  rewrite <- string_app_assoc. rewrite prefix_app. cbn [negb].
  rewrite dropString_app. reflexivity.
Qed.

Lemma fold_Join_app (p q : string) (names : list string) :
  fold_left below names (p ++ q)%string = (p ++ fold_left below names q)%string.
Proof.
  revert q. induction names as [|n names IH]; intros q; [reflexivity|].
  cbn [fold_left]. unfold below at 2 4. rewrite string_app_assoc. apply IH.
Qed.

Lemma pathOf_below (root name : string) (rest : list string) :
  pathOf root (name :: rest) = (root ++ "/" ++ relPath (name :: rest))%string.
Proof.
  unfold pathOf, relPath. cbn [fold_left]. unfold below at 2.
  rewrite fold_Join_app. f_equal.
  exact (fold_Join_app "/" name rest).
Qed.

Lemma pathOf_snoc (root : string) (at_ : list string) (name : string) :
  pathOf root (at_ ++ [name]) = below (pathOf root at_) name.
Proof. unfold pathOf. rewrite fold_left_app. reflexivity. Qed.

(** [filepath.Join] on the paths of a walk. *)
Lemma elements_plain (name : string) :
  hasSlash name = false -> filepath.elements name = [name].
Proof.
  unfold hasSlash. induction name as [|c name IH]; [reflexivity|].
  cbn [list_ascii_of_string existsb filepath.elements]. intros H.
  apply orb_false_iff in H as [Hc Hn]. rewrite Ascii.eqb_sym, Hc, (IH Hn). reflexivity.
Qed.

Lemma elements_nonempty (path : string) : filepath.elements path <> [].
Proof.
  destruct path as [|c rest]; cbn [filepath.elements]; [discriminate|].
  destruct (Ascii.eqb c "/"); [discriminate|].
  destruct (filepath.elements rest); discriminate.
Qed.

Lemma elements_below (dir name : string) :
  hasSlash name = false ->
  filepath.elements (below dir name) = filepath.elements dir ++ [name].
Proof.
  intros Hn. unfold below. induction dir as [|c dir IH].
  - change ("" ++ "/" ++ name)%string with (String "/" name).
    cbn [filepath.elements]. change (Ascii.eqb "/" "/") with true. cbn iota.
    rewrite (elements_plain name Hn). reflexivity.
  - rewrite string_app_cons. cbn [filepath.elements]. rewrite IH.
    destruct (Ascii.eqb c "/"); [reflexivity|].
    pose proof (elements_nonempty dir) as Hne.
    destruct (filepath.elements dir) as [|e es]; [congruence|reflexivity].
Qed.

Lemma joinElements_snoc (es : list string) (name : string) :
  es <> [] -> filepath.joinElements (es ++ [name]) = below (filepath.joinElements es) name.
Proof.
  destruct es as [|e rest]; [congruence|]. intros _.
  cbn [app filepath.joinElements]. rewrite fold_left_app. reflexivity.
Qed.

Lemma cleanStep_plain (isRooted : bool) (out : list string) (name : string) :
  plainName name = true -> filepath.cleanStep isRooted out name = name :: out.
Proof.
  unfold plainName, filepath.cleanStep. intros H.
  apply andb_true_iff in H as [H H3]. apply andb_true_iff in H as [H H2].
  apply andb_true_iff in H as [H0 H1].
  apply negb_true_iff in H0, H2, H3. rewrite H0, H2, H3. reflexivity.
Qed.

Lemma rooted_below (dir name : string) :
  filepath.rooted dir = true -> filepath.rooted (below dir name) = true.
Proof.
  unfold filepath.rooted, below. destruct dir as [|c dir]; [discriminate|].
  rewrite string_app_cons. cbn [String.prefix].
  destruct (ascii_dec "/" c); [|discriminate].
  intros _. destruct (dir ++ "/" ++ name)%string; reflexivity.
Qed.

(** Joining a clean absolute directory other than the root with the name of
    an entry puts a slash between them, and the result is such a directory
    path again. *)
Lemma Join_below (dir name : string) :
  cleanAbs dir -> plainName name = true ->
  filepath.Join dir name = below dir name /\ cleanAbs (below dir name).
Proof.
  intros (Hroot & Hclean & Hne) Hname.
  assert (Hslash : hasSlash name = false).
  { unfold plainName in Hname. apply andb_true_iff in Hname as [H _].
    apply andb_true_iff in H as [H _]. apply andb_true_iff in H as [_ H].
    apply negb_true_iff in H. exact H. }
  assert (Hdir : dir <> ""%string) by (intros ->; discriminate Hroot).
  assert (Hbelow : below dir name <> ""%string).
  { unfold below. destruct dir; [congruence|discriminate]. }
  assert (E : filepath.Clean (below dir name) = below dir name).
  { unfold filepath.Clean. rewrite (proj2 (String.eqb_neq _ _) Hbelow).
    cbv zeta. rewrite (rooted_below dir name Hroot), elements_below by exact Hslash.
    rewrite fold_left_app. cbn [fold_left]. rewrite cleanStep_plain by exact Hname.
    cbn [rev].
    unfold filepath.Clean in Hclean. rewrite (proj2 (String.eqb_neq _ _) Hdir) in Hclean.
    cbv zeta in Hclean. rewrite Hroot in Hclean.
    destruct (rev (fold_left (filepath.cleanStep true) (filepath.elements dir) []))
      as [|e es] eqn:Eout.
    { exfalso. apply Hne. rewrite <- Hclean. reflexivity. }
    rewrite joinElements_snoc by discriminate.
    unfold below. rewrite <- string_app_assoc, Hclean. reflexivity. }
  split.
  - unfold filepath.Join. rewrite (proj2 (String.eqb_neq _ _) Hdir). exact E.
  - split; [exact (rooted_below dir name Hroot)|]. split; [exact E|].
    unfold below. destruct dir as [|c dir]; [congruence|].
    rewrite string_app_cons. intros [= _ H]. destruct dir; discriminate H.
Qed.

Lemma Join_pathOf (root : string) (at_ : list string) (name : string) :
  cleanAbs (pathOf root at_) -> plainName name = true ->
  filepath.Join (pathOf root at_) name = pathOf root (at_ ++ [name]) /\
  cleanAbs (pathOf root (at_ ++ [name])).
Proof. intros Hc Hn. rewrite pathOf_snoc. exact (Join_below _ _ Hc Hn). Qed.

(** [filepath.Clean] and [filepath.Join] on some paths. *)
Example Clean_examples :
  map filepath.Clean ["/"; "/a/"; "a//b/../c"; "/../a"; "../../a"; ""; "a/.."; "/a/./b"; "//x"]%string
  = ["/"; "/a"; "a/c"; "/a"; "../../a"; "."; "."; "/a/b"; "/x"]%string /\
  filepath.Join "/" "etc" = "/etc"%string /\
  filepath.Join "/home/user" "a" = "/home/user/a"%string /\
  filepath.Join "/home/" "a" = "/home/a"%string /\
  filepath.Join "" "a" = "a"%string.
Proof. repeat split; vm_compute; reflexivity. Qed.

Section WalkFunction.

Variable root : string.
Variable sourceState : Cmd.SourceState.

Local Abbreviation fn := (Cmd.unmanagedWalkFn root sourceState).

Lemma walkFn_root (info : option FileInfo) (sb : string) :
  fn root info None sb = (None, sb).
Proof. unfold Cmd.unmanagedWalkFn. rewrite String.eqb_refl. reflexivity. Qed.

Lemma walkFn_failure (path : string) (info : option FileInfo) (e : error) (sb : string) :
  fn path info (Some e) sb = (Some e, sb).
Proof. reflexivity. Qed.

Lemma walkFn_below (name : string) (rest : list string) (info : option FileInfo) (sb : string) :
  let at_ := name :: rest in
  fn (pathOf root at_) info None sb =
  (if vfs.IsDir info && negb (descends sourceState (relPath at_)) then Some SkipDir else None,
   if listed sourceState (relPath at_) then (sb ++ line at_)%string else sb).
Proof.
  intros at_. unfold Cmd.unmanagedWalkFn. subst at_. rewrite pathOf_below.
  destruct (String.eqb_spec (root ++ "/" ++ relPath (name :: rest)) root) as [E|_].
  { exfalso. exact (string_app_cons_ne _ _ _ E). }
  unfold Cmd.MustTrimDirPrefix. rewrite TrimDirPrefix_below.
  unfold descends, listed, managed, line.
  destruct (bool_decide (is_Some (Cmd.Entry sourceState (relPath (name :: rest)))));
    destruct (Cmd.Ignored sourceState (relPath (name :: rest)));
    destruct (vfs.IsDir info); reflexivity.
Qed.

End WalkFunction.

(** Induction on trees, with the property for every entry of a directory. *)
Lemma Tree_ind_entries (P : vfs.Tree -> Prop) :
  P vfs.TFile -> P vfs.TSymlink ->
  (forall entries, Forall (fun nc => P (snd nc)) entries -> P (vfs.TDir entries)) ->
  (forall err, P (vfs.TFailure err)) ->
  forall t, P t.
Proof.
  intros Hf Hs Hd He.
  fix IH 1. intros [| |entries|err]; [exact Hf|exact Hs| |apply He].
  apply Hd. induction entries as [|[name child] rest IHrest]; constructor.
  - apply IH.
  - exact IHrest.
Qed.

Lemma lines_app (ss : Cmd.SourceState) (v1 v2 : list (list string)) :
  lines ss (v1 ++ v2) = (lines ss v1 ++ lines ss v2)%string.
Proof.
  unfold lines. rewrite List.filter_app, List.map_app.
  induction (map (line) (List.filter (listedAt ss) v1)) as [|x xs IH]; [reflexivity|].
  cbn [fold_right app]. rewrite IH. symmetry. apply string_app_assoc.
Qed.

Section UnmanagedWalk.

Variable root : string.
Variable sourceState : Cmd.SourceState.

Local Abbreviation fn := (Cmd.unmanagedWalkFn root sourceState).

Lemma walkFn_at (at_ : list string) (t : vfs.Tree) (sb : string) :
  (forall e, t <> vfs.TFailure e) ->
  fn (pathOf root at_) (vfs.infoOf t) None sb =
  (if vfs.IsDir (vfs.infoOf t) && negb (descendsAt sourceState at_) then Some SkipDir else None,
   (sb ++ lines sourceState [at_])%string).
Proof.
  intros Hok. destruct at_ as [|name rest].
  - cbn [pathOf fold_left]. rewrite walkFn_root. cbn [descendsAt negb].
    rewrite andb_false_r. unfold lines. cbn. rewrite string_app_nil_r. reflexivity.
  - rewrite walkFn_below. cbv zeta. unfold lines, descendsAt.
    cbn [List.filter listedAt].
    destruct (listed sourceState (relPath (name :: rest))); cbn [map fold_right];
      rewrite ?string_app_nil_r; reflexivity.
Qed.

Lemma walk_walked (t : vfs.Tree) :
  forall (at_ : list string) (sb sb' : string) (visited : list (list string)),
    cleanAbs (pathOf root at_) -> plainNames t = true ->
    vfs.walk fn (pathOf root at_) at_ t sb = (None, sb', visited) ->
    visited = walked sourceState at_ t /\
    sb' = (sb ++ lines sourceState visited)%string.
Proof.
  induction t as [| |entries IH|err] using Tree_ind_entries;
    intros at_ sb sb' visited Hclean Hplain.
  - cbn [vfs.walk]. rewrite walkFn_at by discriminate. cbn [vfs.infoOf vfs.IsDir andb].
    intros [= <- <-]. split; reflexivity.
  - cbn [vfs.walk]. rewrite walkFn_at by discriminate. cbn [vfs.infoOf vfs.IsDir andb].
    intros [= <- <-]. split; reflexivity.
  - cbn [vfs.walk]. rewrite walkFn_at by discriminate. cbn [vfs.infoOf vfs.IsDir andb walked].
    destruct (descendsAt sourceState at_) eqn:Ed; cbn [negb].
    2: { intros [= <- <-]. split; reflexivity. }
    assert (Hentries : forall acc acc' seen,
              vfs.walkEntries (vfs.walk fn) (pathOf root at_) at_ entries acc = (None, acc', seen) ->
              seen = flat_map (fun nc => walked sourceState (at_ ++ [fst nc]) (snd nc)) entries /\
              acc' = (acc ++ lines sourceState seen)%string).
    { clear sb sb' visited. cbn [plainNames] in Hplain. revert Hplain.
      induction IH as [|[name child] rest Hchild _ IHrest]; intros Hplain acc acc' seen.
      - cbn [vfs.walkEntries]. intros [= <- <-]. unfold lines. cbn.
        rewrite string_app_nil_r. split; reflexivity.
      - cbn [forallb fst snd] in Hplain.
        apply andb_true_iff in Hplain as [Hhere Hrest].
        apply andb_true_iff in Hhere as [Hname Hbelow].
        destruct (Join_pathOf root at_ name Hclean Hname) as [Ejoin Hclean'].
        cbn [vfs.walkEntries flat_map fst snd]. rewrite Ejoin.
        destruct (vfs.walk fn (pathOf root (at_ ++ [name])) (at_ ++ [name]) child acc)
          as [[[e|] acc1] seen1] eqn:E1; [discriminate|].
        destruct (Hchild _ _ _ _ Hclean' Hbelow E1) as [-> ->].
        destruct (vfs.walkEntries (vfs.walk fn) (pathOf root at_) at_ rest _)
          as [[r2 acc2] seen2] eqn:E2.
        intros [= -> <- <-].
        destruct (IHrest Hrest _ _ _ E2) as [-> ->].
        split; [reflexivity|]. rewrite lines_app, string_app_assoc. reflexivity. }
    destruct (vfs.walkEntries (vfs.walk fn) (pathOf root at_) at_ entries _)
      as [[r1 acc1] seen] eqn:E.
    intros [= -> <- <-].
    destruct (Hentries _ _ _ E) as [-> ->].
    split; [reflexivity|].
    change (at_ :: flat_map ?f entries) with ([at_] ++ flat_map f entries).
    rewrite lines_app, string_app_assoc. reflexivity.
  - cbn [vfs.walk]. rewrite walkFn_failure. discriminate.
Qed.

(** The walk fails exactly at the first failure among the walked positions. *)
Lemma walk_failureOf (t : vfs.Tree) :
  forall (at_ : list string) (sb : string),
    cleanAbs (pathOf root at_) -> plainNames t = true ->
    fst (fst (vfs.walk fn (pathOf root at_) at_ t sb)) = failureOf sourceState at_ t.
Proof.
  induction t as [| |entries IH|err] using Tree_ind_entries; intros at_ sb Hclean Hplain.
  - cbn [vfs.walk]. rewrite walkFn_at by discriminate. reflexivity.
  - cbn [vfs.walk]. rewrite walkFn_at by discriminate. reflexivity.
  - cbn [vfs.walk failureOf]. rewrite walkFn_at by discriminate.
    cbn [vfs.infoOf vfs.IsDir andb].
    destruct (descendsAt sourceState at_); cbn [negb]; [|reflexivity].
    generalize (sb ++ lines sourceState [at_])%string. intros acc.
    assert (Hentries : fst (fst (vfs.walkEntries (vfs.walk fn) (pathOf root at_) at_ entries acc))
                       = fold_right
                           (fun nc later =>
                              match failureOf sourceState (at_ ++ [fst nc]) (snd nc) with
                              | Some err => Some err
                              | None => later
                              end) None entries).
    { cbn [plainNames] in Hplain. revert Hplain acc.
      induction IH as [|[name child] rest Hchild _ IHrest]; intros Hplain acc; [reflexivity|].
      cbn [forallb fst snd] in Hplain.
      apply andb_true_iff in Hplain as [Hhere Hrest].
      apply andb_true_iff in Hhere as [Hname Hbelow].
      destruct (Join_pathOf root at_ name Hclean Hname) as [Ejoin Hclean'].
      cbn [vfs.walkEntries fold_right fst snd]. rewrite Ejoin.
      specialize (Hchild (at_ ++ [name]) acc Hclean' Hbelow). cbn [snd] in Hchild.
      destruct (vfs.walk fn (pathOf root (at_ ++ [name])) (at_ ++ [name]) child acc)
        as [[[e|] acc1] seen1]; cbn [fst] in Hchild; rewrite <- Hchild; [reflexivity|].
      specialize (IHrest Hrest acc1).
      destruct (vfs.walkEntries (vfs.walk fn) (pathOf root at_) at_ rest acc1) as [[r2 acc2] seen2].
      exact IHrest. }
    destruct (vfs.walkEntries (vfs.walk fn) (pathOf root at_) at_ entries acc) as [[r1 acc1] seen].
    exact Hentries.
  - cbn [vfs.walk]. rewrite walkFn_failure. reflexivity.
Qed.

Lemma failureOf_None (t : vfs.Tree) :
  forall at_ : list string,
    (forall rest e, In (at_ ++ rest) (walked sourceState at_ t) -> ~ At t rest (vfs.TFailure e)) ->
    failureOf sourceState at_ t = None.
Proof.
  induction t as [| |entries IH|err] using Tree_ind_entries; intros at_ Hno; try reflexivity.
  - cbn [failureOf]. destruct (descendsAt sourceState at_) eqn:Ed; [|reflexivity].
    assert (Hall : forall name child, In (name, child) entries ->
              failureOf sourceState (at_ ++ [name]) child = None).
    { intros name child Hin. rewrite List.Forall_forall in IH.
      apply (IH _ Hin). intros rest e Hw Hat.
      apply (Hno (name :: rest) e).
      - cbn [walked]. right. rewrite Ed. apply in_flat_map. exists (name, child).
        split; [exact Hin|]. cbn [fst snd]. rewrite <- app_assoc in Hw. exact Hw.
      - econstructor; eassumption. }
    clear IH Hno. induction entries as [|[name child] rest IHrest]; [reflexivity|].
    cbn [fold_right fst snd]. rewrite (Hall name child) by (left; reflexivity).
    apply IHrest. intros n c Hin. apply Hall. right. exact Hin.
  - exfalso. apply (Hno [] err).
    + rewrite app_nil_r. left. reflexivity.
    + constructor.
Qed.

End UnmanagedWalk.






(** Scenario "unmanaged listing" as the spec has it: "managed" is a file. *)
Example unmanaged_listing_scenario :
  let dest := vfs.TDir [("extra"%string, vfs.TDir [("inner"%string, vfs.TFile)]);
                        ("managed"%string, vfs.TFile)] in
  Cmd.runUnmanagedCmd printTo "/home/user" dest onlyManaged ""
    = (None, ("extra" ++ KeePassXC.newline)%string) /\
  Cmd.unmanagedVisited "/home/user" dest onlyManaged = [[]; ["extra"%string]; ["managed"%string]].
Proof. cbv zeta. split; vm_compute; reflexivity. Qed.

(** With the root directory as the destination, the walker hands "/etc" to
    the walk function, "//" is no prefix of it, and [MustTrimDirPrefix]
    panics: nothing is listed. *)
Example runUnmanagedCmd_at_root_directory :
  Cmd.runUnmanagedCmd printTo "/" (vfs.TDir [("etc"%string, vfs.TFile)]) onlyManaged "out"
  = (Some (Panic "MustTrimDirPrefix"), "out"%string).
Proof. vm_compute. reflexivity. Qed.


(** * Further properties *)

(** ** Directory prefixes *)

Lemma prefix_inv (p s : string) :
  String.prefix p s = true -> exists r, s = (p ++ r)%string.
Proof.
  revert s. induction p as [|x p IH]; intros s H.
  - exists s. reflexivity.
  - destruct s as [|y s]; cbn [String.prefix] in H; [discriminate|].
    destruct (ascii_dec x y) as [->|]; [|discriminate].
    destruct (IH s H) as [r ->]. exists r. reflexivity.
Qed.

Lemma TrimDirPrefix_Ok (path dir rel : string) :
  TrimDirPrefix path dir = Ok rel <-> path = (dir ++ "/" ++ rel)%string.
Proof.
  split.
  - unfold TrimDirPrefix, HasPrefix.
    destruct (String.prefix (dir ++ "/") path) eqn:E; cbn [negb]; [|discriminate].
    apply prefix_inv in E as [r ->]. rewrite dropString_app. intros [= ->].
    apply string_app_assoc.
  - intros ->. apply TrimDirPrefix_below.
Qed.

(** X1. [TrimDirPrefix path dir] returns [rel] exactly when [path] is [dir],
    a slash and [rel]; it fails, naming the path and the directory, exactly
    when [path] is of that form for no [rel], as for [dir] itself. *)
Theorem TrimDirPrefix_round_trip (path dir : string) :
  (forall rel, TrimDirPrefix path dir = Ok rel <-> path = (dir ++ "/" ++ rel)%string) /\
  (TrimDirPrefix path dir = Err (ErrNoDirPrefix path dir) <->
   forall rel, path <> (dir ++ "/" ++ rel)%string) /\
  TrimDirPrefix dir dir = Err (ErrNoDirPrefix dir dir).
Proof.
  split; [intros rel; apply TrimDirPrefix_Ok|]. split.
  - split.
    + intros H rel Hrel. apply TrimDirPrefix_Ok in Hrel. congruence.
    + intros H. destruct (TrimDirPrefix path dir) as [rel|e] eqn:E.
      * apply TrimDirPrefix_Ok in E. destruct (H rel E).
      * unfold TrimDirPrefix in E. destruct (negb _); congruence.
  - destruct (TrimDirPrefix dir dir) as [rel|e] eqn:E.
    + apply TrimDirPrefix_Ok in E. symmetry in E.
      exfalso. exact (string_app_cons_ne _ _ _ E).
    + unfold TrimDirPrefix in E. destruct (negb _); congruence.
Qed.

(** X2. Trimming composes: once [dir] is trimmed from [path], trimming [sub]
    from the rest gives what trimming the joined directory from [path]
    gives. *)
Theorem TrimDirPrefix_Join (path dir sub rel rest : string) :
  TrimDirPrefix path dir = Ok rel ->
  (TrimDirPrefix rel sub = Ok rest <-> TrimDirPrefix path (below dir sub) = Ok rest).
Proof.
  intros H. apply TrimDirPrefix_Ok in H. subst path.
  rewrite !TrimDirPrefix_Ok. unfold below. split.
  - intros ->. rewrite !string_app_assoc. reflexivity.
  - rewrite !string_app_assoc. intros E.
    apply String.app_inj in E. change ("/" ++ rel)%string with (String "/" rel) in E.
    change ("/" ++ sub ++ "/" ++ rest)%string with (String "/" (sub ++ "/" ++ rest)) in E.
    congruence.
Qed.

Lemma TrimDirPrefix_Join_witness :
  TrimDirPrefix "/home/user/.config/git" "/home/user" = Ok ".config/git"%string /\
  TrimDirPrefix "/home/user/.config/git" (below "/home/user" ".config") = Ok "git"%string.
Proof.
  split; [reflexivity|].
  apply (TrimDirPrefix_Join "/home/user/.config/git" "/home/user" ".config" ".config/git" "git");
    reflexivity.
Defined.

(** ** Permissions under a umask *)

(** X3. Two permissions are equal under a umask exactly when they agree on
    every bit the umask does not mask. *)
Theorem umaskPermEqual_unmasked_bits (perm1 perm2 umask : FileMode) :
  umaskPermEqual perm1 perm2 umask = true <->
  forall n, (0 <= n)%Z -> Z.testbit umask n = false -> Z.testbit perm1 n = Z.testbit perm2 n.
Proof.
  unfold umaskPermEqual. rewrite Z.eqb_eq. split.
  - intros E n Hn Hu.
    assert (H : Z.testbit (Z.ldiff perm1 umask) n = Z.testbit (Z.ldiff perm2 umask) n)
      by (rewrite E; reflexivity).
    rewrite !Z.ldiff_spec, Hu, !andb_true_r in H. exact H.
  - intros H. apply Z.bits_inj'. intros n Hn. rewrite !Z.ldiff_spec.
    destruct (Z.testbit umask n) eqn:Hu; [rewrite !andb_false_r; reflexivity|].
    rewrite (H n Hn Hu). reflexivity.
Qed.

Lemma ldiff_wider (p u u' : Z) :
  Z.land u u' = u -> Z.ldiff (Z.ldiff p u) u' = Z.ldiff p u'.
Proof.
  intros Hsub. apply Z.bits_inj'. intros n Hn. rewrite !Z.ldiff_spec.
  assert (H : Z.testbit (Z.land u u') n = Z.testbit u n) by (rewrite Hsub; reflexivity).
  rewrite Z.land_spec in H.
  destruct (Z.testbit p n), (Z.testbit u n), (Z.testbit u' n); try reflexivity; discriminate H.
Qed.

(** X4. Permission equality under a umask is symmetric and transitive, and
    permissions equal under a umask are equal under every umask that masks
    at least the same bits. *)
Theorem umaskPermEqual_equivalence (p q r u u' : FileMode) :
  umaskPermEqual p q u = umaskPermEqual q p u /\
  (umaskPermEqual p q u = true -> umaskPermEqual q r u = true ->
   umaskPermEqual p r u = true) /\
  (Z.land u u' = u -> umaskPermEqual p q u = true -> umaskPermEqual p q u' = true).
Proof.
  unfold umaskPermEqual. split; [apply Z.eqb_sym|]. rewrite !Z.eqb_eq. split.
  - congruence.
  - intros Hsub Hpq.
    rewrite <- (ldiff_wider p u u' Hsub), <- (ldiff_wider q u u' Hsub), Hpq. reflexivity.
Qed.

Lemma umaskPermEqual_equivalence_witness :
  umaskPermEqual 420%Z 438%Z 18%Z = true /\ umaskPermEqual 438%Z 436%Z 18%Z = true /\
  umaskPermEqual 420%Z 436%Z 18%Z = true /\ umaskPermEqual 420%Z 438%Z 63%Z = true.
Proof.
  destruct (umaskPermEqual_equivalence 420 438 436 18 63)%Z as (_ & Htrans & Hwider).
  split; [reflexivity|]. split; [reflexivity|]. split.
  - apply Htrans; reflexivity.
  - apply Hwider; reflexivity.
Defined.

(** ** Private and executable modes *)

Lemma testbit_73 (n : Z) :
  Z.testbit 73 n = ((n =? 0) || (n =? 3) || (n =? 6))%Z.
Proof.
  destruct (Z.ltb_spec n 0) as [Hneg|Hpos].
  { rewrite Z.testbit_neg_r by exact Hneg.
    destruct (Z.eqb_spec n 0), (Z.eqb_spec n 3), (Z.eqb_spec n 6); lia. }
  destruct (Z.ltb_spec n 7) as [Hlt|Hge].
  - assert (H : (n = 0 \/ n = 1 \/ n = 2 \/ n = 3 \/ n = 4 \/ n = 5 \/ n = 6)%Z) by lia.
    destruct H as [->|[->|[->|[->|[->|[->| ->]]]]]]; reflexivity.
  - rewrite Z.bits_above_log2; [|lia|change (Z.log2 73) with 6%Z; lia].
    destruct (Z.eqb_spec n 0), (Z.eqb_spec n 3), (Z.eqb_spec n 6); lia.
Qed.

Lemma testbit_small (k n : Z) :
  (0 <= k)%Z -> Z.testbit (Z.ones k) n = ((0 <=? n) && (n <? k))%Z.
Proof.
  intros Hk. destruct (Z.leb_spec 0 n) as [Hn|Hn]; cbn [andb].
  - destruct (Z.ltb_spec n k).
    + apply Z.ones_spec_low. lia.
    + apply Z.ones_spec_high. lia.
  - apply Z.testbit_neg_r. exact Hn.
Qed.

(** X5. A mode is private exactly when none of its six group and other
    permission bits is set, and executable exactly when one of its three
    execute bits is; the type bits of the mode play no part, so the mode of
    a directory is private when its permissions are. *)
Theorem isPrivate_isExecutable_bits (mode perm : FileMode) :
  (isPrivate mode = true <-> forall n, (0 <= n < 6)%Z -> Z.testbit mode n = false) /\
  isExecutable mode = Z.testbit mode 0 || Z.testbit mode 3 || Z.testbit mode 6 /\
  isPrivate (Z.lor ModeDir perm) = isPrivate perm.
Proof.
  assert (Hp : forall m, Z.land (Perm m) 63 = Z.land m 63).
  { intros m. unfold Perm, ModePerm. rewrite <- Z.land_assoc. reflexivity. }
  assert (Hx : forall m, Z.land (Perm m) 73 = Z.land m 73).
  { intros m. unfold Perm, ModePerm. rewrite <- Z.land_assoc. reflexivity. }
  split; [|split].
  - unfold isPrivate. rewrite Hp, Z.eqb_eq. change 63%Z with (Z.ones 6). split.
    + intros E n Hn.
      assert (H : Z.testbit (Z.land mode (Z.ones 6)) n = false) by (rewrite E; apply Z.bits_0).
      rewrite Z.land_spec, testbit_small in H by lia.
      destruct (Z.leb_spec 0 n), (Z.ltb_spec n 6); try lia.
      rewrite andb_true_r in H. exact H.
    + intros H. apply Z.bits_inj'. intros n Hn.
      rewrite Z.land_spec, testbit_small, Z.bits_0 by lia.
      destruct (Z.ltb_spec n 6) as [Hlt|Hge].
      * rewrite (H n) by lia. reflexivity.
      * destruct (0 <=? n)%Z; cbn [andb]; apply andb_false_r.
  - unfold isExecutable. rewrite Hx.
    destruct (Z.eqb_spec (Z.land mode 73) 0) as [E|E]; cbn [negb].
    + assert (H : forall n, Z.testbit mode n && Z.testbit 73 n = false).
      { intros n. rewrite <- Z.land_spec, E. apply Z.bits_0. }
      pose proof (H 0%Z) as H0. pose proof (H 3%Z) as H3. pose proof (H 6%Z) as H6.
      change (Z.testbit 73 0) with true in H0. change (Z.testbit 73 3) with true in H3.
      change (Z.testbit 73 6) with true in H6.
      rewrite andb_true_r in H0, H3, H6. rewrite H0, H3, H6. reflexivity.
    + destruct (Z.testbit mode 0 || Z.testbit mode 3 || Z.testbit mode 6) eqn:B; [reflexivity|].
      exfalso. apply E. apply Z.bits_inj'. intros n Hn.
      rewrite Z.land_spec, testbit_73, Z.bits_0.
      apply orb_false_iff in B as [B B6]. apply orb_false_iff in B as [B0 B3].
      destruct (Z.eqb_spec n 0) as [->|]; [rewrite B0; reflexivity|].
      destruct (Z.eqb_spec n 3) as [->|]; [rewrite B3; reflexivity|].
      destruct (Z.eqb_spec n 6) as [->|]; [rewrite B6; reflexivity|].
      apply andb_false_r.
  - unfold isPrivate. rewrite !Hp. rewrite Z.land_lor_distr_l. reflexivity.
Qed.

(** ** The umask of the process *)

(** X6. When the process umask is a set of permission bits, as the kernel
    keeps it, [init] leaves it as it was, and [GetUmask] returns it
    afterwards; after [SetUmask] the process umask is the permission bits of
    the new umask, which is what [GetUmask] returns in full. *)
Theorem init_reads_the_umask (st : Umask.State) (newUmask : FileMode) :
  Z.land (Umask.process_umask st) 511 = Umask.process_umask st ->
  Umask.process_umask (Umask.init st) = Umask.process_umask st /\
  Umask.GetUmask (Umask.init st) = Umask.process_umask st /\
  Umask.GetUmask (Umask.SetUmask newUmask st) = newUmask /\
  Umask.process_umask (Umask.SetUmask newUmask st) = Perm newUmask.
Proof.
  intros Hperm. unfold Umask.init, Umask.SetUmask, Umask.GetUmask, Umask.syscall_Umask.
  cbn. rewrite Hperm. repeat split; reflexivity.
Qed.

Lemma init_reads_the_umask_witness :
  let st := {| Umask.var_umask := 0%Z; Umask.process_umask := 18%Z |} in
  Umask.process_umask (Umask.init st) = 18%Z /\
  Umask.GetUmask (Umask.init st) = 18%Z /\
  Umask.process_umask (Umask.SetUmask 4095%Z st) = 511%Z.
Proof.
  intros st.
  destruct (init_reads_the_umask st 4095%Z eq_refl) as (H1 & H2 & _ & H4).
  split; [exact H1|]. split; [exact H2|]. exact H4.
Defined.

(** ** Apply and Equal, call by call *)

Lemma callsBetween_app {St : Type} (st st' : St) (tr calls : list SysCall) (now now' : Z) :
  callsBetween (Build_World st tr now) (Build_World st' (tr ++ calls) now') = calls.
Proof. unfold callsBetween. cbn [w_trace]. apply drop_app_length. Qed.

Lemma callsBetween_nil {St : Type} (st st' : St) (tr : list SysCall) (now now' : Z) :
  callsBetween (Build_World st tr now) (Build_World st' tr now') = [].
Proof. unfold callsBetween. cbn [w_trace]. apply drop_all. Qed.

(** Run [Apply] on a world given by its parts, outcome by outcome. *)
Ltac run_Apply :=
  cbv beta iota zeta delta
    [Apply Equal
     TargetStateAbsent_Apply TargetStateDir_Apply TargetStateFile_Apply TargetStateFile_write
     TargetStatePresent_Apply TargetStateRenameDir_Apply TargetStateSymlink_Apply
     TargetStateSymlink_replace TargetStateScript_Apply TargetStateScript_run
     TargetStateAbsent_Equal TargetStateDir_Equal TargetStateFile_Equal
     TargetStatePresent_Equal TargetStateRenameDir_Equal TargetStateSymlink_Equal
     TargetStateScript_Equal
     Remove RemoveAll Chmod Mkdir WriteFile WriteSymlink Rename RunScript
     PersistentState_Get PersistentState_Set time_Now
     bind ret liftR call query Contents ContentsSHA256 Linkname resultOfError Path
     w_sys w_trace w_now fst snd
     tsd_perm tsf_perm tsf_contents tsp_perm tsp_contents tsl_linkname
     tss_contents name once].

Ltac split_outcomes :=
  repeat (match goal with
          | |- context [match ?x with _ => _ end] =>
              lazymatch x with
              | context [match _ with _ => _ end] => fail
              | _ => destruct x eqn:?
              end
          end; cbv beta iota zeta).

Ltac trace_grows H :=
  apply (f_equal (fun p => length (w_trace (snd p)))) in H;
  cbn [snd w_trace] in H; rewrite ?length_app in H; cbn [length] in H; lia.

Section ApplyCalls.

Context {St : Type} (s : System St).
Variable path_Dir : string -> string.
Variable path_Join : string -> string -> string.
Variable json_Marshal : scriptOnceState -> result bytes.

Local Abbreviation apply := (Apply s path_Dir path_Join json_Marshal).

(** X7. For every target other than a script, [Equal] answers [(true, nil)]
    exactly when [Apply] succeeds without a single call on the backend:
    [Apply] acts exactly on the entries [Equal] finds different or cannot
    compare. *)
Theorem Equal_iff_Apply_makes_no_call (t : TargetStateEntry) (a : ActualStateEntry)
    (umask : FileMode) (w : World St) :
  isScript t = false ->
  (Equal t a umask = (true, None) <-> apply t a umask w = (Ok tt, w)).
Proof.
  intros Hscript. destruct w as [st tr now].
  destruct t as [|[perm]|[lc perm]|[lc perm]|[old new]|t|[ll]]; [| | | | |discriminate|];
    destruct a as [path|path aperm|path aperm alc|path all];
    run_Apply; split_outcomes; split; intros H;
    first [reflexivity | discriminate | congruence | trace_grows H].
Qed.

(** X8. Every call [Apply] makes for a target that is neither a script nor
    a rename is on the path of the actual entry: nothing outside the path is
    changed, no script is run and the persistent state is never used. *)
Theorem Apply_calls_on_path (t : TargetStateEntry) (a : ActualStateEntry)
    (umask : FileMode) (w : World St) :
  isScript t = false -> isRenameDir t = false ->
  Forall (fun c => callTarget c = Some (Path a))
         (callsBetween w (snd (apply t a umask w))).
Proof.
  intros Hscript Hrename. destruct w as [st tr now].
  destruct t as [|[perm]|[lc perm]|[lc perm]|[old new]|t|[ll]]; try discriminate;
    destruct a as [path|path aperm|path aperm alc|path all];
    run_Apply; split_outcomes;
    rewrite <- ?app_assoc; rewrite ?callsBetween_app, ?callsBetween_nil;
    repeat constructor.
Qed.

(** X9. [Apply] removes only to replace: when it calls [RemoveAll], that is
    its first call, an entry is there, and either the entry is of another
    kind than the target asks for or it is a symlink.  A file is never
    removed to install a file, nor a directory to install a directory. *)
Theorem Apply_removes_only_to_replace (t : TargetStateEntry) (a : ActualStateEntry)
    (umask : FileMode) (w : World St) (p : string) :
  isScript t = false -> isRenameDir t = false ->
  In (CallRemoveAll p) (callsBetween w (snd (apply t a umask w))) ->
  head (callsBetween w (snd (apply t a umask w))) = Some (CallRemoveAll (Path a)) /\
  kindOf a <> None /\
  (wantedKind t = kindOf a -> kindOf a = Some KindSymlink).
Proof.
  intros Hscript Hrename. destruct w as [st tr now].
  destruct t as [|[perm]|[lc perm]|[lc perm]|[old new]|t|[ll]]; try discriminate;
    destruct a as [path|path aperm|path aperm alc|path all];
    run_Apply; split_outcomes;
    rewrite <- ?app_assoc; rewrite ?callsBetween_app, ?callsBetween_nil;
    cbn [In head kindOf wantedKind app];
    intros Hin;
    repeat match goal with
           | H : _ \/ _ |- _ => destruct H
           | H : False |- _ => destruct H
           end;
    try discriminate;
    (split; [reflexivity|split; [discriminate|congruence]]).
Qed.

(** X10. A symlink or a script whose link name or contents cannot be
    evaluated is applied without a call on the backend: [Apply] fails and
    leaves everything as it was.  The error is the target's, unless the
    actual entry is a symlink that cannot be read, whose error comes
    first. *)
Theorem Apply_unevaluable_makes_no_call (t : TargetStateEntry) (a : ActualStateEntry)
    (umask : FileMode) (w : World St) (e : error) :
  wantedKind t = Some KindSymlink \/ isScript t = true ->
  Evaluate t = Some e ->
  exists e', apply t a umask w = (Err e', w) /\
             (e' = e \/ exists path, a = ActualStateSymlink path (Err e')).
Proof.
  intros Hkind. destruct w as [st tr now].
  destruct t as [|[perm]|[lc perm]|[lc perm]|[old new]|[lc nm on]|[ll]];
    try (destruct Hkind; discriminate);
    cbv beta iota delta [Evaluate TargetStateScript_Evaluate TargetStateSymlink_Evaluate
                         errorOf ContentsSHA256 Linkname tss_contents tsl_linkname].
  - destruct lc as [c|e0]; intros [= <-].
    destruct on; run_Apply; eexists; (split; [reflexivity|left; reflexivity]).
  - destruct ll as [l|e0]; intros [= <-].
    destruct a as [path|path aperm|path aperm alc|path [al|ae]]; run_Apply;
      eexists; (split; [reflexivity|]); eauto.
Qed.

(** X11. A file, or an entry wanted present, whose contents cannot be
    evaluated is applied on a directory or a symlink by removing it first:
    when the removal succeeds [Apply] returns the error of the contents
    after one [RemoveAll], with the entry gone and nothing in its place. *)
Theorem Apply_unevaluable_file_removes_first (t : TargetStateEntry) (a : ActualStateEntry)
    (umask : FileMode) (w : World St) (e : error) (st' : St) :
  wantedKind t = Some KindRegular ->
  Evaluate t = Some e ->
  kindOf a = Some KindDir \/ kindOf a = Some KindSymlink ->
  sysRemoveAll s (Path a) (w_sys w) = (None, st') ->
  apply t a umask w =
  (Err e, Build_World st' (w_trace w ++ [CallRemoveAll (Path a)]) (w_now w)).
Proof.
  intros Hwanted Heval Hkind Hremove. destruct w as [st tr now]. cbn [w_sys] in Hremove.
  destruct t as [|[perm]|[lc perm]|[lc perm]|[old new]|t|[ll]]; try discriminate;
    destruct a as [path|path aperm|path aperm alc|path all];
    try (destruct Hkind; discriminate);
    cbv beta iota delta [Evaluate TargetStateFile_Evaluate TargetStatePresent_Evaluate
                         errorOf ContentsSHA256 tsf_contents tsp_contents] in Heval;
    destruct lc as [c|e0]; try discriminate; injection Heval as <-;
    cbn [Path] in Hremove; run_Apply; rewrite Hremove; reflexivity.
Qed.

End ApplyCalls.

Lemma Equal_iff_Apply_makes_no_call_witness :
  let t := File {| tsf_contents := Ok (list_ascii_of_string "x"); tsf_perm := 438%Z |} in
  let a := ActualStateFile "/home/user/b" 420%Z (Ok (list_ascii_of_string "x")) in
  let w := Mem.world [("/home/user/b"%string, Mem.NFile 420%Z (list_ascii_of_string "x"))] [] in
  Equal t a 18%Z = (true, None) /\
  Apply (Mem.system 18%Z) Mem.dir Mem.join Mem.marshal t a 18%Z w = (Ok tt, w).
Proof.
  intros t a w.
  assert (E : Equal t a 18%Z = (true, None)) by (vm_compute; reflexivity).
  split; [exact E|].
  exact (proj1 (Equal_iff_Apply_makes_no_call (Mem.system 18%Z) Mem.dir Mem.join Mem.marshal
                  t a 18%Z w eq_refl) E).
Defined.

Lemma Apply_calls_on_path_witness :
  let t := Symlink {| tsl_linkname := Ok "new"%string |} in
  let a := ActualStateSymlink "/home/user/link" (Ok "old"%string) in
  let w := Mem.world [("/home/user/link"%string, Mem.NSymlink "old")] [] in
  Forall (fun c => callTarget c = Some "/home/user/link"%string)
         (callsBetween w (snd (Apply (Mem.system 18%Z) Mem.dir Mem.join Mem.marshal t a 18%Z w))).
Proof.
  intros t a w.
  exact (Apply_calls_on_path (Mem.system 18%Z) Mem.dir Mem.join Mem.marshal t a 18%Z w
           eq_refl eq_refl).
Defined.

Lemma Apply_removes_only_to_replace_witness :
  let t := Dir {| tsd_perm := 493%Z |} in
  let a := ActualStateFile "/home/user/d" 420%Z (Ok []) in
  let w := Mem.world [("/home/user/d"%string, Mem.NFile 420%Z [])] [] in
  callsBetween w (snd (Apply (Mem.system 18%Z) Mem.dir Mem.join Mem.marshal t a 18%Z w))
    = [CallRemoveAll "/home/user/d"; CallMkdir "/home/user/d" 493%Z] /\
  kindOf a <> None.
Proof.
  intros t a w. split; [vm_compute; reflexivity|].
  refine (proj1 (proj2 (Apply_removes_only_to_replace (Mem.system 18%Z) Mem.dir Mem.join
                          Mem.marshal t a 18%Z w "/home/user/d" eq_refl eq_refl _))).
  vm_compute. left. reflexivity.
Defined.

Lemma Apply_unevaluable_makes_no_call_witness :
  let t := Symlink {| tsl_linkname := Err (ErrBackend "template") |} in
  let a := ActualStateFile "/home/user/f" 420%Z (Ok []) in
  let w := Mem.world [("/home/user/f"%string, Mem.NFile 420%Z [])] [] in
  exists e', Apply (Mem.system 18%Z) Mem.dir Mem.join Mem.marshal t a 18%Z w = (Err e', w) /\
             (e' = ErrBackend "template" \/ exists path, a = ActualStateSymlink path (Err e')).
Proof.
  intros t a w.
  exact (Apply_unevaluable_makes_no_call (Mem.system 18%Z) Mem.dir Mem.join Mem.marshal
           t a 18%Z w (ErrBackend "template") (or_introl eq_refl) eq_refl).
Defined.

Lemma Apply_unevaluable_file_removes_first_witness :
  let t := File {| tsf_contents := Err (ErrBackend "template"); tsf_perm := 420%Z |} in
  let a := ActualStateDir "/home/user/d" 493%Z in
  let w := Mem.world [("/home/user/d"%string, Mem.NDir 493%Z);
                      ("/home/user/d/kept"%string, Mem.NFile 420%Z [])] [] in
  let r := Apply (Mem.system 18%Z) Mem.dir Mem.join Mem.marshal t a 18%Z w in
  fst r = Err (ErrBackend "template") /\
  w_trace (snd r) = [CallRemoveAll "/home/user/d"] /\
  Mem.ms_files (w_sys (snd r)) = ∅.
Proof.
  intros t a w r. subst r.
  rewrite (Apply_unevaluable_file_removes_first (Mem.system 18%Z) Mem.dir Mem.join Mem.marshal
             t a 18%Z w (ErrBackend "template")
             (snd (Mem.removeAll "/home/user/d" (w_sys w)))
             eq_refl eq_refl (or_introl eq_refl) eq_refl).
  split; [reflexivity|]. split; [reflexivity|]. vm_compute. reflexivity.
Defined.

(** ** Scripts that are not run once, and empty scripts *)

Section ScriptRuns.

Context {St : Type} (s : System St).
Variable path_Dir : string -> string.
Variable json_Marshal : scriptOnceState -> result bytes.
Variable umask : FileMode.

Local Abbreviation applyScript := (TargetStateScript_Apply s path_Dir json_Marshal).

Lemma not_once_trace (t : TargetStateScript) (a : ActualStateEntry) (contents : bytes)
    (w : World St) :
  once t = false -> tss_contents t = Ok contents -> isEmpty contents = false ->
  w_trace (snd (applyScript t a umask w)) =
  w_trace w ++ [CallRunScript (name t) (path_Dir (Path a)) contents].
Proof.
  intros Honce Hc He. unfold TargetStateScript_Apply, TargetStateScript_run.
  rewrite Honce, Hc. unfold bind, liftR, Contents. rewrite He.
  unfold RunScript, call, ret.
  destruct (sysRunScript s (name t) (path_Dir (Path a)) contents (w_sys w)) as [[e|] st'];
    reflexivity.
Qed.

(** X12. A script that is not to be run once, with contents that are not
    empty, is run by every pass, whatever the earlier passes returned: [n]
    passes make [n] calls of [RunScript], in the directory of the path, and
    no call on the persistent state. *)
Theorem not_once_script_runs_every_pass (t : TargetStateScript) (a : ActualStateEntry)
    (contents : bytes) (n : nat) (w : World St) :
  once t = false -> tss_contents t = Ok contents -> isEmpty contents = false ->
  callsBetween w (snd (applyScripts s path_Dir json_Marshal (repeat (t, a) n) umask w)) =
  repeat (CallRunScript (name t) (path_Dir (Path a)) contents) n.
Proof.
  intros Honce Hc He.
  assert (H : w_trace (snd (applyScripts s path_Dir json_Marshal (repeat (t, a) n) umask w)) =
              w_trace w ++ repeat (CallRunScript (name t) (path_Dir (Path a)) contents) n).
  { revert w. induction n as [|n IH]; intros w.
    - cbn [repeat applyScripts snd]. rewrite app_nil_r. reflexivity.
    - cbn [repeat applyScripts].
      pose proof (not_once_trace t a contents w Honce Hc He) as Ht.
      destruct (applyScript t a umask w) as [r w1]. cbn [snd] in Ht.
      specialize (IH w1).
      destruct (applyScripts s path_Dir json_Marshal (repeat (t, a) n) umask w1) as [rs w2].
      cbn [snd] in *. rewrite IH, Ht, <- app_assoc. reflexivity. }
  unfold callsBetween. rewrite H. apply drop_app_length.
Qed.

(** X13. A script whose contents are empty or all white space is never run
    and never recorded: a script to be run once is looked up under its key
    and nothing else happens, any other script makes no call at all, and
    the backend is left as it was. *)
Theorem empty_script_never_runs (t : TargetStateScript) (a : ActualStateEntry)
    (contents : bytes) (w : World St) :
  tss_contents t = Ok contents -> isEmpty contents = true ->
  let r := applyScript t a umask w in
  callsBetween w (snd r) =
    (if once t then [CallGet ScriptOnceStateBucket (scriptOnceKey contents)] else []) /\
  w_sys (snd r) = w_sys w /\
  (once t = false -> fst r = Ok tt).
Proof.
  intros Hc He. destruct w as [st tr now]. destruct t as [lc nm on].
  cbn [tss_contents] in Hc. subst lc. cbv zeta.
  destruct on; run_Apply; rewrite He; fold (scriptOnceKey contents).
  - destruct (sysGet s ScriptOnceStateBucket (scriptOnceKey contents) st) as [[v|]|e];
      rewrite callsBetween_app; repeat split; discriminate.
  - rewrite callsBetween_nil. repeat split.
Qed.

End ScriptRuns.

Lemma not_once_script_runs_every_pass_witness :
  let t := {| tss_contents := Ok (list_ascii_of_string "echo hi"); name := "hi"; once := false |} in
  let a := ActualStateAbsent "/home/user/hi" in
  callsBetween (Mem.world [] [])
    (snd (applyScripts (Mem.system 18%Z) Mem.dir Mem.marshal [(t, a); (t, a)] 18%Z (Mem.world [] [])))
  = [CallRunScript "hi" "/home/user" (list_ascii_of_string "echo hi");
     CallRunScript "hi" "/home/user" (list_ascii_of_string "echo hi")].
Proof.
  intros t a.
  exact (not_once_script_runs_every_pass (Mem.system 18%Z) Mem.dir Mem.marshal 18%Z t a
           (list_ascii_of_string "echo hi") 2 (Mem.world [] []) eq_refl eq_refl eq_refl).
Defined.

Lemma empty_script_never_runs_witness :
  let t := {| tss_contents := Ok [space; LF]; name := "blank"; once := true |} in
  let a := ActualStateAbsent "/home/user/blank" in
  let r := TargetStateScript_Apply (Mem.system 18%Z) Mem.dir Mem.marshal t a 18%Z (Mem.world [] []) in
  callsBetween (Mem.world [] []) (snd r) = [CallGet ScriptOnceStateBucket (scriptOnceKey [space; LF])] /\
  w_sys (snd r) = w_sys (Mem.world [] []).
Proof.
  intros t a r.
  destruct (empty_script_never_runs (Mem.system 18%Z) Mem.dir Mem.marshal 18%Z t a [space; LF]
              (Mem.world [] []) eq_refl eq_refl) as (H1 & H2 & _).
  split; [exact H1|exact H2].
Defined.

(** ** Entry states *)

Lemma Perm_high_bits (p : FileMode) (n : Z) :
  Perm p = p -> (9 <= n)%Z -> Z.testbit p n = false.
Proof.
  intros Hp Hn. rewrite <- Hp. unfold Perm, ModePerm. rewrite Z.land_spec.
  change 511%Z with (Z.ones 9). rewrite Z.ones_spec_high by lia. apply andb_false_r.
Qed.

(** X15. [EntryState.Equal] holds exactly of entry states with the same mode
    and the same digest.  For targets whose permissions are permission bits
    only, the entry states of a directory, a file and a symlink are never
    equal to one another: the mode tells the kinds apart. *)
Theorem EntryState_tells_kinds_apart (d : TargetStateDir) (f : TargetStateFile)
    (l : TargetStateSymlink) (es other esd esf esl : EntryState) :
  Perm (tsd_perm d) = tsd_perm d ->
  Perm (tsf_perm f) = tsf_perm f ->
  TargetEntryState (Dir d) = Ok (Some esd) ->
  TargetEntryState (File f) = Ok (Some esf) ->
  TargetEntryState (Symlink l) = Ok (Some esl) ->
  (EntryState_Equal es other = true <-> es = other) /\
  EntryState_Equal esd esf = false /\
  EntryState_Equal esd esl = false /\
  EntryState_Equal esf esl = false.
Proof.
  intros Hd Hf Ed Ef El.
  cbn [TargetEntryState] in *.
  unfold TargetStateDir_EntryState in Ed. injection Ed as <-.
  unfold TargetStateFile_EntryState in Ef.
  destruct (ContentsSHA256 (tsf_contents f)) as [sha|]; [|discriminate]. injection Ef as <-.
  unfold TargetStateSymlink_EntryState in El.
  destruct (LinknameSHA256 (tsl_linkname l)) as [lsha|]; [|discriminate]. injection El as <-.
  unfold EntryState_Equal. cbn [es_Mode es_ContentsSHA256].
  assert (Hbit31 : Z.testbit (Z.lor ModeDir (tsd_perm d)) 31 = true).
  { rewrite Z.lor_spec. reflexivity. }
  split; [|split; [|split]].
  - rewrite andb_true_iff, Z.eqb_eq, bool_decide_eq_true.
    destruct es, other. cbn [es_Mode es_ContentsSHA256]. split.
    + intros [-> ->]. reflexivity.
    + intros [= -> ->]. split; reflexivity.
  - apply andb_false_iff. left. apply Z.eqb_neq. intros E.
    rewrite E, (Perm_high_bits _ 31 Hf) in Hbit31 by lia. discriminate.
  - apply andb_false_iff. left. apply Z.eqb_neq. intros E.
    rewrite E in Hbit31. discriminate.
  - apply andb_false_iff. left. apply Z.eqb_neq. intros E.
    assert (H : Z.testbit ModeSymlink 27 = true) by reflexivity.
    rewrite <- E, (Perm_high_bits _ 27 Hf) in H by lia. discriminate.
Qed.

Lemma EntryState_tells_kinds_apart_witness :
  let esd := {| es_Mode := Z.lor ModeDir 493; es_ContentsSHA256 := [] |} in
  let esl := {| es_Mode := ModeSymlink; es_ContentsSHA256 := sha256Sum (list_ascii_of_string "t") |} in
  EntryState_Equal esd esl = false.
Proof.
  intros esd esl.
  exact (proj1 (proj2 (proj2
    (EntryState_tells_kinds_apart {| tsd_perm := 493%Z |}
       {| tsf_contents := Ok []; tsf_perm := 420%Z |}
       {| tsl_linkname := Ok "t"%string |}
       esd esd esd _ esl eq_refl eq_refl eq_refl eq_refl eq_refl)))).
Defined.

(** ** readPassword on any standard input that is no terminal *)

Lemma readStep_inv (pw : bytes) (r : KeePassXC.ReadResult) :
  noLineEnd pw -> length pw <= 1024 ->
  match KeePassXC.readStep pw r with
  | inl (pw', err) =>
      noLineEnd pw' /\ length pw' <= 1025 /\
      (1024 < length pw' -> err = Some ErrPasswordTooLong)
  | inr pw' => noLineEnd pw' /\ length pw' <= 1024
  end.
Proof.
  intros Hpw Hlen. unfold KeePassXC.readStep. cbv zeta.
  assert (Hafter : forall err : option error,
            match
              match err with
              | Some e => if is_EOF e && (0 <? length pw) then inl (pw, None) else inl (pw, Some e)
              | None => inr pw
              end
            with
            | inl (pw', err) =>
                noLineEnd pw' /\ length pw' <= 1025 /\
                (1024 < length pw' -> err = Some ErrPasswordTooLong)
            | inr pw' => noLineEnd pw' /\ length pw' <= 1024
            end).
  { intros [e|]; [|split; assumption].
    destruct (is_EOF e && (0 <? length pw));
      (split; [exact Hpw|]); (split; lia). }
  destruct (0 <? KeePassXC.rr_n r); cbn [andb]; [|apply Hafter].
  destruct (Ascii.eqb_spec (KeePassXC.rr_byte r) CR) as [_|Hcr]; cbn [negb]; [apply Hafter|].
  destruct (Ascii.eqb_spec (KeePassXC.rr_byte r) LF) as [_|Hlf].
  { split; [exact Hpw|]. split; lia. }
  assert (Hpw' : noLineEnd (pw ++ [KeePassXC.rr_byte r])).
  { apply Forall_app. split; [exact Hpw|]. constructor; [split; assumption|constructor]. }
  assert (Hlen' : length (pw ++ [KeePassXC.rr_byte r]) = S (length pw))
    by (rewrite length_app; cbn [length]; lia).
  destruct (1024 <? length (pw ++ [KeePassXC.rr_byte r])) eqn:E.
  - cbn [is_EOF andb]. split; [exact Hpw'|]. split; [lia|reflexivity].
  - apply Nat.ltb_ge in E.
    destruct (KeePassXC.rr_err r) as [e|]; [|split; [exact Hpw'|lia]].
    destruct (is_EOF e && (0 <? length (pw ++ [KeePassXC.rr_byte r])));
      (split; [exact Hpw'|]); (split; lia).
Qed.

Lemma readLoop_inv (rs : list KeePassXC.ReadResult) (pw : bytes) :
  noLineEnd pw -> length pw <= 1024 ->
  let '((pw', err), rest) := KeePassXC.readLoop pw rs in
  noLineEnd pw' /\ length pw' <= 1025 /\
  (1024 < length pw' -> err = Some ErrPasswordTooLong) /\
  exists used, rs = used ++ rest.
Proof.
  revert pw. induction rs as [|r rs IH]; intros pw Hpw Hlen; cbn [KeePassXC.readLoop].
  - pose proof (readStep_inv pw KeePassXC.atEOF Hpw Hlen) as H.
    destruct (KeePassXC.readStep pw KeePassXC.atEOF) as [[pw' err]|pw'].
    + destruct H as (H1 & H2 & H3). repeat split; try assumption. exists []. reflexivity.
    + destruct H as (H1 & H2). repeat split; try assumption; [lia|lia|]. exists []. reflexivity.
  - pose proof (readStep_inv pw r Hpw Hlen) as H.
    destruct (KeePassXC.readStep pw r) as [[pw' err]|pw'].
    + destruct H as (H1 & H2 & H3). repeat split; try assumption. exists [r]. reflexivity.
    + destruct H as (H1 & H2). specialize (IH pw' H1 H2).
      destruct (KeePassXC.readLoop pw' rs) as [[pw'' err] rest].
      destruct IH as (I1 & I2 & I3 & used & ->). repeat split; try assumption.
      exists (r :: used). reflexivity.
Qed.

(** X16. On a standard input that is no terminal, whatever the reads
    return: the password [readPassword] returns holds neither a carriage
    return nor a line feed and has at most 1025 bytes, 1025 only together
    with the error "password too long"; a prefix of the coming reads is
    used up, and nothing is printed. *)
Theorem readPassword_bounds
    (term_ReadPassword : KeePassXC.Stdin -> (bytes * option error) * KeePassXC.Stdin)
    (prompt : string) (p : KeePassXC.Process) :
  KeePassXC.isTerminal (KeePassXC.stdin p) = false ->
  let r := KeePassXC.readPassword term_ReadPassword prompt p in
  let pw := fst (fst r) in
  noLineEnd pw /\ length pw <= 1025 /\
  (1024 < length pw -> snd (fst r) = Some ErrPasswordTooLong) /\
  (exists used,
     KeePassXC.reads (KeePassXC.stdin p) = used ++ KeePassXC.reads (KeePassXC.stdin (snd r))) /\
  KeePassXC.stdout (snd r) = KeePassXC.stdout p /\
  KeePassXC.keePassXCPassword (snd r) = KeePassXC.keePassXCPassword p.
Proof.
  intros Hterm. unfold KeePassXC.readPassword. rewrite Hterm. cbv zeta.
  pose proof (readLoop_inv (KeePassXC.reads (KeePassXC.stdin p)) []
                ltac:(constructor) ltac:(cbn [length]; lia)) as H.
  destruct (KeePassXC.readLoop [] (KeePassXC.reads (KeePassXC.stdin p))) as [[pw err] rest].
  destruct H as (H1 & H2 & H3 & H4).
  cbn [fst snd KeePassXC.stdin KeePassXC.reads KeePassXC.stdout KeePassXC.keePassXCPassword].
  repeat split; assumption.
Qed.

Lemma readPassword_bounds_witness :
  let p := {| KeePassXC.keePassXCPassword := "";
              KeePassXC.stdin :=
                {| KeePassXC.isTerminal := false;
                   KeePassXC.reads :=
                     [{| KeePassXC.rr_n := 1; KeePassXC.rr_byte := "a"%char; KeePassXC.rr_err := None |};
                      {| KeePassXC.rr_n := 0; KeePassXC.rr_byte := "a"%char; KeePassXC.rr_err := None |};
                      {| KeePassXC.rr_n := 1; KeePassXC.rr_byte := CR;
                         KeePassXC.rr_err := Some (ErrBackend "input/output error") |}] |};
              KeePassXC.stdout := "" |} in
  fst (KeePassXC.readPassword noTerminal "" p) = (["a"%char], Some (ErrBackend "input/output error")) /\
  noLineEnd (fst (fst (KeePassXC.readPassword noTerminal "" p))).
Proof.
  intros p. split; [reflexivity|].
  exact (proj1 (readPassword_bounds noTerminal "" p eq_refl)).
Defined.

Lemma readLoop_line (pre post acc : bytes) :
  ~ In LF pre -> length (acc ++ withoutCR pre) <= 1024 ->
  KeePassXC.readLoop acc (KeePassXC.reads (KeePassXC.pipe (pre ++ LF :: post))) =
  ((acc ++ withoutCR pre, None), KeePassXC.reads (KeePassXC.pipe post)).
Proof.
  revert acc. induction pre as [|b pre IH]; intros acc Hlf Hlen;
    cbn [app KeePassXC.pipe KeePassXC.reads map KeePassXC.readLoop].
  - rewrite readStep_byte. change (Ascii.eqb LF CR) with false. rewrite Ascii.eqb_refl.
    cbn [withoutCR List.filter]. rewrite app_nil_r. reflexivity.
  - rewrite readStep_byte.
    assert (Hb : b <> LF) by (intros ->; apply Hlf; left; reflexivity).
    assert (Hpre : ~ In LF pre) by (intros H; apply Hlf; right; exact H).
    cbn [withoutCR List.filter] in *.
    destruct (Ascii.eqb_spec b CR) as [->|Hcr]; cbn [negb] in *.
    + exact (IH acc Hpre Hlen).
    + destruct (Ascii.eqb_spec b LF) as [E|_]; [contradiction|].
      fold (withoutCR pre) in *.
      replace (acc ++ b :: withoutCR pre) with ((acc ++ [b]) ++ withoutCR pre) in *
        by (rewrite <- app_assoc; reflexivity).
      destruct (1024 <? length (acc ++ [b])) eqn:E.
      * apply Nat.ltb_lt in E. rewrite length_app in Hlen. lia.
      * exact (IH (acc ++ [b]) Hpre Hlen).
Qed.

(** X17. From a pipe, [readPassword] uses up the first line and its line
    feed and nothing more: the bytes after the first line feed are left on
    standard input, for the next read. *)
Theorem readPassword_leaves_next_line
    (term_ReadPassword : KeePassXC.Stdin -> (bytes * option error) * KeePassXC.Stdin)
    (prompt cached out : string) (pre post : bytes) :
  ~ In LF pre -> length (withoutCR pre) <= 1024 ->
  KeePassXC.readPassword term_ReadPassword prompt
    {| KeePassXC.keePassXCPassword := cached;
       KeePassXC.stdin := KeePassXC.pipe (pre ++ LF :: post);
       KeePassXC.stdout := out |}
  = ((withoutCR pre, None),
     {| KeePassXC.keePassXCPassword := cached;
        KeePassXC.stdin := KeePassXC.pipe post;
        KeePassXC.stdout := out |}).
Proof.
  intros Hlf Hlen. unfold KeePassXC.readPassword.
  cbn [KeePassXC.stdin KeePassXC.isTerminal KeePassXC.pipe KeePassXC.keePassXCPassword
       KeePassXC.stdout KeePassXC.reads].
  pose proof (readLoop_line pre post [] Hlf Hlen) as H.
  cbn [KeePassXC.pipe KeePassXC.reads app] in H. rewrite H. reflexivity.
Qed.

Lemma readPassword_leaves_next_line_witness :
  let first := KeePassXC.readPassword noTerminal ""
                 (onPipe (list_ascii_of_string "one" ++ [CR; LF] ++ list_ascii_of_string "two" ++ [LF])) in
  first = ((list_ascii_of_string "one", None), onPipe (list_ascii_of_string "two" ++ [LF])) /\
  fst (KeePassXC.readPassword noTerminal "" (snd first)) = (list_ascii_of_string "two", None).
Proof.
  intros first.
  assert (E : first = ((list_ascii_of_string "one", None), onPipe (list_ascii_of_string "two" ++ [LF]))).
  { refine (readPassword_leaves_next_line noTerminal "" "" ""
              (list_ascii_of_string "one" ++ [CR]) (list_ascii_of_string "two" ++ [LF]) _ _).
    - vm_compute. intros H. repeat (destruct H as [H|H]; [discriminate H|]). exact H.
    - vm_compute. lia. }
  split; [exact E|]. rewrite E. reflexivity.
Defined.

(** ** The template functions and their caches *)

Section TemplateFunctions.

Variable term_ReadPassword : KeePassXC.Stdin -> (bytes * option error) * KeePassXC.Stdin.
Variable IdempotentCmdOutput : KeePassXC.Cmd -> result bytes.
Variable semver_NewVersion : string -> result Template.Version.
Variable Compare : Template.Version -> Template.Version -> Z.
Variable bytes_TrimSpace : bytes -> bytes.
Variable strings_TrimSpace : string -> string.

Local Abbreviation getVersion :=
  (Template.getKeePassXCVersion IdempotentCmdOutput semver_NewVersion bytes_TrimSpace).
Local Abbreviation runCLI := (Template.runCLI term_ReadPassword IdempotentCmdOutput).
Local Abbreviation func :=
  (Template.keePassXCFunc term_ReadPassword IdempotentCmdOutput semver_NewVersion Compare
     bytes_TrimSpace).
Local Abbreviation attributeFunc :=
  (Template.keePassXCAttributeFunc term_ReadPassword IdempotentCmdOutput semver_NewVersion
     Compare bytes_TrimSpace strings_TrimSpace).

Lemma getVersion_keeps (c : Template.keePassXCCmdConfig) (g : Template.Globals) :
  sameButVersion g (snd (getVersion c g)).
Proof.
  unfold Template.getKeePassXCVersion, sameButVersion.
  destruct (Template.keePassXCVersion g); [repeat split|].
  destruct (IdempotentCmdOutput _); [|repeat split].
  destruct (semver_NewVersion _); repeat split.
Qed.

Lemma runCLI_keeps (c : Template.keePassXCCmdConfig) (nm : string) (args : list string)
    (g : Template.Globals) :
  Template.keePassXCVersion (snd (runCLI c nm args g)) = Template.keePassXCVersion g /\
  Template.keePassXCCache (snd (runCLI c nm args g)) = Template.keePassXCCache g /\
  Template.keePassXCAttributeCache (snd (runCLI c nm args g)) =
    Template.keePassXCAttributeCache g.
Proof.
  unfold Template.runCLI.
  destruct (KeePassXC.runKeePassXCCLICommand _ _ _ _ _ _). repeat split.
Qed.

Lemma runCLI_cached (c : Template.keePassXCCmdConfig) (nm : string) (args : list string)
    (g : Template.Globals) :
  KeePassXC.keePassXCPassword (Template.process g) <> ""%string ->
  Template.process (snd (runCLI c nm args g)) = Template.process g.
Proof.
  intros Hne. unfold Template.runCLI.
  rewrite runKeePassXCCLICommand_cached by exact Hne. reflexivity.
Qed.

(** X18. The version of the tool is asked for once: after
    [getKeePassXCVersion] has returned a version, every later call, whatever
    the configuration, returns that version and leaves the package variables
    as they are; the call itself changes nothing but the version kept. *)
Theorem getKeePassXCVersion_asked_once (c c' : Template.keePassXCCmdConfig)
    (g g' : Template.Globals) (v : Template.Version) :
  getVersion c g = (Ok v, g') ->
  getVersion c' g' = (Ok v, g') /\
  Template.keePassXCVersion g' = Some v /\
  sameButVersion g g'.
Proof.
  intros H. pose proof (getVersion_keeps c g) as Hkeep. rewrite H in Hkeep. cbn [snd] in Hkeep.
  assert (Hv : Template.keePassXCVersion g' = Some v).
  { unfold Template.getKeePassXCVersion in H.
    destruct (Template.keePassXCVersion g) eqn:E; [injection H as <- <-; exact E|].
    destruct (IdempotentCmdOutput _); [|discriminate].
    destruct (semver_NewVersion _); [|discriminate].
    injection H as <- <-. reflexivity. }
  split; [|split; assumption].
  unfold Template.getKeePassXCVersion. rewrite Hv. reflexivity.
Qed.

(** X19. [keePassXCFunc] is memoised by entry: after a call has returned the
    data of an entry, every later call for the entry returns the same data
    and changes nothing, whatever the configuration says by then, the
    database included. *)
Theorem keePassXCFunc_memoised (c c' : Template.keePassXCCmdConfig) (entry : string)
    (g g' : Template.Globals) (data : gmap string string) :
  func c entry g = (Ok data, g') ->
  func c' entry g' = (Ok data, g') /\
  Template.keePassXCCache g' !! entry = Some data.
Proof.
  intros H.
  assert (Hc : Template.keePassXCCache g' !! entry = Some data).
  { unfold Template.keePassXCFunc in H.
    destruct (Template.keePassXCCache g !! entry) eqn:E; [injection H as <- <-; exact E|].
    destruct (String.eqb _ _); [discriminate|].
    destruct (getVersion c g) as [[v|e] g1]; [|discriminate].
    destruct (runCLI _ _ _ _) as [[output|e] g2]; [|discriminate].
    destruct (KeePassXC.parseKeyPassXCOutput output) as [d [e|]]; [discriminate|].
    injection H as <- <-. cbn [Template.keePassXCCache]. apply lookup_insert_eq. }
  split; [|exact Hc]. unfold Template.keePassXCFunc. rewrite Hc. reflexivity.
Qed.

(** X20. [keePassXCAttributeFunc] is memoised by entry and attribute in the
    same way. *)
Theorem keePassXCAttributeFunc_memoised (c c' : Template.keePassXCCmdConfig)
    (entry attribute : string) (g g' : Template.Globals) (data : string) :
  attributeFunc c entry attribute g = (Ok data, g') ->
  attributeFunc c' entry attribute g' = (Ok data, g') /\
  Template.keePassXCAttributeCache g' !! (entry, attribute) = Some data.
Proof.
  intros H.
  assert (Hc : Template.keePassXCAttributeCache g' !! (entry, attribute) = Some data).
  { unfold Template.keePassXCAttributeFunc in H. cbv zeta in H.
    destruct (Template.keePassXCAttributeCache g !! (entry, attribute)) eqn:E;
      [injection H as <- <-; exact E|].
    destruct (String.eqb _ _); [discriminate|].
    destruct (getVersion c g) as [[v|e] g1]; [|discriminate].
    destruct (runCLI _ _ _ _) as [[output|e] g2]; [|discriminate].
    injection H as <- <-. cbn [Template.keePassXCAttributeCache]. apply lookup_insert_eq. }
  split; [|exact Hc]. unfold Template.keePassXCAttributeFunc. cbv zeta. rewrite Hc. reflexivity.
Qed.

(** X21. A call of [keePassXCFunc] changes the cache at its own entry at
    most, and not at all when it panics; the attribute cache is never
    changed.  So an entry once cached stays cached with its data. *)
Theorem keePassXCFunc_keeps_other_entries (c : Template.keePassXCCmdConfig)
    (entry other : string) (g : Template.Globals) :
  let r := func c entry g in
  (other <> entry ->
   Template.keePassXCCache (snd r) !! other = Template.keePassXCCache g !! other) /\
  (errorOf (fst r) <> None -> Template.keePassXCCache (snd r) = Template.keePassXCCache g) /\
  Template.keePassXCAttributeCache (snd r) = Template.keePassXCAttributeCache g.
Proof.
  cbv zeta. unfold Template.keePassXCFunc.
  destruct (Template.keePassXCCache g !! entry) eqn:E; [repeat split|].
  destruct (String.eqb _ _); [repeat split|].
  pose proof (getVersion_keeps c g) as (K1 & K2 & _).
  destruct (getVersion c g) as [[v|e] g1]; cbn [snd] in K1, K2;
    [|cbn [fst snd]; rewrite K1, K2; repeat split].
  match goal with |- context [runCLI ?c ?n ?a ?g] =>
    pose proof (runCLI_keeps c n a g) as (_ & R1 & R2); destruct (runCLI c n a g) as [[output|e] g2]
  end; cbn [snd] in R1, R2;
    [|cbn [fst snd]; rewrite R1, R2, K1, K2; repeat split].
  destruct (KeePassXC.parseKeyPassXCOutput output) as [d [e|]];
    cbn [fst snd Template.keePassXCCache Template.keePassXCAttributeCache errorOf];
    rewrite ?R1, ?R2, ?K1, ?K2; repeat split; try congruence.
  intros Hne. apply lookup_insert_ne. congruence.
Qed.

(** X22. With a password cached, neither template function reads standard
    input or prints anything: the process is left as it is, and so is the
    cached password. *)
Theorem template_functions_ask_no_password (c : Template.keePassXCCmdConfig)
    (entry attribute : string) (g : Template.Globals) :
  KeePassXC.keePassXCPassword (Template.process g) <> ""%string ->
  Template.process (snd (func c entry g)) = Template.process g /\
  Template.process (snd (attributeFunc c entry attribute g)) = Template.process g.
Proof.
  intros Hne.
  assert (Hrun : forall nm args g1,
            Template.process g1 = Template.process g ->
            Template.process (snd (runCLI c nm args g1)) = Template.process g).
  { intros nm args g1 E. rewrite runCLI_cached by (rewrite E; exact Hne). exact E. }
  pose proof (getVersion_keeps c g) as (_ & _ & K).
  split.
  - unfold Template.keePassXCFunc.
    destruct (Template.keePassXCCache g !! entry); [reflexivity|].
    destruct (String.eqb _ _); [reflexivity|].
    destruct (getVersion c g) as [[v|e] g1]; cbn [snd] in K; [|exact K].
    match goal with |- context [runCLI ?c ?n ?a ?g] =>
      pose proof (Hrun n a g K) as R; destruct (runCLI c n a g) as [[output|e] g2]
    end; cbn [snd] in R; [|exact R].
    destruct (KeePassXC.parseKeyPassXCOutput output) as [d [e|]]; exact R.
  - unfold Template.keePassXCAttributeFunc. cbv zeta.
    destruct (Template.keePassXCAttributeCache g !! (entry, attribute)); [reflexivity|].
    destruct (String.eqb _ _); [reflexivity|].
    destruct (getVersion c g) as [[v|e] g1]; cbn [snd] in K; [|exact K].
    match goal with |- context [runCLI ?c ?n ?a ?g] =>
      pose proof (Hrun n a g K) as R; destruct (runCLI c n a g) as [[output|e] g2]
    end; cbn [snd] in R; exact R.
Qed.

End TemplateFunctions.

Lemma getKeePassXCVersion_asked_once_witness :
  let g := freshGlobals [] in
  let get := Template.getKeePassXCVersion sampleTool parseVersion asciiTrimSpace in
  let g' := snd (get sampleConfig g) in
  Template.Minor <$> Template.keePassXCVersion g' = Some 6%Z /\
  snd (get sampleConfig g') = g'.
Proof.
  intros g get g'.
  destruct (getKeePassXCVersion_asked_once sampleTool parseVersion asciiTrimSpace
              sampleConfig sampleConfig g g'
              {| Template.Major := 2; Template.Minor := 6; Template.Patch := 0;
                 Template.PreRelease := ""; Template.Metadata := "" |} eq_refl)
    as (H1 & H2 & _).
  split; [rewrite H2; reflexivity|]. unfold get. rewrite H1. reflexivity.
Defined.

Lemma keePassXCFunc_memoised_witness :
  let g := freshGlobals (list_ascii_of_string "secret" ++ [LF]) in
  let g' := snd (sampleFunc sampleConfig "mail" g) in
  let elsewhere := {| Template.Command := "false"; Template.Database := ""; Template.Args := [] |} in
  sampleFunc sampleConfig "mail" g = (Ok (<["UserName"%string := "joe"%string]> ∅), g') /\
  sampleFunc elsewhere "mail" g' = (Ok (<["UserName"%string := "joe"%string]> ∅), g').
Proof.
  intros g g' elsewhere.
  assert (E : sampleFunc sampleConfig "mail" g = (Ok (<["UserName"%string := "joe"%string]> ∅), g'))
    by (vm_compute; reflexivity).
  split; [exact E|].
  exact (proj1 (keePassXCFunc_memoised noTerminal sampleTool parseVersion compareVersions
                  asciiTrimSpace sampleConfig elsewhere "mail" g g' _ E)).
Defined.

Lemma keePassXCAttributeFunc_memoised_witness :
  let g := freshGlobals (list_ascii_of_string "secret" ++ [LF]) in
  let g' := snd (sampleAttributeFunc sampleConfig "mail" "UserName" g) in
  sampleAttributeFunc sampleConfig "mail" "UserName" g = (Ok "joe"%string, g') /\
  sampleAttributeFunc sampleConfig "mail" "UserName" g' = (Ok "joe"%string, g').
Proof.
  intros g g'.
  assert (E : sampleAttributeFunc sampleConfig "mail" "UserName" g = (Ok "joe"%string, g'))
    by (vm_compute; reflexivity).
  split; [exact E|].
  exact (proj1 (keePassXCAttributeFunc_memoised noTerminal sampleTool parseVersion
                  compareVersions asciiTrimSpace _ sampleConfig sampleConfig "mail" "UserName"
                  g g' _ E)).
Defined.

Lemma template_functions_ask_no_password_witness :
  let g := freshGlobals (list_ascii_of_string "secret" ++ [LF] ++ list_ascii_of_string "next" ++ [LF]) in
  let g1 := snd (sampleFunc sampleConfig "mail" g) in
  KeePassXC.keePassXCPassword (Template.process g1) = "secret"%string /\
  Template.process (snd (sampleAttributeFunc sampleConfig "mail" "UserName" g1)) = Template.process g1.
Proof.
  intros g g1.
  assert (E : KeePassXC.keePassXCPassword (Template.process g1) = "secret"%string)
    by (vm_compute; reflexivity).
  split; [exact E|].
  refine (proj2 (template_functions_ask_no_password noTerminal sampleTool parseVersion
                   compareVersions asciiTrimSpace _ sampleConfig "mail" "UserName" g1 _)).
  rewrite E. discriminate.
Defined.

(** ** The map parseKeyPassXCOutput returns *)

Lemma pairLine_match (k v k0 v0 : string) :
  hasColon k = false ->
  KeePassXC.FindStringSubmatch (pairLine k v) = Some (k0, v0) -> k0 = k /\ v0 = v.
Proof.
  intros Hk H. apply FindStringSubmatch_spec in H as (E & _ & Hk0 & _).
  assert (C : KeePassXC.cutColon (pairLine k v) = Some (k, String space v))
    by exact (cutColon_app k (String space v) Hk).
  rewrite E, (cutColon_app k0 (String space v0) Hk0) in C.
  injection C as -> ->. split; reflexivity.
Qed.

Lemma pairLine_inj (k v v' : string) : pairLine k v = pairLine k v' -> v = v'.
Proof.
  unfold pairLine. intros E. apply String.app_inj in E.
  change (": " ++ v)%string with (String colon (String space v)) in E.
  change (": " ++ v')%string with (String colon (String space v')) in E.
  congruence.
Qed.

Lemma parseLoop_lookup (later : list string) :
  forall (i : nat) (scanErr err : option error) (d data : gmap string string) (k v : string),
    KeePassXC.parseLoop (S i) later scanErr d = (Some data, err) ->
    hasColon k = false ->
    (data !! k = Some v <->
     (exists before after,
        later = before ++ pairLine k v :: after /\ forall v', ~ In (pairLine k v') after) \/
     ((forall v', ~ In (pairLine k v') later) /\ d !! k = Some v)).
Proof.
  induction later as [|text rest IH]; intros i scanErr err d data k v Hrun Hk.
  - cbn [KeePassXC.parseLoop] in Hrun. injection Hrun as <- _. split.
    + intros H. right. split; [intros v' []|exact H].
    + intros [(before & after & E & _)|[_ H]]; [|exact H].
      destruct before; discriminate E.
  - cbn [KeePassXC.parseLoop Nat.eqb] in Hrun.
    destruct (KeePassXC.FindStringSubmatch text) as [[k0 v0]|] eqn:Em; [|discriminate].
    rewrite (IH _ _ _ _ _ k v Hrun Hk). clear IH Hrun.
    pose proof (proj1 (FindStringSubmatch_spec text k0 v0) Em) as (Etext & _).
    change (text = pairLine k0 v0) in Etext.
    destruct (decide (k0 = k)) as [->|Hne].
    + rewrite lookup_insert_eq. split.
      * intros [(before & after & -> & Hno)|[Hno [= ->]]]; left.
        -- exists (text :: before), after. split; [reflexivity|exact Hno].
        -- exists [], rest. split; [rewrite Etext; reflexivity|exact Hno].
      * intros [(before & after & E & Hno)|[Hno _]].
        -- destruct before as [|b before]; cbn [app] in E; injection E as E1 E2.
           ++ right. subst rest. split; [exact Hno|].
              rewrite Etext in E1. apply pairLine_inj in E1. congruence.
           ++ left. exists before, after. split; [exact E2|exact Hno].
        -- exfalso. apply (Hno v0). left. exact Etext.
    + rewrite lookup_insert_ne by exact Hne.
      assert (Hother : forall v', text <> pairLine k v').
      { intros v' E. rewrite E in Em. apply pairLine_match in Em as [E0 _]; [|exact Hk].
        congruence. }
      split.
      * intros [(before & after & -> & Hno)|[Hno Hd]].
        -- left. exists (text :: before), after. split; [reflexivity|exact Hno].
        -- right. split; [|exact Hd]. intros v' [E|Hin]; [exact (Hother v' E)|exact (Hno v' Hin)].
      * intros [(before & after & E & Hno)|[Hno Hd]].
        -- destruct before as [|b before]; cbn [app] in E; injection E as E1 E2.
           ++ destruct (Hother v E1).
           ++ left. exists before, after. split; [exact E2|exact Hno].
        -- right. split; [|exact Hd]. intros v' Hin. apply (Hno v'). right. exact Hin.
Qed.

Lemma parseLoop_keys (later : list string) :
  forall (i : nat) (scanErr err : option error) (d data : gmap string string) (k v : string),
    KeePassXC.parseLoop (S i) later scanErr d = (Some data, err) ->
    data !! k = Some v -> hasColon k = false \/ d !! k = Some v.
Proof.
  induction later as [|text rest IH]; intros i scanErr err d data k v Hrun Hv.
  - cbn [KeePassXC.parseLoop] in Hrun. injection Hrun as <- _. right. exact Hv.
  - cbn [KeePassXC.parseLoop Nat.eqb] in Hrun.
    destruct (KeePassXC.FindStringSubmatch text) as [[k0 v0]|] eqn:Em; [|discriminate].
    destruct (IH _ _ _ _ _ k v Hrun Hv) as [H|H]; [left; exact H|].
    destruct (decide (k0 = k)) as [->|Hne].
    + left. apply FindStringSubmatch_spec in Em. tauto.
    + rewrite lookup_insert_ne in H by exact Hne. right. exact H.
Qed.

(** X23. In the map [parseKeyPassXCOutput] returns, a field name has a value
    exactly when it holds no colon and some line after the first is the
    name, a colon, a space and the value, with no line of the same name
    after it: the last line of a name wins, and the first line of the output
    never counts. *)
Theorem parseKeyPassXCOutput_lookup (output : bytes) (data : gmap string string)
    (err : option error) (k v : string) :
  KeePassXC.parseKeyPassXCOutput output = (Some data, err) ->
  let later := drop 1 (fst (bufio.ScanLines output)) in
  data !! k = Some v <->
  hasColon k = false /\
  exists before after,
    later = before ++ pairLine k v :: after /\ forall v', ~ In (pairLine k v') after.
Proof.
  unfold KeePassXC.parseKeyPassXCOutput.
  destruct (bufio.ScanLines output) as [tokens scanErr]. cbn [fst].
  destruct tokens as [|title later]; intros Hrun; cbv zeta.
  - cbn [KeePassXC.parseLoop] in Hrun. injection Hrun as <- _.
    rewrite lookup_empty. split; [discriminate|].
    intros (_ & before & after & E & _). destruct before; discriminate E.
  - change (drop 1 (title :: later)) with later.
    cbn [KeePassXC.parseLoop Nat.eqb] in Hrun. split.
    + intros Hv. destruct (parseLoop_keys _ _ _ _ _ _ k v Hrun Hv) as [Hk|H];
        [|rewrite lookup_empty in H; discriminate].
      split; [exact Hk|].
      destruct (proj1 (parseLoop_lookup _ _ _ _ _ _ k v Hrun Hk) Hv) as [H|[_ H]];
        [exact H|rewrite lookup_empty in H; discriminate].
    + intros (Hk & H). apply (parseLoop_lookup _ _ _ _ _ _ k v Hrun Hk). left. exact H.
Qed.

Lemma parseKeyPassXCOutput_lookup_witness :
  let output :=
    list_ascii_of_string "UserName: title" ++ [LF] ++
    list_ascii_of_string "UserName: joe" ++ [LF] ++
    list_ascii_of_string "URL: x" ++ [LF] ++
    list_ascii_of_string "UserName: ann" ++ [LF] in
  fst (KeePassXC.parseKeyPassXCOutput output) ≫= (fun data => data !! "UserName"%string)
  = Some "ann"%string.
Proof.
  intros output.
  destruct (KeePassXC.parseKeyPassXCOutput output) as [[data|] err] eqn:E;
    [|vm_compute in E; discriminate E].
  cbn [fst mbind option_bind].
  apply (parseKeyPassXCOutput_lookup output data err "UserName" "ann" E).
  split; [reflexivity|].
  exists ["UserName: joe"; "URL: x"]%string, []. split; [vm_compute; reflexivity|].
  intros v' [].
Defined.

(** ** The unmanaged listing and failures of the walk *)

(** X24. The unmanaged listing in full, for a destination directory that is
    a clean absolute path other than the root directory: when one of the
    positions it walks cannot be examined, it returns the first such
    failure and writes nothing; otherwise it writes the lines of the walked
    positions.  A failure below a directory that is unmanaged or ignored is
    never met, and the walk function itself never fails. *)
Theorem runUnmanagedCmd_stops_at_first_failure {Out : Type}
    (writeOutputString : string -> Out -> option error * Out)
    (root : string) (sourceState : Cmd.SourceState) (dest : vfs.Tree) (out : Out) :
  cleanAbs root ->
  plainNames dest = true ->
  Cmd.runUnmanagedCmd writeOutputString root dest sourceState out =
    match failureOf sourceState [] dest with
    | Some err => (Some err, out)
    | None => writeOutputString (lines sourceState (walked sourceState [] dest)) out
    end /\
  ((forall at_ e, In at_ (walked sourceState [] dest) -> ~ At dest at_ (vfs.TFailure e)) ->
   failureOf sourceState [] dest = None).
Proof.
  intros Hclean Hplain. split.
  - unfold Cmd.runUnmanagedCmd, vfs.WalkSlash.
    pose proof (walk_failureOf root sourceState dest [] "" Hclean Hplain) as Hf.
    change (pathOf root []) with root in Hf.
    destruct (vfs.walk (Cmd.unmanagedWalkFn root sourceState) root [] dest "")
      as [[r sb] visited] eqn:E.
    cbn [fst] in Hf. rewrite <- Hf. destruct r as [e|]; [reflexivity|].
    destruct (walk_walked root sourceState dest [] "" sb visited Hclean Hplain E) as [-> ->].
    reflexivity.
  - intros Hno. apply failureOf_None. intros rest e. exact (Hno rest e).
Qed.

(** A failure below the unmanaged directory "extra" is not met; one below
    the root stops the listing. *)
Lemma runUnmanagedCmd_stops_at_first_failure_witness :
  let broken := vfs.TFailure (ErrBackend "permission denied") in
  Cmd.runUnmanagedCmd printTo "/home/user"
    (vfs.TDir [("extra"%string, vfs.TDir [("inner"%string, broken)]);
               ("managed"%string, vfs.TFile)]) onlyManaged ""
    = (None, ("extra" ++ KeePassXC.newline)%string) /\
  Cmd.runUnmanagedCmd printTo "/home/user"
    (vfs.TDir [("extra"%string, vfs.TFile); ("managed"%string, broken)]) onlyManaged "out"
    = (Some (ErrBackend "permission denied"), "out"%string).
Proof.
  intros broken.
  assert (Hclean : cleanAbs "/home/user").
  { split; [reflexivity|]. split; [vm_compute; reflexivity|discriminate]. }
  split.
  - rewrite (proj1 (runUnmanagedCmd_stops_at_first_failure printTo "/home/user" onlyManaged
                      (vfs.TDir [("extra"%string, vfs.TDir [("inner"%string, broken)]);
                                 ("managed"%string, vfs.TFile)])
                      "" Hclean eq_refl)).
    vm_compute. reflexivity.
  - rewrite (proj1 (runUnmanagedCmd_stops_at_first_failure printTo "/home/user" onlyManaged
                      (vfs.TDir [("extra"%string, vfs.TFile); ("managed"%string, broken)])
                      "out" Hclean eq_refl)).
    vm_compute. reflexivity.
Defined.
